(** * binlog-tailer.js: a shallow embedding of [MysqlBinlogTailer.prototype.stream]

    The tailer follows a MySQL binary log that another process appends to.
    One call of [stream(file, fastForward)] creates a closure over a handful
    of mutable variables (the session) and a chain of callbacks that Node's
    event loop invokes: the completion of [fs.stat], [fs.open] and [fs.read],
    and the [fs.watchFile] listener.  Nothing in the source blocks, so one
    turn of the event loop is a function from the session to the session,
    and a run of the program is the fold of that function over what the
    event loop delivers.

    Numbers are [Z]: every number the source computes is an integer far
    below 2^53, where JavaScript's doubles are exact.  A number that may be
    [NaN] (a byte read past the end of a buffer) is an [option Z]. *)

From Stdlib Require Import ZArith List Bool Lia.
From Stdlib Require Import Strings.Byte.
From Stdlib Require Strings.String.
Import Stdlib.Strings.String.StringSyntax.
Delimit Scope string_scope with string.
Import ListNotations.
Local Open Scope Z_scope.

(* ------------------------------------------------------------------ *)
(** ** Buffers *)

Definition Buffer := list byte.

Definition num (b : byte) : Z := Z.of_N (Byte.to_N b).

(** [buffer[i]] for an index inside the buffer (the header and the
    auto-increment body are always read in full before they are indexed;
    see [step], which hands a callback exactly the bytes it asked for). *)
Definition at_ (buffer : Buffer) (i : Z) : Z :=
  num (nth (Z.to_nat i) buffer x00).

(** [buffer[i]] in general: [undefined] past the end. *)
Definition jsnum := option Z.

Definition index (buffer : Buffer) (i : Z) : jsnum :=
  if i <? 0 then None else option_map num (nth_error buffer (Z.to_nat i)).

Definition jsadd (a b : jsnum) : jsnum :=
  match a, b with
  | Some x, Some y => Some (x + y)
  | _, _ => None
  end.

Definition jsmul (a : jsnum) (k : Z) : jsnum := option_map (fun x => x * k) a.

Definition readInt (buffer : Buffer) (offset : Z) : Z :=
  at_ buffer (offset + 3) * 16777216 +
  at_ buffer (offset + 2) * 65536 +
  at_ buffer (offset + 1) * 256 +
  at_ buffer offset.

Definition readSmallint (buffer : Buffer) (offset : Z) : jsnum :=
  jsadd (jsmul (index buffer (offset + 1)) 256) (index buffer offset).

(** [new Date(readInt(buffer, offset) * 1000)], as milliseconds. *)
Definition readTimestamp (buffer : Buffer) (offset : Z) : Z :=
  readInt buffer offset * 1000.

(** [Buffer.prototype.slice]: an index that is [NaN] counts as 0, one past
    the end counts as the length, a negative one counts from the end. *)
Definition clamp (i : jsnum) (len : Z) : Z :=
  match i with
  | None => 0
  | Some i =>
      if len <=? i then len
      else if 0 <=? i then i
      else if 0 <=? i + len then i + len
      else 0
  end.

Definition slice (buffer : Buffer) (start end_ : jsnum) : Buffer :=
  let len := Z.of_nat (length buffer) in
  let s := clamp start len in
  let e := clamp end_ len in
  firstn (Z.to_nat (e - s)) (skipn (Z.to_nat s) buffer).

Definition slice_from (buffer : Buffer) (start : jsnum) : Buffer :=
  skipn (Z.to_nat (clamp start (Z.of_nat (length buffer)))) buffer.

(* ------------------------------------------------------------------ *)
(** ** What leaves the tailer *)

(** A path is kept as the bytes of its UTF-8 form. *)
Definition Path := list byte.

(** Bytes that are one character each and may stand in a path: ASCII
    without NUL.  [toString('utf-8')] of such bytes is the string whose
    UTF-8 form they are. *)
Definition plain_text (name : Buffer) : Prop :=
  Forall (fun b => 0 < num b < 128) name.

(** The segments of a path: what stands between its slashes. *)
Fixpoint segments (p : Path) : list Path :=
  match p with
  | [] => [[]]
  | b :: rest =>
      if Byte.eqb b "/"%byte then [] :: segments rest
      else
        match segments rest with
        | seg :: more => (b :: seg) :: more
        | [] => [[b]]
        end
  end.

Definition is_dot (seg : Path) : bool :=
  match seg with
  | [b] => Byte.eqb b "."%byte
  | _ => false
  end.

Definition is_dotdot (seg : Path) : bool :=
  match seg with
  | [b; c] => Byte.eqb b "."%byte && Byte.eqb c "."%byte
  | _ => false
  end.

(** The segments that stay, [kept] holding those before, last first: an
    empty segment and "." are dropped, ".." takes back the segment before
    it, and where there is none to take back it stays if the path is
    relative. *)
Fixpoint normalizeSegments (allowAboveRoot : bool) (kept segs : list Path)
    : list Path :=
  match segs with
  | [] => rev kept
  | seg :: rest =>
      match seg with
      | [] => normalizeSegments allowAboveRoot kept rest
      | _ =>
          if is_dot seg then normalizeSegments allowAboveRoot kept rest
          else if is_dotdot seg then
            match kept with
            | top :: below =>
                if is_dotdot top
                then normalizeSegments allowAboveRoot
                       (if allowAboveRoot then seg :: kept else kept) rest
                else normalizeSegments allowAboveRoot below rest
            | [] =>
                normalizeSegments allowAboveRoot
                  (if allowAboveRoot then [seg] else []) rest
            end
          else normalizeSegments allowAboveRoot (seg :: kept) rest
      end
  end.

Fixpoint joined (segs : list Path) : Path :=
  match segs with
  | [] => []
  | [seg] => seg
  | seg :: rest => seg ++ "/"%byte :: joined rest
  end.

Definition starts_with_slash (p : Path) : bool :=
  match p with
  | b :: _ => Byte.eqb b "/"%byte
  | [] => false
  end.

Definition ends_with_slash (p : Path) : bool := starts_with_slash (rev p).

(** [path.normalize(p)] of Node's POSIX [path] module. *)
Definition normalize (p : Path) : Path :=
  match p with
  | [] => ["."%byte]
  | _ =>
      let isAbsolute := starts_with_slash p in
      let trailingSeparator := ends_with_slash p in
      match joined (normalizeSegments (negb isAbsolute) [] (segments p)) with
      | [] =>
          if isAbsolute then ["/"%byte]
          else if trailingSeparator then ["."%byte; "/"%byte]
          else ["."%byte]
      | body =>
          (if isAbsolute then ["/"%byte] else []) ++ body ++
          (if trailingSeparator then ["/"%byte] else [])
      end
  end.

(** [path.join(dir, name)] of Node's POSIX [path] module: the arguments
    that are not empty, joined by a slash and normalised. *)
Definition path_join (dir name : Path) : Path :=
  match dir, name with
  | [], [] => ["."%byte]
  | [], _ => normalize name
  | _, [] => normalize dir
  | _, _ => normalize (dir ++ "/"%byte :: name)
  end.

Record Meta := { meta_lastInsertId : option Z; meta_autoIncrement : option Z }.

Inductive Cause :=
| InvalidBinlog
| InvalidBinlogVersion
| IoError (errno : Z).

(** The events emitted on the tailer: ['log'], ['query'], ['stop'],
    ['rotate'] and ['error'].  The [db] and [query] of a ['query'] are the
    bytes of the two slices the source hands to [toString('utf-8')]; what
    is emitted is their decoding. *)
Inductive Notification :=
| Log (ts : Z) (file : Path)
| Query (ts : Z) (db query : Buffer) (meta : option Meta)
| Stop (ts : Z)
| Rotate (next : Path)
| Error (cause : Cause).

(** Exceptions nobody catches. *)
Inductive Exn :=
| NoBytesWanted        (* new Error('No bytes wanted?') *)
| TypeError            (* a property of undefined *)
| RangeError.          (* new Buffer(n) for an n below 0 *)

Inductive Effect :=
| Emit (n : Notification)         (* that.emit(...) *)
| FsStat (file : Path)
| FsOpen (file : Path)
| FsWatch (file : Path)           (* fs.watchFile(file, listener) *)
| FsUnwatch (file : Path)
| FsClose
| FsRead (bytes position : Z).    (* fs.read(handle, new Buffer(bytes), 0, bytes, position, cb) *)

(* ------------------------------------------------------------------ *)
(** ** The session: the variables [stream] closes over *)

(** The callbacks handed to [read], one constructor per function
    expression of the source.  [cbQueryBody] closes over [ts]. *)
Inductive Callback :=
| cbHeader
| cbFirstEvent
| cbEvent
| cbQueryBody (ts : Z)
| cbAutoInt
| cbRotateBody.

(** The request whose completion the event loop owes the session. *)
Inductive Pending := PNone | PStat | POpen | PRead.

Record Session := {
  that_path : Path;                    (* that.path *)
  file : Path;
  fastForward : bool;
  fastForwardUntil : option Z;
  lastInsertId : option Z;
  autoIncrement : option Z;
  stat : option Z;                     (* stat.size *)
  handle : bool;                       (* a descriptor has been stored *)
  didReadCallback : option Callback;
  bytesWanted : Z;                     (* undefined counts as 0 *)
  fileOffset : Z;
  ready : bool;
  (* what Node holds for the session *)
  watching : bool;                     (* the listener on [file] *)
  closed : bool;                       (* fs.close has been called *)
  pending : Pending;
  waitingFor : option Path             (* the listener on the next file *)
}.

Definition set_fastForwardUntil v (s : Session) : Session :=
  {| that_path := that_path s; file := file s; fastForward := fastForward s;
     fastForwardUntil := v; lastInsertId := lastInsertId s;
     autoIncrement := autoIncrement s; stat := stat s; handle := handle s;
     didReadCallback := didReadCallback s; bytesWanted := bytesWanted s;
     fileOffset := fileOffset s; ready := ready s; watching := watching s;
     closed := closed s; pending := pending s; waitingFor := waitingFor s |}.

Definition set_lastInsertId v (s : Session) : Session :=
  {| that_path := that_path s; file := file s; fastForward := fastForward s;
     fastForwardUntil := fastForwardUntil s; lastInsertId := v;
     autoIncrement := autoIncrement s; stat := stat s; handle := handle s;
     didReadCallback := didReadCallback s; bytesWanted := bytesWanted s;
     fileOffset := fileOffset s; ready := ready s; watching := watching s;
     closed := closed s; pending := pending s; waitingFor := waitingFor s |}.

Definition set_autoIncrement v (s : Session) : Session :=
  {| that_path := that_path s; file := file s; fastForward := fastForward s;
     fastForwardUntil := fastForwardUntil s; lastInsertId := lastInsertId s;
     autoIncrement := v; stat := stat s; handle := handle s;
     didReadCallback := didReadCallback s; bytesWanted := bytesWanted s;
     fileOffset := fileOffset s; ready := ready s; watching := watching s;
     closed := closed s; pending := pending s; waitingFor := waitingFor s |}.

Definition set_stat v (s : Session) : Session :=
  {| that_path := that_path s; file := file s; fastForward := fastForward s;
     fastForwardUntil := fastForwardUntil s; lastInsertId := lastInsertId s;
     autoIncrement := autoIncrement s; stat := v; handle := handle s;
     didReadCallback := didReadCallback s; bytesWanted := bytesWanted s;
     fileOffset := fileOffset s; ready := ready s; watching := watching s;
     closed := closed s; pending := pending s; waitingFor := waitingFor s |}.

Definition set_handle v (s : Session) : Session :=
  {| that_path := that_path s; file := file s; fastForward := fastForward s;
     fastForwardUntil := fastForwardUntil s; lastInsertId := lastInsertId s;
     autoIncrement := autoIncrement s; stat := stat s; handle := v;
     didReadCallback := didReadCallback s; bytesWanted := bytesWanted s;
     fileOffset := fileOffset s; ready := ready s; watching := watching s;
     closed := closed s; pending := pending s; waitingFor := waitingFor s |}.

Definition set_didReadCallback v (s : Session) : Session :=
  {| that_path := that_path s; file := file s; fastForward := fastForward s;
     fastForwardUntil := fastForwardUntil s; lastInsertId := lastInsertId s;
     autoIncrement := autoIncrement s; stat := stat s; handle := handle s;
     didReadCallback := v; bytesWanted := bytesWanted s;
     fileOffset := fileOffset s; ready := ready s; watching := watching s;
     closed := closed s; pending := pending s; waitingFor := waitingFor s |}.

Definition set_bytesWanted v (s : Session) : Session :=
  {| that_path := that_path s; file := file s; fastForward := fastForward s;
     fastForwardUntil := fastForwardUntil s; lastInsertId := lastInsertId s;
     autoIncrement := autoIncrement s; stat := stat s; handle := handle s;
     didReadCallback := didReadCallback s; bytesWanted := v;
     fileOffset := fileOffset s; ready := ready s; watching := watching s;
     closed := closed s; pending := pending s; waitingFor := waitingFor s |}.

Definition set_fileOffset v (s : Session) : Session :=
  {| that_path := that_path s; file := file s; fastForward := fastForward s;
     fastForwardUntil := fastForwardUntil s; lastInsertId := lastInsertId s;
     autoIncrement := autoIncrement s; stat := stat s; handle := handle s;
     didReadCallback := didReadCallback s; bytesWanted := bytesWanted s;
     fileOffset := v; ready := ready s; watching := watching s;
     closed := closed s; pending := pending s; waitingFor := waitingFor s |}.

Definition set_ready v (s : Session) : Session :=
  {| that_path := that_path s; file := file s; fastForward := fastForward s;
     fastForwardUntil := fastForwardUntil s; lastInsertId := lastInsertId s;
     autoIncrement := autoIncrement s; stat := stat s; handle := handle s;
     didReadCallback := didReadCallback s; bytesWanted := bytesWanted s;
     fileOffset := fileOffset s; ready := v; watching := watching s;
     closed := closed s; pending := pending s; waitingFor := waitingFor s |}.

Definition set_watching v (s : Session) : Session :=
  {| that_path := that_path s; file := file s; fastForward := fastForward s;
     fastForwardUntil := fastForwardUntil s; lastInsertId := lastInsertId s;
     autoIncrement := autoIncrement s; stat := stat s; handle := handle s;
     didReadCallback := didReadCallback s; bytesWanted := bytesWanted s;
     fileOffset := fileOffset s; ready := ready s; watching := v;
     closed := closed s; pending := pending s; waitingFor := waitingFor s |}.

Definition set_closed v (s : Session) : Session :=
  {| that_path := that_path s; file := file s; fastForward := fastForward s;
     fastForwardUntil := fastForwardUntil s; lastInsertId := lastInsertId s;
     autoIncrement := autoIncrement s; stat := stat s; handle := handle s;
     didReadCallback := didReadCallback s; bytesWanted := bytesWanted s;
     fileOffset := fileOffset s; ready := ready s; watching := watching s;
     closed := v; pending := pending s; waitingFor := waitingFor s |}.

Definition set_pending v (s : Session) : Session :=
  {| that_path := that_path s; file := file s; fastForward := fastForward s;
     fastForwardUntil := fastForwardUntil s; lastInsertId := lastInsertId s;
     autoIncrement := autoIncrement s; stat := stat s; handle := handle s;
     didReadCallback := didReadCallback s; bytesWanted := bytesWanted s;
     fileOffset := fileOffset s; ready := ready s; watching := watching s;
     closed := closed s; pending := v; waitingFor := waitingFor s |}.

Definition set_waitingFor v (s : Session) : Session :=
  {| that_path := that_path s; file := file s; fastForward := fastForward s;
     fastForwardUntil := fastForwardUntil s; lastInsertId := lastInsertId s;
     autoIncrement := autoIncrement s; stat := stat s; handle := handle s;
     didReadCallback := didReadCallback s; bytesWanted := bytesWanted s;
     fileOffset := fileOffset s; ready := ready s; watching := watching s;
     closed := closed s; pending := pending s; waitingFor := v |}.

(* ------------------------------------------------------------------ *)
(** ** One turn of the event loop, as a computation

    A turn reads and writes the session, leaves effects behind in the order
    it performs them and either returns or throws.  What it wrote and did
    before a throw stays. *)

Inductive Outcome (A : Type) :=
| Returned (a : A)
| Thrown (e : Exn).
Arguments Returned {A} a.
Arguments Thrown {A} e.

Record Turn (A : Type) := {
  outcome : Outcome A;
  after : Session;
  effects : list Effect
}.

Arguments outcome {A} t.
Arguments after {A} t.
Arguments effects {A} t.

Definition M (A : Type) := Session -> Turn A.

Definition ret {A} (a : A) : M A :=
  fun s => {| outcome := Returned a; after := s; effects := [] |}.

Definition bind {A B} (m : M A) (k : A -> M B) : M B :=
  fun s =>
    match m s with
    | {| outcome := Thrown e; after := s'; effects := es |} =>
        {| outcome := Thrown e; after := s'; effects := es |}
    | {| outcome := Returned a; after := s'; effects := es |} =>
        match k a s' with
        | {| outcome := o; after := s''; effects := es' |} =>
            {| outcome := o; after := s''; effects := es ++ es' |}
        end
    end.

Definition throw {A} (e : Exn) : M A :=
  fun s => {| outcome := Thrown e; after := s; effects := [] |}.

Definition get {A} (f : Session -> A) : M A :=
  fun s => {| outcome := Returned (f s); after := s; effects := [] |}.

Definition modify (f : Session -> Session) : M unit :=
  fun s => {| outcome := Returned tt; after := f s; effects := [] |}.

Definition perform (e : Effect) : M unit :=
  fun s => {| outcome := Returned tt; after := s; effects := [e] |}.

Declare Scope turn_scope.
Delimit Scope turn_scope with turn.
Notation "x <- m ;; k" := (bind m (fun x => k))
  (at level 61, m at next level, right associativity) : turn_scope.
Notation "m ;; k" := (bind m (fun _ => k))
  (at level 61, right associativity) : turn_scope.
Local Open Scope turn_scope.

Definition emit (n : Notification) : M unit := perform (Emit n).

(* ------------------------------------------------------------------ *)
(** ** File handling functions *)

Definition len (buffer : Buffer) : Z := Z.of_nat (length buffer).

(** Read a chunk. *)
Definition readChunk : M unit :=
  isReady <- get ready ;;
  if negb isReady then ret tt                      (* not ready to read *)
  else
    wanted <- get bytesWanted ;;
    if wanted =? 0 then throw NoBytesWanted        (* !bytesWanted *)
    else
      known <- get stat ;;
      match known with
      | None => throw TypeError                    (* stat is undefined *)
      | Some size =>
          offset <- get fileOffset ;;
          if size <? offset + wanted then ret tt   (* still waiting on data *)
          else
            modify (set_ready false) ;;
            if wanted <? 0 then throw RangeError   (* new Buffer(bytesWanted) *)
            else
              perform (FsRead wanted offset) ;;
              modify (set_pending PRead)
      end.

(** Requests a chunk of a certain size. *)
Definition read (bytes : Z) (cb : Callback) : M unit :=
  modify (set_bytesWanted bytes) ;;
  modify (set_didReadCallback (Some cb)) ;;
  readChunk.

(** Skips forward in the file; only affects the next [read]. *)
Definition skip (offset : Z) : M unit :=
  modify (fun s => set_fileOffset (fileOffset s + offset) s).

(** Terminates all access to this file. *)
Definition stop : M unit :=
  f <- get file ;;
  perform (FsUnwatch f) ;;
  modify (set_watching false) ;;
  perform FsClose ;;
  modify (set_closed true) ;;
  modify (set_ready false).

(* ------------------------------------------------------------------ *)
(** ** Binlog parsers *)

Definition expectEvent : M unit := read 19 cbEvent.

Definition expectFirstEvent : M unit := read 19 cbFirstEvent.

Definition expectHeader : M unit := read 4 cbHeader.

(** [fastForwardUntil > fileOffset]; false while the threshold is
    undefined. *)
Definition fastForwarding (s : Session) : bool :=
  match fastForwardUntil s with
  | Some limit => fileOffset s <? limit
  | None => false
  end.

Definition parseQueryEvent (buffer : Buffer) : M unit :=
  let ts := readTimestamp buffer 0 in
  let eventLength := readInt buffer 9 in
  skipping <- get fastForwarding ;;
  if skipping then
    skip (eventLength - len buffer) ;;
    expectEvent
  else
    read (eventLength - len buffer) (cbQueryBody ts).

Definition parseAutoInt (buffer : Buffer) : M unit := read 9 cbAutoInt.

Definition parseRotateEvent (buffer : Buffer) : M unit :=
  let eventLength := readInt buffer 9 in
  read (eventLength - len buffer) cbRotateBody.

Definition parseStopEvent (buffer : Buffer) : M unit :=
  let ts := readTimestamp buffer 0 in
  emit (Stop ts).

(** The function [expectHeader] passes to [read]. *)
Definition onHeader (buffer : Buffer) : M unit :=
  if (at_ buffer 0 =? 254) && (at_ buffer 1 =? 98) &&
     (at_ buffer 2 =? 105) && (at_ buffer 3 =? 110)
  then expectFirstEvent
  else stop ;; emit (Error InvalidBinlog).

(** The function [expectFirstEvent] passes to [read]. *)
Definition onFirstEvent (buffer : Buffer) : M unit :=
  let ts := readTimestamp buffer 0 in
  if at_ buffer 4 =? 15 then
    skip (readInt buffer 9 - 19) ;;
    f <- get file ;;
    emit (Log ts f) ;;
    expectEvent
  else stop ;; emit (Error InvalidBinlogVersion).

(** The function [expectEvent] passes to [read]: the [switch]. *)
Definition onEvent (buffer : Buffer) : M unit :=
  let code := at_ buffer 4 in
  if code =? 2 then parseQueryEvent buffer
  else if code =? 3 then parseStopEvent buffer
  else if code =? 4 then parseRotateEvent buffer
  else if code =? 5 then parseAutoInt buffer
  else skip (readInt buffer 9 - 19).

(** A value that passes [if (v)]: defined and not 0. *)
Definition truthy (v : option Z) : bool :=
  match v with
  | Some x => negb (x =? 0)
  | None => false
  end.

(** [buffer.slice(13 + statusLen, 13 + statusLen + nameLen)] and
    [buffer.slice(14 + nameLen + statusLen)] of a query event's body. *)
Definition queryDb (buffer : Buffer) : Buffer :=
  let nameLen := index buffer 8 in
  let statusLen := readSmallint buffer 11 in
  slice buffer (jsadd (Some 13) statusLen)
        (jsadd (jsadd (Some 13) statusLen) nameLen).

Definition queryText (buffer : Buffer) : Buffer :=
  let nameLen := index buffer 8 in
  let statusLen := readSmallint buffer 11 in
  slice_from buffer (jsadd (jsadd (Some 14) nameLen) statusLen).

(** The function [parseQueryEvent] passes to [read]. *)
Definition onQueryBody (ts : Z) (buffer : Buffer) : M unit :=
  li <- get lastInsertId ;;
  ai <- get autoIncrement ;;
  meta <- (if truthy li || truthy ai then
             modify (set_autoIncrement None) ;;
             modify (set_lastInsertId None) ;;
             ret (Some {| meta_lastInsertId := li; meta_autoIncrement := ai |})
           else ret None) ;;
  let db := queryDb buffer in
  let query := queryText buffer in
  emit (Query ts db query meta) ;;
  expectEvent.

(** The function [parseAutoInt] passes to [read]. *)
Definition onAutoInt (buffer : Buffer) : M unit :=
  (if at_ buffer 0 =? 1 then modify (set_lastInsertId (Some (readInt buffer 1)))
   else if at_ buffer 0 =? 2 then modify (set_autoIncrement (Some (readInt buffer 1)))
   else ret tt) ;;
  expectEvent.

(** The function [parseRotateEvent] passes to [read].  It ends by
    registering a listener on the next file; [step] runs that listener.
    The name is joined as the bytes of the slice, which is what
    [toString('utf-8')] gives back for a name that is [plain_text]. *)
Definition onRotateBody (buffer : Buffer) : M unit :=
  stop ;;
  dir <- get that_path ;;
  let next := path_join dir (slice_from buffer (Some 8)) in
  emit (Rotate next) ;;
  perform (FsWatch next) ;;
  modify (set_waitingFor (Some next)).

(** [didReadCallback(buffer)]. *)
Definition call (cb : option Callback) (buffer : Buffer) : M unit :=
  match cb with
  | None => throw TypeError
  | Some cbHeader => onHeader buffer
  | Some cbFirstEvent => onFirstEvent buffer
  | Some cbEvent => onEvent buffer
  | Some (cbQueryBody ts) => onQueryBody ts buffer
  | Some cbAutoInt => onAutoInt buffer
  | Some cbRotateBody => onRotateBody buffer
  end.

(* ------------------------------------------------------------------ *)
(** ** The callbacks Node invokes *)

Inductive IoResult (A : Type) :=
| Failed (errno : Z)
| Done (a : A).
Arguments Failed {A} errno.
Arguments Done {A} a.

(** [this.emit('error', err)] inside the function passed to [fs.read].
    Unlike the function passed to [fs.readFile] it is not bound, the file
    is in strict mode and Node calls it without a receiver: [this] is
    undefined, and reading its [emit] throws.  Nothing reaches the
    tailer. *)
Definition this_emit (n : Notification) : M unit := throw TypeError.

(** The function passed to [fs.stat]. *)
Definition onStat (r : IoResult Z) : M unit :=
  match r with
  | Failed errno => emit (Error (IoError errno))
  | Done size =>
      modify (set_stat (Some size)) ;;
      ff <- get fastForward ;;
      (if ff then modify (set_fastForwardUntil (Some size)) else ret tt) ;;
      f <- get file ;;
      perform (FsOpen f) ;;
      modify (set_pending POpen)
  end.

(** The function passed to [fs.open]. *)
Definition onOpen (r : IoResult unit) : M unit :=
  match r with
  | Failed errno => emit (Error (IoError errno))
  | Done _ =>
      modify (set_handle true) ;;
      modify (set_ready true) ;;
      readChunk ;;
      f <- get file ;;
      perform (FsWatch f) ;;
      modify (set_watching true)
  end.

(** The listener passed to [fs.watchFile(file, ...)]. *)
Definition onChange (size : Z) : M unit :=
  modify (set_stat (Some size)) ;;
  readChunk.

(** The function passed to [fs.read]. *)
Definition onRead (r : IoResult Buffer) : M unit :=
  match r with
  | Failed errno =>
      stop ;;
      this_emit (Error (IoError errno))
  | Done buffer =>
      modify (fun s => set_fileOffset (fileOffset s + bytesWanted s) s) ;;
      modify (set_bytesWanted 0) ;;
      modify (set_ready true) ;;
      cb <- get didReadCallback ;;
      call cb buffer
  end.

(** [stream(file, fastForward)]: the variables as their declarations leave
    them, the call of [fs.stat], and [expectHeader()] at the end. *)
Definition fresh (dir file : Path) (fastForward : bool) : Session :=
  {| that_path := dir; file := file; fastForward := fastForward;
     fastForwardUntil := None; lastInsertId := None; autoIncrement := None;
     stat := None; handle := false; didReadCallback := None;
     bytesWanted := 0; fileOffset := 0; ready := false;
     watching := false; closed := false; pending := PNone;
     waitingFor := None |}.

Definition stream (dir file : Path) (fastForward : bool) : Turn unit :=
  (perform (FsStat file) ;;
   modify (set_pending PStat) ;;
   expectHeader) (fresh dir file fastForward).

(** The listener passed to [fs.watchFile(next, ...)]: a new call of
    [stream], without its second argument.  The closure of the old call is
    left behind; it was stopped before the listener was registered. *)
Definition onNextFile (next : Path) : M unit :=
  perform (FsUnwatch next) ;;
  (fun old => stream (that_path old) next false).

(* ------------------------------------------------------------------ *)
(** ** The event loop *)

(** What Node can deliver to the tailer. *)
Inductive Input :=
| StatDone (r : IoResult Z)
| OpenDone (r : IoResult unit)
| FileChanged (size : Z)
| ReadDone (r : IoResult Buffer)
| NextFileChanged.

Definition is_pending (p : Pending) (s : Session) : bool :=
  match p, pending s with
  | PNone, PNone | PStat, PStat | POpen, POpen | PRead, PRead => true
  | _, _ => false
  end.

(** One turn.  [None]: Node has no such callback to invoke in this state
    (no request of that kind is outstanding, no listener is registered).
    A read completes into the buffer that was allocated for it, of
    [bytesWanted] bytes. *)
Definition step (i : Input) (s : Session) : option (Turn unit) :=
  match i with
  | StatDone r =>
      if is_pending PStat s then Some (onStat r (set_pending PNone s)) else None
  | OpenDone r =>
      if is_pending POpen s then Some (onOpen r (set_pending PNone s)) else None
  | FileChanged size =>
      if watching s then Some (onChange size s) else None
  | ReadDone r =>
      if is_pending PRead s &&
         match r with Done buffer => len buffer =? bytesWanted s | Failed _ => true end
      then Some (onRead r (set_pending PNone s)) else None
  | NextFileChanged =>
      match waitingFor s with
      | Some next => Some (onNextFile next s)
      | None => None
      end
  end.

(** A run: the session now, everything done so far in order, and the
    exceptions that escaped. *)
Record Run := {
  now : Session;
  done : list Effect;
  escaped : list Exn
}.

Definition start (dir file : Path) (fastForward : bool) : Run :=
  let t := stream dir file fastForward in
  {| now := after t; done := effects t; escaped := [] |}.

Definition deliver (i : Input) (r : Run) : option Run :=
  match step i (now r) with
  | None => None
  | Some t =>
      Some {| now := after t;
              done := done r ++ effects t;
              escaped := escaped r ++
                         match outcome t with Thrown e => [e] | Returned _ => [] end |}
  end.

Fixpoint run (inputs : list Input) (r : Run) : option Run :=
  match inputs with
  | [] => Some r
  | i :: rest =>
      match deliver i r with
      | Some r' => run rest r'
      | None => None
      end
  end.

(** The notifications among some effects, in order. *)
Fixpoint notifications (es : list Effect) : list Notification :=
  match es with
  | [] => []
  | Emit n :: rest => n :: notifications rest
  | _ :: rest => notifications rest
  end.

Definition published (r : Run) : list Notification := notifications (done r).

(** The physical reads among some effects. *)
Fixpoint reads (es : list Effect) : list (Z * Z) :=
  match es with
  | [] => []
  | FsRead n position :: rest => (n, position) :: reads rest
  | _ :: rest => reads rest
  end.

(* ------------------------------------------------------------------ *)
(** ** A file system that answers

    [answer content s] is the completion of the request the session has
    outstanding when the file holds [content]: its size, a descriptor, or
    the bytes at the requested position.  [serve] answers until the session
    asks for nothing more. *)

Definition answer (content : Buffer) (s : Session) : option Input :=
  match pending s with
  | PNone => None
  | PStat => Some (StatDone (Done (len content)))
  | POpen => Some (OpenDone (Done tt))
  | PRead =>
      Some (ReadDone (Done (firstn (Z.to_nat (bytesWanted s))
                                   (skipn (Z.to_nat (fileOffset s)) content))))
  end.

Fixpoint serve (fuel : nat) (content : Buffer) (r : Run) : Run :=
  match fuel with
  | O => r
  | S fuel' =>
      match answer content (now r) with
      | None => r
      | Some i =>
          match deliver i r with
          | Some r' => serve fuel' content r'
          | None => r
          end
      end
  end.

(** Every request costs one answer, and every read but the first three
    requests takes at least one byte of the file. *)
Definition enough (content : Buffer) : nat := length content + 3.

(** The file is complete when the session starts. *)
Definition decode (dir file : Path) (fastForward : bool) (content : Buffer) : Run :=
  serve (enough content) content (start dir file fastForward).

(** The file holds [before] when the session starts and is later extended
    to [before ++ appended]; the listener is told once. *)
Definition decode_appended (dir file : Path) (fastForward : bool)
    (before appended : Buffer) : option Run :=
  let r := decode dir file fastForward before in
  match deliver (FileChanged (len (before ++ appended))) r with
  | Some r' => Some (serve (enough (before ++ appended)) (before ++ appended) r')
  | None => None
  end.

(** The file is complete and ends with a rotate event; the next file
    holds [next] when the listener on it fires. *)
Definition decode_rotated (dir file : Path) (fastForward : bool)
    (content next : Buffer) : option Run :=
  let r := decode dir file fastForward content in
  match deliver NextFileChanged r with
  | Some r' => Some (serve (enough next) next r')
  | None => None
  end.

(* ------------------------------------------------------------------ *)
(** ** Test vectors: the layout the parsers read, written out *)

Module Wire.

Definition byte_of (z : Z) : byte :=
  match Byte.of_N (Z.to_N (z mod 256)) with
  | Some b => b
  | None => x00
  end.

Definition bytes (l : list Z) : Buffer := map byte_of l.

Definition le16 (v : Z) : Buffer := bytes [v; v / 256].

Definition le32 (v : Z) : Buffer := bytes [v; v / 256; v / 65536; v / 16777216].

Definition text (s : String.string) : Buffer := String.list_byte_of_string s.

Definition magic : Buffer := bytes [254; 98; 105; 110].

(** timestamp, type code, server id, event length, next position, flags *)
Definition header (ts code eventLength : Z) : Buffer :=
  le32 ts ++ bytes [code] ++ le32 1 ++ le32 eventLength ++ le32 0 ++ le16 0.

Definition event (ts code : Z) (body : Buffer) : Buffer :=
  header ts code (19 + len body) ++ body.

(** thread id, execution time, schema length, error code, status
    variables length, status variables, schema, a zero byte, the text *)
Definition queryBody (statusVars db query : Buffer) : Buffer :=
  le32 7 ++ le32 0 ++ bytes [len db] ++ le16 0 ++ le16 (len statusVars) ++
  statusVars ++ db ++ bytes [0] ++ query.

(** selector, then the value on 8 bytes *)
Definition intvarBody (selector value : Z) : Buffer :=
  bytes [selector] ++ le32 value ++ le32 0.

(** position on 8 bytes, then the name of the next file *)
Definition rotateBody (name : Buffer) : Buffer := le32 4 ++ le32 0 ++ name.

(** binlog version, server version, creation time, header length *)
Definition formatDescription (ts : Z) : Buffer :=
  event ts 15 (le16 4 ++ repeat x00 50 ++ le32 ts ++ bytes [19]).

End Wire.

(* ------------------------------------------------------------------ *)
(** ** Concrete logs *)

Module Vectors.
Import Wire.

Definition dir : Path := text "/var/lib/mysql"%string.
Definition log1 : Path := path_join dir (text "bin.000001"%string).

Definition fde : Buffer := formatDescription 99.

Definition insert1 : Buffer := text "INSERT INTO t VALUES (1)"%string.
Definition insert2 : Buffer := text "INSERT INTO t VALUES (2)"%string.
Definition app : Buffer := text "app"%string.

Definition queryA : Buffer := event 101 2 (queryBody [] app insert1).
Definition queryB : Buffer := event 102 2 (queryBody [] app insert2).

(** The first [n] bytes of an event are its header when [n] is 19. *)
Definition headerOf (e : Buffer) : Buffer := firstn 19 e.
Definition bodyOf (e : Buffer) : Buffer := skipn 19 e.

(** An auto-increment hint, a query below the size the file has when the
    session starts, and a query appended afterwards. *)
Definition hint42 : Buffer := event 100 5 (intvarBody 2 42).
Definition old : Buffer := magic ++ fde ++ hint42 ++ queryA.
Definition grown : Buffer := old ++ queryB.

(** A hint whose value is 0, then a query. *)
Definition hintZero : Buffer := event 100 5 (intvarBody 1 0).
Definition zeroLog : Buffer := magic ++ fde ++ hintZero ++ queryA.

(** A hint whose value is 0, a hint for the other variable, then a
    query. *)
Definition hint7 : Buffer := event 100 5 (intvarBody 2 7).
Definition zeroAndSevenLog : Buffer := magic ++ fde ++ hintZero ++ hint7 ++ queryA.

(** An event of a type the switch has no case for (16, a transaction
    commit, with its 8 bytes), then a query. *)
Definition xid : Buffer := event 100 16 (le32 5 ++ le32 0).
Definition xidLog : Buffer := magic ++ fde ++ xid ++ queryA.

(** A query and an event of type 16 below the size the file has when the
    session starts; a query is appended afterwards. *)
Definition xidOld : Buffer := magic ++ fde ++ queryA ++ xid.

(** The same without the event of type 16. *)
Definition plainOld : Buffer := magic ++ fde ++ queryA.

(** A stop event; a query is appended afterwards. *)
Definition stopEvent : Buffer := event 101 3 [].
Definition stopLog : Buffer := magic ++ fde ++ stopEvent.

(** A file caught while the format-description event is being written:
    the magic bytes and the 19 bytes of the header. *)
Definition partialLog : Buffer := firstn 23 (magic ++ fde).

(** A header of type 16 that declares a length of 0. *)
Definition emptyEvent : Buffer := header 100 16 0.
Definition shortLog : Buffer := magic ++ fde ++ emptyEvent.

(** A log that ends with a rotate event, a well-formed next file, and a
    next file that does not start with the magic bytes. *)
Definition name2 : Path := text "bin.000002"%string.
Definition log2 : Path := path_join dir name2.
Definition rotateEvent : Buffer := event 103 4 (rotateBody name2).
Definition rotatingLog : Buffer := magic ++ fde ++ queryA ++ rotateEvent.
Definition nextLog : Buffer := magic ++ formatDescription 199 ++ queryB.
Definition notALog : Buffer := text "not a binlog"%string.

(** The name of the second log as [mysqld] writes it into its index. *)
Definition dotName2 : Path := text "./bin.000002"%string.

(** A query event with a body of five bytes. *)
Definition shortQuery : Buffer := event 104 2 (text "hello"%string).
Definition shortQueryLog : Buffer := magic ++ fde ++ shortQuery.

(** The header of a query event that declares a length of 10. *)
Definition tinyQuery : Buffer := header 105 2 10.
Definition tinyLog : Buffer := magic ++ fde ++ tinyQuery.
End Vectors.

(* ------------------------------------------------------------------ *)
(** ** Notions the statements are written in *)

(** The variables the parsers read and write, apart from the cursor's
    [stat], [ready] and what Node holds. *)
Definition parser (s : Session) :=
  (lastInsertId s, autoIncrement s, didReadCallback s, bytesWanted s,
   fileOffset s, fastForwardUntil s, (that_path s, file s, fastForward s),
   waitingFor s).

(** The session as the completion of a read leaves it, before the
    callback runs. *)
Definition completed (s : Session) : Session :=
  set_ready true
    (set_bytesWanted 0
       (set_fileOffset (fileOffset s + bytesWanted s) (set_pending PNone s))).

(** What [if (lastInsertId || autoIncrement)] decides, and the [meta] a
    query is emitted with. *)
Definition carrySet (s : Session) : bool :=
  truthy (lastInsertId s) || truthy (autoIncrement s).

Definition carried (s : Session) : option Meta :=
  if carrySet s
  then Some {| meta_lastInsertId := lastInsertId s;
               meta_autoIncrement := autoIncrement s |}
  else None.

(** Inputs that are file changes or headers of query events that take the
    fast-forward branch. *)
Fixpoint skipped_only (inputs : list Input) (r : Run) : Prop :=
  match inputs with
  | [] => True
  | i :: rest =>
      match i with
      | FileChanged _ => True
      | ReadDone (Done header) =>
          didReadCallback (now r) = Some cbEvent /\
          at_ header 4 = 2 /\
          fastForwarding (completed (now r)) = true
      | _ => False
      end /\
      match deliver i r with
      | Some r' => skipped_only rest r'
      | None => True
      end
  end.

(** The run a delivery leads to, for use at concrete inputs. *)
Definition or_else (o : option Run) (r : Run) : Run :=
  match o with
  | Some r' => r'
  | None => r
  end.

(** Every query among the notifications was published without [meta]. *)
Definition no_meta (ns : list Notification) : Prop :=
  forall ts db text meta, In (Query ts db text meta) ns -> meta = None.

(** No body of an auto-increment event is among the inputs. *)
Fixpoint no_hint (inputs : list Input) (r : Run) : Prop :=
  match inputs with
  | [] => True
  | i :: rest =>
      (forall buffer, i = ReadDone (Done buffer) ->
                      didReadCallback (now r) <> Some cbAutoInt) /\
      match deliver i r with
      | Some r' => no_hint rest r'
      | None => True
      end
  end.

(** The session is ready, wants no bytes and waits for no completion: the
    state the branch "No bytes wanted?" of [readChunk] is about. *)
Definition stalled (s : Session) : Prop :=
  ready s = true /\ bytesWanted s = 0 /\ pending s = PNone /\ waitingFor s = None.

(** The file is only appended to: a change never reports a smaller size. *)
Definition grows (s : Session) (i : Input) : Prop :=
  match i, stat s with
  | FileChanged size, Some known => known <= size
  | _, _ => True
  end.

(** A header that declares at least its own 19 bytes. *)
Definition plausible (s : Session) (i : Input) : Prop :=
  match i, didReadCallback s with
  | ReadDone (Done buffer), Some cbFirstEvent
  | ReadDone (Done buffer), Some cbEvent => 19 <= readInt buffer 9
  | _, _ => True
  end.

(** The states of one session: no turn starts another [stream]. *)
Inductive reachable (s0 : Session) : Session -> Prop :=
| reach_start : reachable s0 s0
| reach_step (s : Session) (i : Input) (t : Turn unit) :
    reachable s0 s ->
    i <> NextFileChanged ->
    grows s i ->
    step i s = Some t ->
    reachable s0 (after t).

(** The count a callback is registered with where the source fixes it:
    [read(4, ...)], [read(19, ...)] and [read(9, ...)].  The callbacks
    that take the body of a query or rotate event are registered with what
    the header declares. *)
Definition chunk_size (cb : Callback) : option Z :=
  match cb with
  | cbHeader => Some 4
  | cbFirstEvent | cbEvent => Some 19
  | cbAutoInt => Some 9
  | cbQueryBody _ | cbRotateBody => None
  end.

(** What holds of the cursor in every state of a session: the callback
    and the count it waits for belong together, and a read in flight was
    asked for a count other than 0 that fits the known size. *)
Definition cursor_ok (s : Session) : Prop :=
  (forall cb n,
      didReadCallback s = Some cb -> chunk_size cb = Some n ->
      bytesWanted s = n \/ bytesWanted s = 0) /\
  (pending s = PRead ->
   bytesWanted s <> 0 /\
   exists size, stat s = Some size /\ fileOffset s + bytesWanted s <= size).

(** Inputs that stay within one session of an append-only file. *)
Fixpoint single_session (inputs : list Input) (r : Run) : Prop :=
  match inputs with
  | [] => True
  | i :: rest =>
      i <> NextFileChanged /\
      grows (now r) i /\
      match deliver i r with
      | Some r' => single_session rest r'
      | None => True
      end
  end.

(** The turn an input leads to, for use at concrete inputs. *)
Definition turn_of (o : option (Turn unit)) (s : Session) : Turn unit :=
  match o with
  | Some t => t
  | None => ret tt s
  end.

(** A session started without [fastForward], its threshold undefined. *)
Definition no_threshold (s : Session) : Prop :=
  fastForward s = false /\ fastForwardUntil s = None.

(** A session over [next] that has published nothing yet: it awaits the
    magic bytes or the first header. *)
Definition opening (next : Path) (s : Session) : Prop :=
  file s = next /\ waitingFor s = None /\
  (didReadCallback s = Some cbHeader \/ didReadCallback s = Some cbFirstEvent).

(** Notifications that start with ['log'] for [next] or with
    ['error']. *)
Definition opens_with (next : Path) (ns : list Notification) : Prop :=
  (exists ts rest, ns = Log ts next :: rest) \/
  (exists cause rest, ns = Error cause :: rest).

(* ------------------------------------------------------------------ *)
(** ** Logs of query and auto-increment events *)

(** The events after which the decoder goes on, as they lie in a file. *)
Inductive Event :=
| QueryEvent (ts : Z) (body : Buffer)
| HintEvent (ts : Z) (body : Buffer).

Definition encode (e : Event) : Buffer :=
  match e with
  | QueryEvent ts body => Wire.event ts 2 body
  | HintEvent ts body => Wire.event ts 5 body
  end.

(** A file: the magic bytes, a format description event and the events. *)
Definition binlog (ts : Z) (description : Buffer) (events : list Event) : Buffer :=
  Wire.magic ++ Wire.event ts 15 description ++ concat (map encode events).

(** A value that fits the four bytes of a header field. *)
Definition word (v : Z) : Prop := 0 <= v < 4294967296.

Definition well_formed (e : Event) : Prop :=
  match e with
  | QueryEvent ts body => word ts /\ 0 < len body /\ word (19 + len body)
  | HintEvent ts body => word ts /\ len body = 9
  end.

(** Whether the query event at [position] takes the fast-forward branch
    under the threshold [limit]: the test is made when its header has been
    read. *)
Definition skipping (limit : option Z) (position : Z) : bool :=
  match limit with
  | Some l => position + 19 <? l
  | None => false
  end.

(** What the events from [position] on are published as, and the carry
    they leave, starting from the carry [li], [ai]. *)
Fixpoint decoded (limit : option Z) (position : Z) (li ai : option Z)
    (events : list Event) : list Notification :=
  match events with
  | [] => []
  | QueryEvent ts body :: rest =>
      let next := position + 19 + len body in
      if skipping limit position then decoded limit next li ai rest
      else if truthy li || truthy ai then
        Query (ts * 1000) (queryDb body) (queryText body)
          (Some {| meta_lastInsertId := li; meta_autoIncrement := ai |})
        :: decoded limit next None None rest
      else
        Query (ts * 1000) (queryDb body) (queryText body) None
        :: decoded limit next li ai rest
  | HintEvent ts body :: rest =>
      let next := position + 19 + len body in
      if at_ body 0 =? 1 then decoded limit next (Some (readInt body 1)) ai rest
      else if at_ body 0 =? 2 then decoded limit next li (Some (readInt body 1)) rest
      else decoded limit next li ai rest
  end.

Fixpoint left_over (limit : option Z) (position : Z) (li ai : option Z)
    (events : list Event) : option Z * option Z :=
  match events with
  | [] => (li, ai)
  | QueryEvent ts body :: rest =>
      let next := position + 19 + len body in
      if skipping limit position then left_over limit next li ai rest
      else if truthy li || truthy ai then left_over limit next None None rest
      else left_over limit next li ai rest
  | HintEvent ts body :: rest =>
      let next := position + 19 + len body in
      if at_ body 0 =? 1 then left_over limit next (Some (readInt body 1)) ai rest
      else if at_ body 0 =? 2 then left_over limit next li (Some (readInt body 1)) rest
      else left_over limit next li ai rest
  end.

(** The same without a threshold: one ['query'] per query event, in file
    order, with the carry the hints before it left. *)
Fixpoint expected (li ai : option Z) (events : list Event) : list Notification :=
  match events with
  | [] => []
  | QueryEvent ts body :: rest =>
      if truthy li || truthy ai then
        Query (ts * 1000) (queryDb body) (queryText body)
          (Some {| meta_lastInsertId := li; meta_autoIncrement := ai |})
        :: expected None None rest
      else
        Query (ts * 1000) (queryDb body) (queryText body) None
        :: expected li ai rest
  | HintEvent ts body :: rest =>
      if at_ body 0 =? 1 then expected (Some (readInt body 1)) ai rest
      else if at_ body 0 =? 2 then expected li (Some (readInt body 1)) rest
      else expected li ai rest
  end.

(** The carry the hints among the events leave when no query takes it. *)
Fixpoint hinted (li ai : option Z) (events : list Event) : option Z * option Z :=
  match events with
  | [] => (li, ai)
  | QueryEvent ts body :: rest => hinted li ai rest
  | HintEvent ts body :: rest =>
      if at_ body 0 =? 1 then hinted (Some (readInt body 1)) ai rest
      else if at_ body 0 =? 2 then hinted li (Some (readInt body 1)) rest
      else hinted li ai rest
  end.

(** A session that waits for a header under the threshold [limit]: the
    read is in flight when the file holds the 19 bytes, and deferred to the
    next change of the file when it does not. *)
Definition awaiting (limit : option Z) (size : Z) (s : Session) : Prop :=
  didReadCallback s = Some cbEvent /\ bytesWanted s = 19 /\
  stat s = Some size /\ fastForwardUntil s = limit /\ watching s = true /\
  ((fileOffset s + 19 <= size /\ pending s = PRead) \/
   (size < fileOffset s + 19 /\ pending s = PNone /\ ready s = true)).

(** Sample events: a hint followed by the query it belongs to, and a query
    written later. *)
Definition hintThenQuery : list Event :=
  [HintEvent 100 (Wire.intvarBody 2 42);
   QueryEvent 101 (Wire.queryBody [] Vectors.app Vectors.insert1)].

Definition laterQuery : list Event :=
  [QueryEvent 102 (Wire.queryBody [] Vectors.app Vectors.insert2)].

(* ------------------------------------------------------------------ *)
(** ** The constructor *)

(** [data.split('\n')]: the lines of the index, the last of them empty
    when the data ends with a newline. *)
Fixpoint split (data : Buffer) : list Path :=
  match data with
  | [] => [[]]
  | b :: rest =>
      if Byte.eqb b x0a then [] :: split rest
      else
        match split rest with
        | line :: lines => (b :: line) :: lines
        | [] => [[b]]
        end
  end.

(** [do { latest = index.pop(); } while (latest === '')], on the lines
    taken last first.  [None] is the [undefined] that [pop] gives on an
    array that has become empty; it ends the loop as well. *)
Fixpoint pop_latest (lines : list Path) : option Path :=
  match lines with
  | [] => None
  | [] :: rest => pop_latest rest
  | name :: _ => Some name
  end.

Definition latest (data : Buffer) : option Path := pop_latest (rev (split data)).

(** What the function passed to [fs.readFile] leaves: one of its two
    errors, or the session [this.stream] has started. *)
Inductive Tailer :=
| IndexError (errno : Z)
| NoBinlogs
| Tailing (r : Run).

(** The function passed to [fs.readFile], [this.path] being [dir]. *)
Definition onIndex (dir : Path) (r : IoResult Buffer) : Tailer :=
  match r with
  | Failed errno => IndexError errno
  | Done data =>
      match latest data with
      | None => NoBinlogs                      (* !latest *)
      | Some name => Tailing (start dir (path_join dir name) true)
      end
  end.

(* ------------------------------------------------------------------ *)
(** ** A file that arrives in pieces *)

(** The run after the listener on the file was told a new size. *)
Definition told (size : Z) (r : Run) : Run :=
  {| now := after (onChange size (now r));
     done := done r ++ effects (onChange size (now r));
     escaped := escaped r ++
                match outcome (onChange size (now r)) with
                | Thrown e => [e]
                | Returned _ => []
                end |}.

(** Two runs in the same state that have published the same. *)
Definition alike (r r' : Run) : Prop :=
  now r = now r' /\ published r = published r'.

(** A session of a file known to hold [size] bytes with at most one
    request outstanding, no read being issued while one is.  The file is
    opened for a read of some bytes, and a read that is outstanding lies
    within the size. *)
Definition sized (size : Z) (s : Session) : Prop :=
  stat s = Some size /\
  (pending s = PNone \/
   (pending s = POpen /\ 0 <= bytesWanted s \/
    pending s = PRead /\ fileOffset s + bytesWanted s <= size) /\
   ready s = false).

(** While a request is outstanding the session is not ready. *)
Definition busy_ok (s : Session) : Prop := pending s <> PNone -> ready s = false.

(** A log whose second event is a query header that declares the
    length 0. *)
Definition zeroLengthLog : Buffer :=
  Wire.magic ++ Vectors.fde ++ Wire.header 100 2 0 ++ Vectors.queryA.

(** A session that was stopped has no request outstanding and no
    listener on its file. *)
Definition stopped_ok (s : Session) : Prop :=
  closed s = true -> pending s = PNone /\ watching s = false /\ ready s = false.

(* ------------------------------------------------------------------ *)
(** ** How a turn treats the parser's variables *)

Lemma readChunk_cases (s : Session) :
  readChunk s = ret tt s \/
  readChunk s = throw NoBytesWanted s \/
  readChunk s = throw TypeError s \/
  (exists size, stat s = Some size /\ fileOffset s + bytesWanted s <= size /\
     ready s = true /\ bytesWanted s <> 0 /\
     readChunk s =
       {| outcome := Returned tt;
          after := set_pending PRead (set_ready false s);
          effects := [FsRead (bytesWanted s) (fileOffset s)] |}) \/
  (exists size, stat s = Some size /\ fileOffset s + bytesWanted s <= size /\
     ready s = true /\ bytesWanted s < 0 /\
     readChunk s = throw RangeError (set_ready false s)).
Proof.
  unfold readChunk, bind, get. cbn.
  destruct (ready s) eqn:Hr; cbn; [|now left].
  destruct (bytesWanted s =? 0) eqn:Hb; cbn; [now (right; left)|].
  destruct (stat s) as [size|] eqn:Hs; cbn; [|now (right; right; left)].
  destruct (size <? fileOffset s + bytesWanted s) eqn:Hlt; cbn; [now left|].
  apply Z.ltb_ge in Hlt. apply Z.eqb_neq in Hb.
  destruct (bytesWanted s <? 0) eqn:Hneg; cbn.
  - apply Z.ltb_lt in Hneg. right; right; right; right. exists size. auto.
  - right; right; right; left. exists size. auto.
Qed.

Lemma readChunk_parser (s : Session) :
  parser (after (readChunk s)) = parser s /\
  notifications (effects (readChunk s)) = [] /\
  stat (after (readChunk s)) = stat s /\
  watching (after (readChunk s)) = watching s /\
  closed (after (readChunk s)) = closed s.
Proof.
  destruct (readChunk_cases s)
    as [H|[H|[H|[(size & _ & _ & _ & _ & H)|(size & _ & _ & _ & _ & H)]]]];
    rewrite H; cbn; auto.
Qed.

Arguments readChunk : simpl never.
Arguments num : simpl never.
Arguments at_ : simpl never.
Arguments index : simpl never.
Arguments readInt : simpl never.
Arguments readSmallint : simpl never.
Arguments readTimestamp : simpl never.
Arguments slice : simpl never.
Arguments slice_from : simpl never.
Arguments queryDb : simpl never.
Arguments queryText : simpl never.
Arguments len : simpl never.
Arguments path_join : simpl never.

Lemma read_parser (n : Z) (cb : Callback) (s : Session) :
  parser (after (read n cb s)) =
    (lastInsertId s, autoIncrement s, Some cb, n, fileOffset s,
     fastForwardUntil s, (that_path s, file s, fastForward s), waitingFor s) /\
  notifications (effects (read n cb s)) = [] /\
  stat (after (read n cb s)) = stat s /\
  watching (after (read n cb s)) = watching s /\
  closed (after (read n cb s)) = closed s.
Proof.
  unfold read, bind, modify. cbn.
  destruct (readChunk_parser (set_didReadCallback (Some cb) (set_bytesWanted n s)))
    as (Hp & Hn & Hs & Hw & Hc).
  destruct (readChunk _) as [o s' es]. cbn in *.
  rewrite Hp, Hn, Hs, Hw, Hc. auto.
Qed.

Arguments read : simpl never.

Lemma onChange_parser (size : Z) (s : Session) :
  parser (after (onChange size s)) = parser s /\
  notifications (effects (onChange size s)) = [] /\
  watching (after (onChange size s)) = watching s /\
  closed (after (onChange size s)) = closed s.
Proof.
  unfold onChange, bind, modify. cbn.
  destruct (readChunk_parser (set_stat (Some size) s)) as (Hp & Hn & _ & Hw & Hc).
  destruct (readChunk _) as [o s' es]. cbn in *.
  rewrite Hp, Hn, Hw, Hc. auto.
Qed.

Arguments onChange : simpl never.

Lemma onRead_done (buffer : Buffer) (s : Session) :
  onRead (Done buffer) (set_pending PNone s) =
    call (didReadCallback s) buffer (completed s).
Proof.
  unfold onRead, bind, modify, get, completed. cbn.
  destruct (call (didReadCallback s) buffer _); reflexivity.
Qed.

Lemma step_read_done (buffer : Buffer) (s : Session) (t : Turn unit) :
  step (ReadDone (Done buffer)) s = Some t ->
  pending s = PRead /\ len buffer = bytesWanted s /\
  t = call (didReadCallback s) buffer (completed s).
Proof.
  unfold step, is_pending.
  destruct (pending s); cbn; try discriminate.
  destruct (len buffer =? bytesWanted s) eqn:E; try discriminate.
  intros H. injection H as <-. apply Z.eqb_eq in E.
  repeat split; auto. unfold completed. destruct (call _ _ _); reflexivity.
Qed.

Lemma notifications_app (a b : list Effect) :
  notifications (a ++ b) = notifications a ++ notifications b.
Proof.
  induction a as [|e a IH]; cbn; [reflexivity|].
  destruct e; cbn; rewrite IH; reflexivity.
Qed.

Lemma reads_app (a b : list Effect) : reads (a ++ b) = reads a ++ reads b.
Proof.
  induction a as [|e a IH]; cbn; [reflexivity|].
  destruct e; cbn; rewrite IH; reflexivity.
Qed.

Lemma run_app (a b : list Input) (r : Run) :
  run (a ++ b) r =
    match run a r with
    | Some r' => run b r'
    | None => None
    end.
Proof.
  revert r. induction a as [|i a IH]; intros r; cbn; [reflexivity|].
  destruct (deliver i r); auto.
Qed.

Lemma Some_inj (A : Type) (a b : A) : Some a = Some b -> a = b.
Proof. congruence. Qed.

Lemma deliver_some (i : Input) (r r' : Run) :
  deliver i r = Some r' ->
  exists t, step i (now r) = Some t /\
    now r' = after t /\
    done r' = done r ++ effects t /\
    published r' = published r ++ notifications (effects t) /\
    escaped r' = escaped r ++
                 match outcome t with Thrown e => [e] | Returned _ => [] end.
Proof.
  unfold deliver, published.
  destruct (step i (now r)) as [t|]; [|discriminate].
  intros H. apply Some_inj in H. subst r'. exists t. cbn.
  rewrite notifications_app. auto.
Qed.

Lemma step_changed (size : Z) (s : Session) (t : Turn unit) :
  step (FileChanged size) s = Some t ->
  watching s = true /\ t = onChange size s.
Proof.
  unfold step. destruct (watching s); [|discriminate].
  intros H. apply Some_inj in H. auto.
Qed.

(** File changes alone: the parser's variables stay, nothing is
    published. *)
Lemma idle_run (sizes : list Z) (r r' : Run) :
  run (map FileChanged sizes) r = Some r' ->
  parser (now r') = parser (now r) /\ published r' = published r.
Proof.
  revert r. induction sizes as [|size sizes IH]; intros r; cbn [run map].
  - intros H. apply Some_inj in H. subst. auto.
  - destruct (deliver (FileChanged size) r) as [r1|] eqn:Hd; [|discriminate].
    intros H. apply IH in H. destruct H as [Hp Hn].
    apply deliver_some in Hd. destruct Hd as (t & Hs & Hnow & _ & Hpub & _).
    apply step_changed in Hs. destruct Hs as [_ ->].
    destruct (onChange_parser size (now r)) as (Hp' & Hn' & _).
    rewrite Hp, Hnow, Hp', Hn, Hpub, Hn', app_nil_r. auto.
Qed.

Ltac use_read :=
  match goal with
  | |- context [read ?n ?cb ?x] =>
      let Hp := fresh "Hp" in
      let Hn := fresh "Hn" in
      destruct (read_parser n cb x) as (Hp & Hn & _);
      destruct (read n cb x) as [? ? ?]; cbn in Hp, Hn |- *;
      rewrite ?Hp, ?Hn
  end.

Lemma onQueryBody_parser (ts : Z) (buffer : Buffer) (s : Session) :
  parser (after (onQueryBody ts buffer s)) =
    (if carrySet s then None else lastInsertId s,
     if carrySet s then None else autoIncrement s,
     Some cbEvent, 19, fileOffset s, fastForwardUntil s,
     (that_path s, file s, fastForward s), waitingFor s) /\
  notifications (effects (onQueryBody ts buffer s)) =
    [Query ts (queryDb buffer) (queryText buffer) (carried s)].
Proof.
  unfold onQueryBody, carried, carrySet, expectEvent, bind, get, modify, emit, perform.
  cbn.
  destruct (truthy (lastInsertId s) || truthy (autoIncrement s)); cbn;
    use_read; auto.
Qed.

Lemma onAutoInt_parser (buffer : Buffer) (s : Session) :
  parser (after (onAutoInt buffer s)) =
    (if at_ buffer 0 =? 1 then Some (readInt buffer 1) else lastInsertId s,
     if at_ buffer 0 =? 1 then autoIncrement s
     else if at_ buffer 0 =? 2 then Some (readInt buffer 1) else autoIncrement s,
     Some cbEvent, 19, fileOffset s, fastForwardUntil s,
     (that_path s, file s, fastForward s), waitingFor s) /\
  notifications (effects (onAutoInt buffer s)) = [].
Proof.
  unfold onAutoInt, expectEvent, bind, get, modify, ret.
  destruct (at_ buffer 0 =? 1); [|destruct (at_ buffer 0 =? 2)]; cbn;
    use_read; auto.
Qed.

(** The switch, on a query header, in the fast-forward branch. *)
Lemma onEvent_query_skipped (buffer : Buffer) (s : Session) :
  at_ buffer 4 = 2 ->
  fastForwarding s = true ->
  parser (after (onEvent buffer s)) =
    (lastInsertId s, autoIncrement s, Some cbEvent, 19,
     fileOffset s + (readInt buffer 9 - len buffer), fastForwardUntil s,
     (that_path s, file s, fastForward s), waitingFor s) /\
  notifications (effects (onEvent buffer s)) = [] /\
  (forall n position, In (n, position) (reads (effects (onEvent buffer s))) -> n = 19).
Proof.
  intros Hc Hf.
  unfold onEvent, parseQueryEvent, expectEvent, skip, bind, get, modify.
  rewrite Hc. cbn. rewrite Hf. cbn.
  split; [|split].
  - use_read; auto.
  - use_read; auto.
  - intros n position. unfold read, bind, modify. cbn.
    match goal with
    | |- context [readChunk ?x] =>
        destruct (readChunk_cases x)
          as [H|[H|[H|[(size & _ & _ & _ & _ & H)|(size & _ & _ & _ & _ & H)]]]];
        rewrite H; cbn; try tauto
    end.
    intros [E|[]]. congruence.
Qed.

(** The switch, on a query header, past the fast-forward branch. *)
Lemma onEvent_query_wanted (buffer : Buffer) (s : Session) :
  at_ buffer 4 = 2 ->
  fastForwarding s = false ->
  parser (after (onEvent buffer s)) =
    (lastInsertId s, autoIncrement s,
     Some (cbQueryBody (readTimestamp buffer 0)), readInt buffer 9 - len buffer,
     fileOffset s, fastForwardUntil s,
     (that_path s, file s, fastForward s), waitingFor s) /\
  notifications (effects (onEvent buffer s)) = [].
Proof.
  intros Hc Hf.
  unfold onEvent, parseQueryEvent, bind, get.
  rewrite Hc. cbn. rewrite Hf. cbn.
  use_read; auto.
Qed.

(* ------------------------------------------------------------------ *)
(** ** The auto-increment carry *)

Lemma deliver_buffer (buffer : Buffer) (r r' : Run) :
  deliver (ReadDone (Done buffer)) r = Some r' ->
  pending (now r) = PRead /\ len buffer = bytesWanted (now r) /\
  now r' = after (call (didReadCallback (now r)) buffer (completed (now r))) /\
  published r' =
    published r ++
    notifications (effects (call (didReadCallback (now r)) buffer (completed (now r)))).
Proof.
  intros H. apply deliver_some in H. destruct H as (t & Hs & Hnow & _ & Hpub & _).
  apply step_read_done in Hs. destruct Hs as (Hp & Hl & ->). auto.
Qed.

Ltac fields H :=
  unfold parser in H; cbn in H; injection H; clear H; intros.

Lemma skipped_run (inputs : list Input) (r r' : Run) :
  skipped_only inputs r ->
  run inputs r = Some r' ->
  lastInsertId (now r') = lastInsertId (now r) /\
  autoIncrement (now r') = autoIncrement (now r) /\
  fastForwardUntil (now r') = fastForwardUntil (now r) /\
  published r' = published r /\
  (didReadCallback (now r) = Some cbEvent ->
   didReadCallback (now r') = Some cbEvent).
Proof.
  revert r. induction inputs as [|i inputs IH]; intros r; cbn [run skipped_only].
  - intros _ H. apply Some_inj in H. subst. auto.
  - intros [Hi Hrest].
    destruct (deliver i r) as [r1|] eqn:Hd; [|discriminate].
    intros H. destruct (IH _ Hrest H) as (Hl & Ha & Hf & Hp & Hc). clear IH H Hrest.
    destruct i as [ | |size|[|header]| ]; try contradiction.
    + assert (Hrun : run (map FileChanged [size]) r = Some r1)
        by (cbn; rewrite Hd; reflexivity).
      apply idle_run in Hrun. destruct Hrun as [Hq Hpub].
      fields Hq. rewrite Hl, Ha, Hf, Hp, Hpub.
      repeat split; auto; intros; apply Hc; congruence.
    + destruct Hi as (Hcb & Hcode & Hff).
      apply deliver_buffer in Hd. destruct Hd as (_ & _ & Hnow & Hpub).
      rewrite Hcb in Hnow, Hpub. cbn [call] in Hnow, Hpub.
      destruct (onEvent_query_skipped header (completed (now r)) Hcode Hff)
        as (Hq & Hn & _).
      rewrite <- Hnow in Hq. rewrite Hn, app_nil_r in Hpub.
      fields Hq. rewrite Hl, Ha, Hf, Hp, Hpub.
      repeat split; auto; intros; apply Hc; congruence.
Qed.

(** A query event that is not skipped: its header, file changes while the
    body is awaited, its body. *)
Lemma query_published (r r' : Run) (header body : Buffer) (sizes : list Z) :
  didReadCallback (now r) = Some cbEvent ->
  at_ header 4 = 2 ->
  fastForwarding (completed (now r)) = false ->
  run (ReadDone (Done header) :: map FileChanged sizes ++ [ReadDone (Done body)]) r
    = Some r' ->
  published r' =
    published r ++
    [Query (readTimestamp header 0) (queryDb body) (queryText body) (carried (now r))] /\
  lastInsertId (now r') = (if carrySet (now r) then None else lastInsertId (now r)) /\
  autoIncrement (now r') = (if carrySet (now r) then None else autoIncrement (now r)) /\
  fastForwardUntil (now r') = fastForwardUntil (now r) /\
  didReadCallback (now r') = Some cbEvent.
Proof.
  intros Hcb Hcode Hff. cbn [run].
  destruct (deliver (ReadDone (Done header)) r) as [r1|] eqn:Hd1; [|discriminate].
  rewrite run_app.
  destruct (run (map FileChanged sizes) r1) as [r2|] eqn:Hidle; [|discriminate].
  cbn [run].
  destruct (deliver (ReadDone (Done body)) r2) as [r3|] eqn:Hd2; [|discriminate].
  intros H. apply Some_inj in H. subst r3.
  apply deliver_buffer in Hd1. destruct Hd1 as (_ & _ & Hnow1 & Hpub1).
  rewrite Hcb in Hnow1, Hpub1. cbn [call] in Hnow1, Hpub1.
  destruct (onEvent_query_wanted header (completed (now r)) Hcode Hff) as (Hq1 & Hn1).
  rewrite <- Hnow1 in Hq1. rewrite Hn1, app_nil_r in Hpub1.
  apply idle_run in Hidle. destruct Hidle as (Hq2 & Hpub2).
  rewrite Hq1 in Hq2.
  apply deliver_buffer in Hd2. destruct Hd2 as (_ & _ & Hnow3 & Hpub3).
  fields Hq2.
  match goal with
  | E : didReadCallback (now r2) = _ |- _ => rewrite E in Hnow3, Hpub3
  end.
  cbn [call] in Hnow3, Hpub3.
  destruct (onQueryBody_parser (readTimestamp header 0) body (completed (now r2)))
    as (Hq3 & Hn3).
  rewrite <- Hnow3 in Hq3. rewrite Hn3 in Hpub3.
  assert (Hset : carrySet (completed (now r2)) = carrySet (now r))
    by (unfold carrySet; cbn; congruence).
  assert (Hcar : carried (completed (now r2)) = carried (now r))
    by (unfold carried; rewrite Hset; destruct (carrySet (now r)); cbn; congruence).
  rewrite Hset in Hq3. rewrite Hcar in Hpub3.
  fields Hq3. rewrite Hpub3, Hpub2, Hpub1.
  destruct (carrySet (now r)); repeat split; congruence.
Qed.

(** The body of an auto-increment event. *)
Lemma hint_delivered (r r' : Run) (hint : Buffer) :
  didReadCallback (now r) = Some cbAutoInt ->
  deliver (ReadDone (Done hint)) r = Some r' ->
  lastInsertId (now r') =
    (if at_ hint 0 =? 1 then Some (readInt hint 1) else lastInsertId (now r)) /\
  autoIncrement (now r') =
    (if at_ hint 0 =? 1 then autoIncrement (now r)
     else if at_ hint 0 =? 2 then Some (readInt hint 1) else autoIncrement (now r)) /\
  fastForwardUntil (now r') = fastForwardUntil (now r) /\
  didReadCallback (now r') = Some cbEvent /\
  published r' = published r.
Proof.
  intros Hcb Hd.
  apply deliver_buffer in Hd. destruct Hd as (_ & _ & Hnow & Hpub).
  rewrite Hcb in Hnow, Hpub. cbn [call] in Hnow, Hpub.
  destruct (onAutoInt_parser hint (completed (now r))) as (Hq & Hn).
  rewrite <- Hnow in Hq. rewrite Hn, app_nil_r in Hpub.
  fields Hq. repeat split; assumption.
Qed.

(** C8, as amended.  When a query event takes the fast-forward branch,
    [lastInsertId] and [autoIncrement] are left as they were and nothing is
    published; so what the body of an auto-increment event left in them is
    still there, however many query events are skipped after it, when the
    first query event past the threshold arrives.  That query is published
    with both of them when one of them passes the test
    [lastInsertId || autoIncrement], that is when one of them holds a value
    other than 0, and without [meta] otherwise: a hint of 0 that stands
    alone is kept through the skipped queries and is not attached. *)
Theorem skipped_query_keeps_carry
    (r r1 r2 r3 : Run) (hint header body : Buffer)
    (between : list Input) (sizes : list Z) :
  didReadCallback (now r) = Some cbAutoInt ->
  deliver (ReadDone (Done hint)) r = Some r1 ->
  skipped_only between r1 ->
  run between r1 = Some r2 ->
  at_ header 4 = 2 ->
  fastForwarding (completed (now r2)) = false ->
  run (ReadDone (Done header) :: map FileChanged sizes ++ [ReadDone (Done body)]) r2
    = Some r3 ->
  lastInsertId (now r1) =
    (if at_ hint 0 =? 1 then Some (readInt hint 1) else lastInsertId (now r)) /\
  autoIncrement (now r1) =
    (if at_ hint 0 =? 1 then autoIncrement (now r)
     else if at_ hint 0 =? 2 then Some (readInt hint 1) else autoIncrement (now r)) /\
  lastInsertId (now r2) = lastInsertId (now r1) /\
  autoIncrement (now r2) = autoIncrement (now r1) /\
  published r2 = published r /\
  published r3 =
    published r ++
    [Query (readTimestamp header 0) (queryDb body) (queryText body)
       (if truthy (lastInsertId (now r1)) || truthy (autoIncrement (now r1))
        then Some {| meta_lastInsertId := lastInsertId (now r1);
                     meta_autoIncrement := autoIncrement (now r1) |}
        else None)].
Proof.
  intros Hcb Hhint Hskip Hrun Hcode Hff Hquery.
  destruct (hint_delivered _ _ _ Hcb Hhint) as (Hl & Ha & _ & Hcb1 & Hpub1).
  destruct (skipped_run _ _ _ Hskip Hrun) as (Hl2 & Ha2 & _ & Hpub2 & Hcb2).
  destruct (query_published _ _ _ _ _ (Hcb2 Hcb1) Hcode Hff Hquery) as (Hpub3 & _).
  repeat split; try assumption; try congruence.
  rewrite Hpub3, Hpub2, Hpub1. do 2 f_equal.
  unfold carried, carrySet. rewrite Hl2, Ha2. reflexivity.
Qed.

Lemma skipped_query_keeps_carry_witness :
  let r := serve 5 Vectors.old (start Vectors.dir Vectors.log1 true) in
  let r1 := serve 6 Vectors.old (start Vectors.dir Vectors.log1 true) in
  let between := [ReadDone (Done (Vectors.headerOf Vectors.queryA));
                  FileChanged (len Vectors.grown)] in
  let r2 := or_else (run between r1) r1 in
  let arrival := [ReadDone (Done (Vectors.headerOf Vectors.queryB));
                  ReadDone (Done (Vectors.bodyOf Vectors.queryB))] in
  let r3 := or_else (run arrival r2) r2 in
  published r2 = published r /\
  published r3 =
    published r ++
    [Query 102000 Vectors.app Vectors.insert2
       (Some {| meta_lastInsertId := None; meta_autoIncrement := Some 42 |})].
Proof.
  intros r r1 between r2 arrival r3.
  destruct (skipped_query_keeps_carry r r1 r2 r3
              (Vectors.bodyOf Vectors.hint42)
              (Vectors.headerOf Vectors.queryB) (Vectors.bodyOf Vectors.queryB)
              between [])
    as (_ & _ & _ & _ & H2 & H3).
  - vm_compute; reflexivity.
  - vm_compute; reflexivity.
  - vm_compute; repeat split; reflexivity.
  - vm_compute; reflexivity.
  - vm_compute; reflexivity.
  - vm_compute; reflexivity.
  - vm_compute; reflexivity.
  - split; [exact H2 | exact H3].
Defined.

(** C8, as stated, fails: under [fastForward] a hint sets last-insert-id
    to 0 below the threshold and the query behind it is skipped, which
    leaves the 0 where it is; the first query past the threshold is
    published without any carry. *)
Lemma skipped_zero_hint_not_attached :
  let r := decode Vectors.dir Vectors.log1 true Vectors.zeroLog in
  fastForwardUntil (now r) = Some (len Vectors.zeroLog) /\
  lastInsertId (now r) = Some 0 /\
  published r = [Log 99000 Vectors.log1] /\
  option_map published
    (decode_appended Vectors.dir Vectors.log1 true Vectors.zeroLog Vectors.queryB) =
    Some [Log 99000 Vectors.log1;
          Query 102000 Vectors.app Vectors.insert2 None].
Proof. vm_compute. repeat split; reflexivity. Qed.

Ltac chunk :=
  lazymatch goal with
  | |- context [readChunk ?x] =>
      let H := fresh "Hchunk" in
      let N := fresh "Hneg" in
      destruct (readChunk_cases x)
        as [H|[H|[H|[(? & ? & ? & ? & ? & H)|(? & ? & ? & ? & N & H)]]]];
      [ | | | | try (exfalso; cbn in N; lia) ];
      rewrite H; cbn
  end.

Ltac run_turn :=
  unfold call, onHeader, onFirstEvent, onEvent, onQueryBody, onAutoInt,
    onRotateBody, parseQueryEvent, parseStopEvent, parseRotateEvent,
    parseAutoInt, expectEvent, expectFirstEvent, expectHeader, stop, skip,
    read, emit, this_emit, bind, get, modify, perform, ret, throw;
  cbn.

Ltac no_query :=
  let Hin := fresh "Hin" in
  intros ? ? ? ? Hin; cbn in Hin;
  repeat (destruct Hin as [Hin|Hin]; [try discriminate|]);
  try contradiction.

Lemma call_spent (cb : option Callback) (buffer : Buffer) (s : Session) :
  cb <> Some cbAutoInt ->
  carrySet s = false ->
  carrySet (after (call cb buffer s)) = false /\
  no_meta (notifications (effects (call cb buffer s))).
Proof.
  intros Hcb Hs. unfold no_meta, carrySet in *.
  destruct cb as [[| | |ts| |]|]; try congruence; run_turn.
  - destruct (_ && _); cbn; [chunk|]; (split; [assumption | no_query]).
  - destruct (_ =? 15); cbn; [chunk|]; (split; [assumption | no_query]).
  - destruct (_ =? 2); [destruct (fastForwarding s)|]; cbn.
    + chunk; (split; [assumption | no_query]).
    + chunk; (split; [assumption | no_query]).
    + destruct (_ =? 3); [|destruct (_ =? 4); [|destruct (_ =? 5)]]; cbn;
        try chunk; (split; [assumption | no_query]).
  - rewrite Hs. cbn. chunk; (split; [assumption | no_query; congruence]).
  - split; [assumption | no_query].
  - split; [assumption | no_query].
Qed.

Ltac run_callback :=
  unfold onStat, onOpen, onChange, onRead, onNextFile, stream, fresh;
  run_turn.

Lemma step_spent (i : Input) (s : Session) (t : Turn unit) :
  step i s = Some t ->
  (forall buffer, i = ReadDone (Done buffer) -> didReadCallback s <> Some cbAutoInt) ->
  carrySet s = false ->
  carrySet (after t) = false /\ no_meta (notifications (effects t)).
Proof.
  intros Hstep Hhint Hs.
  destruct i as [[errno|size]|[errno|[]]|size|[errno|buffer]|].
  - unfold step in Hstep. destruct (is_pending PStat s); [|discriminate].
    apply Some_inj in Hstep. subst t. unfold no_meta, carrySet in *. run_callback.
    split; [assumption | no_query].
  - unfold step in Hstep. destruct (is_pending PStat s); [|discriminate].
    apply Some_inj in Hstep. subst t. unfold no_meta, carrySet in *. run_callback.
    destruct (fastForward s); cbn; (split; [assumption | no_query]).
  - unfold step in Hstep. destruct (is_pending POpen s); [|discriminate].
    apply Some_inj in Hstep. subst t. unfold no_meta, carrySet in *. run_callback.
    split; [assumption | no_query].
  - unfold step in Hstep. destruct (is_pending POpen s); [|discriminate].
    apply Some_inj in Hstep. subst t. unfold no_meta, carrySet in *. run_callback.
    chunk; (split; [assumption | no_query]).
  - apply step_changed in Hstep. destruct Hstep as [_ ->].
    unfold no_meta, carrySet in *. run_callback.
    chunk; (split; [assumption | no_query]).
  - unfold step in Hstep. destruct (is_pending PRead s && true); [|discriminate].
    apply Some_inj in Hstep. subst t. unfold no_meta, carrySet in *. run_callback.
    split; [assumption | no_query].
  - apply step_read_done in Hstep. destruct Hstep as (_ & _ & ->).
    apply call_spent; [exact (Hhint buffer eq_refl) | exact Hs].
  - unfold step in Hstep. destruct (waitingFor s) as [next|]; [|discriminate].
    apply Some_inj in Hstep. subst t. unfold no_meta, carrySet in *. run_callback.
    split; [reflexivity | no_query].
Qed.

Lemma no_meta_app (a b : list Notification) :
  no_meta a -> no_meta b -> no_meta (a ++ b).
Proof.
  unfold no_meta. intros Ha Hb ts db text meta Hin.
  apply in_app_or in Hin. destruct Hin; eauto.
Qed.

Lemma run_spent (inputs : list Input) (r r' : Run) :
  no_hint inputs r ->
  carrySet (now r) = false ->
  run inputs r = Some r' ->
  exists more, published r' = published r ++ more /\ no_meta more.
Proof.
  revert r. induction inputs as [|i inputs IH]; intros r; cbn [run no_hint].
  - intros _ _ H. apply Some_inj in H. subst. exists []. rewrite app_nil_r.
    split; [reflexivity | intros ? ? ? ? []].
  - intros [Hi Hrest] Hs.
    destruct (deliver i r) as [r1|] eqn:Hd; [|discriminate].
    intros H.
    apply deliver_some in Hd. destruct Hd as (t & Hstep & Hnow & _ & Hpub & _).
    destruct (step_spent _ _ _ Hstep Hi Hs) as [Hs1 Hn1].
    rewrite <- Hnow in Hs1.
    destruct (IH _ Hrest Hs1 H) as (more & Hmore & Hnone).
    exists (notifications (effects t) ++ more). split.
    + rewrite Hmore, Hpub, app_assoc. reflexivity.
    + apply no_meta_app; assumption.
Qed.

Lemma truthy_nonzero (v : Z) : v <> 0 -> truthy (Some v) = true.
Proof. intros H. cbn. apply Z.eqb_neq in H. rewrite H. reflexivity. Qed.

(** C3, as amended.  The body of an auto-increment event with selector 1
    or 2 and a value other than 0 arrives, and the next event is a query
    that is published: the query's [meta] is present, holds the value under
    the selector's name and, under the other name, what that variable held
    before (nothing, when no other hint was pending).  No query published
    afterwards has a [meta] until the body of another auto-increment event
    arrives. *)
Theorem hint_carried_once
    (r r1 r2 r3 : Run) (hint header body : Buffer)
    (sizes1 sizes2 : list Z) (later : list Input) :
  didReadCallback (now r) = Some cbAutoInt ->
  at_ hint 0 = 1 \/ at_ hint 0 = 2 ->
  readInt hint 1 <> 0 ->
  run (ReadDone (Done hint) :: map FileChanged sizes1) r = Some r1 ->
  at_ header 4 = 2 ->
  fastForwarding (completed (now r1)) = false ->
  run (ReadDone (Done header) :: map FileChanged sizes2 ++ [ReadDone (Done body)]) r1
    = Some r2 ->
  no_hint later r2 ->
  run later r2 = Some r3 ->
  exists meta more,
    published r2 =
      published r ++
      [Query (readTimestamp header 0) (queryDb body) (queryText body) (Some meta)] /\
    (at_ hint 0 = 1 ->
     meta = {| meta_lastInsertId := Some (readInt hint 1);
               meta_autoIncrement := autoIncrement (now r) |}) /\
    (at_ hint 0 = 2 ->
     meta = {| meta_lastInsertId := lastInsertId (now r);
               meta_autoIncrement := Some (readInt hint 1) |}) /\
    published r3 = published r2 ++ more /\
    no_meta more.
Proof.
  intros Hcb Hsel Hval Hhint Hcode Hff Hquery Hlater Hrun.
  cbn [run] in Hhint.
  destruct (deliver (ReadDone (Done hint)) r) as [r0|] eqn:Hd; [|discriminate].
  destruct (hint_delivered _ _ _ Hcb Hd) as (Hl & Ha & _ & Hcb0 & Hpub0).
  apply idle_run in Hhint. destruct Hhint as [Hq Hpub1]. fields Hq.
  assert (Hcb1 : didReadCallback (now r1) = Some cbEvent) by congruence.
  assert (Hset : carrySet (now r1) = true).
  { unfold carrySet.
    replace (lastInsertId (now r1)) with (lastInsertId (now r0)) by congruence.
    replace (autoIncrement (now r1)) with (autoIncrement (now r0)) by congruence.
    rewrite Hl, Ha.
    destruct Hsel as [E|E]; rewrite E; cbn -[truthy];
      rewrite (truthy_nonzero _ Hval); auto using orb_true_r. }
  destruct (query_published _ _ _ _ _ Hcb1 Hcode Hff Hquery) as (Hpub2 & Hl2 & Ha2 & _).
  rewrite Hset in Hl2, Ha2.
  assert (Hspent : carrySet (now r2) = false)
    by (unfold carrySet; rewrite Hl2, Ha2; reflexivity).
  destruct (run_spent _ _ _ Hlater Hspent Hrun) as (more & Hmore & Hnone).
  exists {| meta_lastInsertId := lastInsertId (now r1);
            meta_autoIncrement := autoIncrement (now r1) |}, more.
  unfold carried in Hpub2. rewrite Hset in Hpub2.
  repeat split; try assumption.
  - rewrite Hpub2. congruence.
  - intros E.
    replace (lastInsertId (now r1)) with (lastInsertId (now r0)) by congruence.
    replace (autoIncrement (now r1)) with (autoIncrement (now r0)) by congruence.
    rewrite Hl, Ha, E. reflexivity.
  - intros E.
    replace (lastInsertId (now r1)) with (lastInsertId (now r0)) by congruence.
    replace (autoIncrement (now r1)) with (autoIncrement (now r0)) by congruence.
    rewrite Hl, Ha, E. reflexivity.
Qed.

Lemma hint_carried_once_witness :
  let whole := Vectors.grown in
  let r := serve 5 whole (start Vectors.dir Vectors.log1 false) in
  let r2 := serve 8 whole (start Vectors.dir Vectors.log1 false) in
  let r3 := serve 10 whole (start Vectors.dir Vectors.log1 false) in
  published r2 =
    published r ++
    [Query 101000 Vectors.app Vectors.insert1
       (Some {| meta_lastInsertId := None; meta_autoIncrement := Some 42 |})] /\
  published r3 = published r2 ++ [Query 102000 Vectors.app Vectors.insert2 None].
Proof.
  intros whole r r2 r3.
  destruct (hint_carried_once r (serve 6 whole (start Vectors.dir Vectors.log1 false))
              r2 r3
              (Vectors.bodyOf Vectors.hint42)
              (Vectors.headerOf Vectors.queryA) (Vectors.bodyOf Vectors.queryA)
              [] []
              [ReadDone (Done (Vectors.headerOf Vectors.queryB));
               ReadDone (Done (Vectors.bodyOf Vectors.queryB))])
    as (meta & more & H2 & _ & Hmeta & H3 & _).
  - vm_compute; reflexivity.
  - right. vm_compute; reflexivity.
  - vm_compute; discriminate.
  - vm_compute; reflexivity.
  - vm_compute; reflexivity.
  - vm_compute; reflexivity.
  - vm_compute; reflexivity.
  - vm_compute; repeat split; discriminate.
  - vm_compute; reflexivity.
  - rewrite (Hmeta eq_refl) in H2. split; [exact H2|].
    vm_compute. reflexivity.
Defined.

(** C3, as stated, fails: a hint that sets last-insert-id to 0 is
    immediately followed by a published query, and the query is published
    without any carry. *)
Lemma hint_zero_not_carried :
  published (decode Vectors.dir Vectors.log1 false Vectors.zeroLog) =
    [Log 99000 Vectors.log1;
     Query 101000 Vectors.app Vectors.insert1 None].
Proof. vm_compute. reflexivity. Qed.

(** C9, as amended.  The body of an auto-increment event whose value is 0
    leaves 0 in its variable, which does not pass the test on its own.  A
    query is published with a [meta] exactly when [lastInsertId] or
    [autoIncrement] holds a value other than 0 at that time; the [meta]
    then holds both variables as they are (a 0 included) and both are
    cleared; without a [meta] neither is touched. *)
Theorem carry_attached_iff_set :
  (forall (r r' : Run) (hint : Buffer),
      didReadCallback (now r) = Some cbAutoInt ->
      readInt hint 1 = 0 ->
      deliver (ReadDone (Done hint)) r = Some r' ->
      (at_ hint 0 = 1 ->
       lastInsertId (now r') = Some 0 /\
       carrySet (now r') = truthy (autoIncrement (now r))) /\
      (at_ hint 0 = 2 ->
       autoIncrement (now r') = Some 0 /\
       carrySet (now r') = truthy (lastInsertId (now r)))) /\
  (forall (r r' : Run) (ts : Z) (body : Buffer),
      didReadCallback (now r) = Some (cbQueryBody ts) ->
      deliver (ReadDone (Done body)) r = Some r' ->
      exists meta,
        published r' =
          published r ++ [Query ts (queryDb body) (queryText body) meta] /\
        (meta <> None <->
         truthy (lastInsertId (now r)) = true \/ truthy (autoIncrement (now r)) = true) /\
        (meta <> None ->
         meta = Some {| meta_lastInsertId := lastInsertId (now r);
                        meta_autoIncrement := autoIncrement (now r) |} /\
         lastInsertId (now r') = None /\ autoIncrement (now r') = None) /\
        (meta = None ->
         lastInsertId (now r') = lastInsertId (now r) /\
         autoIncrement (now r') = autoIncrement (now r))).
Proof.
  split.
  - intros r r' hint Hcb Hval Hd.
    destruct (hint_delivered _ _ _ Hcb Hd) as (Hl & Ha & _).
    unfold carrySet. rewrite Hl, Ha, Hval.
    split; intros E; rewrite E; cbn; auto using orb_false_r.
  - intros r r' ts body Hcb Hd.
    apply deliver_buffer in Hd. destruct Hd as (_ & _ & Hnow & Hpub).
    rewrite Hcb in Hnow, Hpub. cbn [call] in Hnow, Hpub.
    destruct (onQueryBody_parser ts body (completed (now r))) as (Hq & Hn).
    rewrite <- Hnow in Hq. rewrite Hn in Hpub. fields Hq.
    exists (carried (completed (now r))). split; [exact Hpub|].
    unfold carried, carrySet in *. cbn in *.
    destruct (truthy (lastInsertId (now r))), (truthy (autoIncrement (now r)));
      cbn in *; repeat split; intros; try congruence; try tauto; auto;
      match goal with
      | H : false = true \/ false = true |- _ => destruct H; discriminate
      end.
Qed.

Lemma carry_attached_iff_set_witness :
  let start0 := start Vectors.dir Vectors.log1 false in
  (lastInsertId (now (serve 6 Vectors.zeroLog start0)) = Some 0 /\
   carrySet (now (serve 6 Vectors.zeroLog start0)) = false) /\
  published (serve 10 Vectors.zeroAndSevenLog start0) =
    published (serve 9 Vectors.zeroAndSevenLog start0) ++
    [Query 101000 Vectors.app Vectors.insert1
       (Some {| meta_lastInsertId := Some 0; meta_autoIncrement := Some 7 |})].
Proof.
  intros start0.
  destruct carry_attached_iff_set as [Hhint Hquery]. split.
  - destruct (Hhint (serve 5 Vectors.zeroLog start0) (serve 6 Vectors.zeroLog start0)
                (Vectors.bodyOf Vectors.hintZero)) as [H1 _].
    + vm_compute; reflexivity.
    + vm_compute; reflexivity.
    + vm_compute; reflexivity.
    + destruct H1 as [Hl Hs]; [vm_compute; reflexivity|].
      split; [exact Hl | rewrite Hs; vm_compute; reflexivity].
  - destruct (Hquery (serve 9 Vectors.zeroAndSevenLog start0)
                (serve 10 Vectors.zeroAndSevenLog start0)
                101000 (Vectors.bodyOf Vectors.queryA))
      as (meta & Hpub & Hiff & Hsome & _).
    + vm_compute; reflexivity.
    + vm_compute; reflexivity.
    + destruct Hsome as (Hmeta & _).
      * apply Hiff. right. vm_compute; reflexivity.
      * rewrite Hmeta in Hpub. exact Hpub.
Defined.

(** C9, as stated, fails: a hint sets last-insert-id to 0, a second hint
    sets auto-increment to 7, and the query published next carries the 0
    along with the 7. *)
Lemma hint_zero_carried_along :
  published (decode Vectors.dir Vectors.log1 false Vectors.zeroAndSevenLog) =
    [Log 99000 Vectors.log1;
     Query 101000 Vectors.app Vectors.insert1
       (Some {| meta_lastInsertId := Some 0; meta_autoIncrement := Some 7 |})].
Proof. vm_compute. reflexivity. Qed.

(* ------------------------------------------------------------------ *)
(** ** Events after which nothing is read *)

Lemma stalled_step (i : Input) (s : Session) (t : Turn unit) :
  stalled s ->
  step i s = Some t ->
  (exists size, i = FileChanged size) /\
  outcome t = Thrown NoBytesWanted /\
  stalled (after t) /\
  effects t = [] /\
  parser (after t) = parser s /\
  watching (after t) = watching s /\
  closed (after t) = closed s.
Proof.
  intros (Hr & Hb & Hp & Hw) Hstep.
  destruct i as [r|r|size|r|]; unfold step, is_pending in Hstep;
    rewrite ?Hp, ?Hw in Hstep; cbn in Hstep; try discriminate.
  destruct (watching s) eqn:Hwatch; [|discriminate].
  apply Some_inj in Hstep. subst t.
  unfold stalled, onChange, readChunk, bind, get, modify, throw. cbn.
  rewrite Hr. cbn. rewrite Hb. cbn.
  repeat split; eauto.
Qed.

Lemma stalled_run (inputs : list Input) (r r' : Run) :
  stalled (now r) ->
  run inputs r = Some r' ->
  stalled (now r') /\
  done r' = done r /\
  parser (now r') = parser (now r) /\
  watching (now r') = watching (now r) /\
  closed (now r') = closed (now r) /\
  escaped r' = escaped r ++ repeat NoBytesWanted (length inputs).
Proof.
  revert r. induction inputs as [|i inputs IH]; intros r Hs; cbn [run].
  - intros H. apply Some_inj in H. subst. cbn. rewrite app_nil_r.
    split; [assumption | repeat split; auto].
  - destruct (deliver i r) as [r1|] eqn:Hd; [|discriminate].
    intros H.
    apply deliver_some in Hd. destruct Hd as (t & Hstep & Hnow & Hdone & _ & Hesc).
    destruct (stalled_step _ _ _ Hs Hstep) as (_ & Hout & Hs1 & Heff & Hq & Hw & Hc).
    rewrite <- Hnow in Hs1, Hq, Hw, Hc.
    destruct (IH _ Hs1 H) as (Hs' & Hdone' & Hq' & Hw' & Hc' & Hesc').
    rewrite Hout in Hesc. rewrite Heff, app_nil_r in Hdone.
    split; [assumption | repeat split; try congruence].
    rewrite Hesc', Hesc, <- app_assoc. reflexivity.
Qed.

(** The switch on a stop event and on an event it has no case for: no
    [read] follows. *)
Lemma onEvent_stop (buffer : Buffer) (s : Session) :
  at_ buffer 4 = 3 ->
  onEvent buffer s =
    {| outcome := Returned tt; after := s;
       effects := [Emit (Stop (readTimestamp buffer 0))] |}.
Proof. intros H. unfold onEvent. rewrite H. reflexivity. Qed.

Lemma onEvent_default (buffer : Buffer) (s : Session) :
  at_ buffer 4 <> 2 -> at_ buffer 4 <> 3 -> at_ buffer 4 <> 4 -> at_ buffer 4 <> 5 ->
  onEvent buffer s =
    {| outcome := Returned tt;
       after := set_fileOffset (fileOffset s + (readInt buffer 9 - 19)) s;
       effects := [] |}.
Proof.
  intros H2 H3 H4 H5. unfold onEvent.
  apply Z.eqb_neq in H2, H3, H4, H5. rewrite H2, H3, H4, H5. reflexivity.
Qed.

Lemma stalled_after_event (r r' : Run) (header : Buffer) :
  didReadCallback (now r) = Some cbEvent ->
  waitingFor (now r) = None ->
  at_ header 4 <> 2 -> at_ header 4 <> 4 -> at_ header 4 <> 5 ->
  deliver (ReadDone (Done header)) r = Some r' ->
  stalled (now r') /\
  watching (now r') = watching (now r) /\
  closed (now r') = closed (now r) /\
  escaped r' = escaped r /\
  reads (done r') = reads (done r) /\
  published r' =
    published r ++
    (if at_ header 4 =? 3 then [Stop (readTimestamp header 0)] else []) /\
  fileOffset (now r') =
    fileOffset (now r) + bytesWanted (now r) +
    (if at_ header 4 =? 3 then 0 else readInt header 9 - 19).
Proof.
  intros Hcb Hw H2 H4 H5 Hd.
  apply deliver_some in Hd. destruct Hd as (t & Hstep & Hnow & Hdone & Hpub & Hesc).
  apply step_read_done in Hstep. destruct Hstep as (_ & _ & ->).
  rewrite Hcb in *. cbn [call] in *.
  destruct (Z.eq_dec (at_ header 4) 3) as [E|E].
  - rewrite (onEvent_stop _ _ E) in *. cbn in *.
    rewrite Hnow, Hdone, Hpub, Hesc, reads_app, E. cbn.
    rewrite !app_nil_r, Z.add_0_r. unfold stalled. cbn. auto 10.
  - rewrite (onEvent_default _ _ H2 E H4 H5) in *. cbn in *.
    apply Z.eqb_neq in E.
    rewrite Hnow, Hdone, Hpub, Hesc, E. cbn.
    rewrite !app_nil_r. unfold stalled. cbn. auto 10.
Qed.

(** C10 on the code.  After a stop event, or an event of a type the
    switch has no case for, the session is ready and wants no bytes while
    the listener on its file is still registered; the next file change
    reaches the branch "No bytes wanted?" of [readChunk], which throws.
    The branch is reachable. *)
Theorem no_bytes_wanted_is_reached (r r1 : Run) (header : Buffer) (size : Z) :
  didReadCallback (now r) = Some cbEvent ->
  waitingFor (now r) = None ->
  watching (now r) = true ->
  at_ header 4 <> 2 -> at_ header 4 <> 4 -> at_ header 4 <> 5 ->
  deliver (ReadDone (Done header)) r = Some r1 ->
  ready (now r1) = true /\
  bytesWanted (now r1) = 0 /\
  exists r2,
    deliver (FileChanged size) r1 = Some r2 /\
    escaped r2 = escaped r1 ++ [NoBytesWanted].
Proof.
  intros Hcb Hwait Hwatch H2 H4 H5 Hd.
  destruct (stalled_after_event _ _ _ Hcb Hwait H2 H4 H5 Hd)
    as (Hs & Hw & _).
  pose proof Hs as (Hr & Hb & _).
  repeat split; try assumption.
  destruct (deliver (FileChanged size) r1) as [r2|] eqn:Hd2.
  - exists r2. split; [reflexivity|].
    apply deliver_some in Hd2. destruct Hd2 as (t & Hstep & _ & _ & _ & Hesc).
    destruct (stalled_step _ _ _ Hs Hstep) as (_ & Hout & _).
    rewrite Hout in Hesc. exact Hesc.
  - unfold deliver, step in Hd2. rewrite Hw, Hwatch in Hd2. discriminate.
Qed.

Lemma no_bytes_wanted_is_reached_witness :
  exists r2,
    deliver (FileChanged 200)
      (decode Vectors.dir Vectors.log1 false Vectors.stopLog) = Some r2 /\
    escaped r2 = [NoBytesWanted].
Proof.
  destruct (no_bytes_wanted_is_reached
              (serve 4 Vectors.stopLog (start Vectors.dir Vectors.log1 false))
              (decode Vectors.dir Vectors.log1 false Vectors.stopLog)
              (Vectors.headerOf Vectors.stopEvent) 200)
    as (_ & _ & r2 & Hd & Hesc).
  - vm_compute; reflexivity.
  - vm_compute; reflexivity.
  - vm_compute; reflexivity.
  - vm_compute; discriminate.
  - vm_compute; discriminate.
  - vm_compute; discriminate.
  - vm_compute; reflexivity.
  - exists r2. split; [exact Hd | exact Hesc].
Defined.

(** C6 on the code.  A stop event is published with the timestamp of its
    header and the session is not stopped (the listener stays, the file
    stays open).  But no [read] follows, so whatever arrives afterwards,
    nothing is read and nothing is published any more: a file change only
    throws from [readChunk]. *)
Theorem stop_event_ends_decoding
    (r r1 r2 : Run) (header : Buffer) (inputs : list Input) :
  didReadCallback (now r) = Some cbEvent ->
  waitingFor (now r) = None ->
  at_ header 4 = 3 ->
  deliver (ReadDone (Done header)) r = Some r1 ->
  run inputs r1 = Some r2 ->
  published r1 = published r ++ [Stop (readTimestamp header 0)] /\
  watching (now r1) = watching (now r) /\
  closed (now r1) = closed (now r) /\
  published r2 = published r1 /\
  reads (done r2) = reads (done r1) /\
  fileOffset (now r2) = fileOffset (now r1) /\
  escaped r2 = escaped r1 ++ repeat NoBytesWanted (length inputs).
Proof.
  intros Hcb Hwait Hcode Hd Hrun.
  assert (H2 : at_ header 4 <> 2) by lia.
  assert (H4 : at_ header 4 <> 4) by lia.
  assert (H5 : at_ header 4 <> 5) by lia.
  destruct (stalled_after_event _ _ _ Hcb Hwait H2 H4 H5 Hd)
    as (Hs & Hw & Hc & _ & _ & Hpub & _).
  rewrite Hcode in Hpub. cbn in Hpub.
  destruct (stalled_run _ _ _ Hs Hrun) as (_ & Hdone & Hq & _ & _ & Hesc).
  fields Hq. unfold published. rewrite Hdone.
  repeat split; assumption.
Qed.

Lemma stop_event_ends_decoding_witness :
  exists r2,
    decode_appended Vectors.dir Vectors.log1 false Vectors.stopLog Vectors.queryB
      = Some r2 /\
    published r2 = [Log 99000 Vectors.log1; Stop 101000] /\
    escaped r2 = [NoBytesWanted].
Proof.
  pose (r1 := decode Vectors.dir Vectors.log1 false Vectors.stopLog).
  pose (inputs := [FileChanged (len (Vectors.stopLog ++ Vectors.queryB))]).
  exists (or_else (run inputs r1) r1).
  destruct (stop_event_ends_decoding
              (serve 4 Vectors.stopLog (start Vectors.dir Vectors.log1 false))
              r1 (or_else (run inputs r1) r1)
              (Vectors.headerOf Vectors.stopEvent) inputs)
    as (Hpub1 & _ & _ & Hpub2 & _ & _ & Hesc).
  - vm_compute; reflexivity.
  - vm_compute; reflexivity.
  - vm_compute; reflexivity.
  - vm_compute; reflexivity.
  - vm_compute; reflexivity.
  - split; [vm_compute; reflexivity|]. split.
    + rewrite Hpub2, Hpub1. vm_compute. reflexivity.
    + rewrite Hesc. vm_compute. reflexivity.
Defined.

(** C1 on the code.  After an event of a type the switch has no case for,
    no [read] follows: whatever arrives afterwards, nothing is read and
    nothing is published any more, and the offset stays at the end of that
    event.  The events behind it in the file are never decoded. *)
Theorem unrecognized_event_ends_decoding
    (r r1 r2 : Run) (header : Buffer) (inputs : list Input) :
  didReadCallback (now r) = Some cbEvent ->
  waitingFor (now r) = None ->
  at_ header 4 <> 2 -> at_ header 4 <> 3 -> at_ header 4 <> 4 -> at_ header 4 <> 5 ->
  deliver (ReadDone (Done header)) r = Some r1 ->
  run inputs r1 = Some r2 ->
  published r2 = published r /\
  reads (done r2) = reads (done r) /\
  fileOffset (now r2) =
    fileOffset (now r) + bytesWanted (now r) + (readInt header 9 - 19).
Proof.
  intros Hcb Hwait H2 H3 H4 H5 Hd Hrun.
  destruct (stalled_after_event _ _ _ Hcb Hwait H2 H4 H5 Hd)
    as (Hs & _ & _ & _ & Hreads & Hpub & Hoff).
  apply Z.eqb_neq in H3. rewrite H3 in Hpub, Hoff. rewrite app_nil_r in Hpub.
  destruct (stalled_run _ _ _ Hs Hrun) as (_ & Hdone & Hq & _).
  fields Hq. unfold published in *. rewrite Hdone.
  repeat split; congruence.
Qed.

Lemma unrecognized_event_ends_decoding_witness :
  let r2 := decode Vectors.dir Vectors.log1 false Vectors.xidLog in
  published r2 = [Log 99000 Vectors.log1] /\
  reads (done r2) = [(4, 0); (19, 4); (19, 80)] /\
  fileOffset (now r2) = 107 /\
  len Vectors.xidLog = 167.
Proof.
  intros r2.
  destruct (unrecognized_event_ends_decoding
              (serve 4 Vectors.xidLog (start Vectors.dir Vectors.log1 false))
              r2 r2 (Vectors.headerOf Vectors.xid) [])
    as (Hpub & Hreads & Hoff).
  - vm_compute; reflexivity.
  - vm_compute; reflexivity.
  - vm_compute; discriminate.
  - vm_compute; discriminate.
  - vm_compute; discriminate.
  - vm_compute; discriminate.
  - vm_compute; reflexivity.
  - reflexivity.
  - rewrite Hpub, Hreads, Hoff. vm_compute. repeat split; reflexivity.
Defined.

(* ------------------------------------------------------------------ *)
(** ** A read that fails *)

(** C5 on the code.  When a physical read fails the session is torn down
    (listener removed, file closed, not ready) and the read is not issued
    again: no callback of the session can run any more.  But the
    ['error'] event is sent with [this.emit], and [this] is not the
    tailer: the call throws, and no notification reaches the tailer. *)
Theorem read_failure_is_not_reported (r r' : Run) (errno : Z) :
  waitingFor (now r) = None ->
  deliver (ReadDone (Failed errno)) r = Some r' ->
  watching (now r') = false /\
  closed (now r') = true /\
  ready (now r') = false /\
  published r' = published r /\
  escaped r' = escaped r ++ [TypeError] /\
  reads (done r') = reads (done r) /\
  forall i, deliver i r' = None.
Proof.
  intros Hwait Hd.
  apply deliver_some in Hd. destruct Hd as (t & Hstep & Hnow & Hdone & Hpub & Hesc).
  unfold step in Hstep.
  destruct (is_pending PRead (now r) && true); [|discriminate].
  apply Some_inj in Hstep. subst t.
  revert Hnow Hdone Hpub Hesc. run_callback. intros Hnow Hdone Hpub Hesc.
  rewrite app_nil_r in Hpub.
  rewrite Hnow, Hdone, reads_app. cbn. rewrite app_nil_r.
  repeat split; try assumption.
  intros i. unfold deliver, step, is_pending. rewrite Hnow. cbn. rewrite Hwait.
  destruct i as [x|x|size|[e|b]|]; reflexivity.
Qed.

Lemma read_failure_is_not_reported_witness :
  let r := serve 2 Vectors.stopLog (start Vectors.dir Vectors.log1 false) in
  exists r',
    deliver (ReadDone (Failed 5)) r = Some r' /\
    reads (done r) = [(4, 0)] /\
    closed (now r') = true /\
    published r' = [] /\
    escaped r' = [TypeError].
Proof.
  intros r.
  pose (r' := or_else (deliver (ReadDone (Failed 5)) r) r).
  destruct (read_failure_is_not_reported r r' 5)
    as (_ & Hclosed & _ & Hpub & Hesc & _).
  - vm_compute; reflexivity.
  - vm_compute; reflexivity.
  - exists r'. split; [vm_compute; reflexivity|].
    split; [vm_compute; reflexivity|].
    split; [exact Hclosed|].
    split; [rewrite Hpub | rewrite Hesc]; vm_compute; reflexivity.
Defined.

(* ------------------------------------------------------------------ *)
(** ** Fast-forward *)

(** The fast-forward test, in the terms of the file: a query event that
    starts at the current offset and declares [eventLength] bytes takes the
    fast-forward branch when it ends at or below the threshold (and has a
    body), and does not when it starts at or above the threshold. *)
Lemma threshold_decides (s : Session) (limit eventLength : Z) :
  fastForwardUntil s = Some limit ->
  bytesWanted s = 19 ->
  (19 < eventLength -> fileOffset s + eventLength <= limit ->
   fastForwarding (completed s) = true) /\
  (limit <= fileOffset s -> fastForwarding (completed s) = false).
Proof.
  intros Hl Hb. unfold fastForwarding, completed. cbn. rewrite Hl, Hb.
  split; intros; [apply Z.ltb_lt | apply Z.ltb_ge]; lia.
Qed.

(** Without a threshold nothing takes the fast-forward branch. *)
Lemma no_threshold_no_skipping (s : Session) :
  fastForwardUntil s = None -> fastForwarding (completed s) = false.
Proof. intros H. unfold fastForwarding, completed. cbn. rewrite H. reflexivity. Qed.

(** The fast-forward policy where the decoder gets that far: the query
    below the size at the start of the session is skipped, the one appended
    afterwards is published once. *)
Lemma fast_forward_control :
  exists r,
    decode_appended Vectors.dir Vectors.log1 true Vectors.plainOld Vectors.queryB
      = Some r /\
    fastForwardUntil (now r) = Some (len Vectors.plainOld) /\
    published r =
      [Log 99000 Vectors.log1; Query 102000 Vectors.app Vectors.insert2 None] /\
    reads (done r) = [(4, 0); (19, 4); (19, 80); (19, 140); (41, 159)].
Proof. eexists. vm_compute. repeat split; reflexivity. Qed.

(** C2 on the code.  The session starts with the threshold at the size of
    a file that holds a query event and, behind it, an event of a type the
    switch has no case for.  The query below the threshold is skipped
    without being read, as the claim says.  A query event is then appended,
    starting exactly at the threshold: it is never read and never
    published, because no [read] follows the unrecognized event; the file
    change only throws from [readChunk]. *)
Theorem query_behind_unrecognized_event_is_lost :
  exists r,
    decode_appended Vectors.dir Vectors.log1 true Vectors.xidOld Vectors.queryB
      = Some r /\
    fastForwardUntil (now r) = Some (len Vectors.xidOld) /\
    published r = [Log 99000 Vectors.log1] /\
    reads (done r) = [(4, 0); (19, 4); (19, 80); (19, 140)] /\
    fileOffset (now r) = len Vectors.xidOld /\
    escaped r = [NoBytesWanted].
Proof. eexists. vm_compute. repeat split; reflexivity. Qed.

(* ------------------------------------------------------------------ *)
(** ** The offset within one session *)

Ltac cursor_close :=
  cbn in *;
  split;
  [ let cb := fresh "cb" in
    let n := fresh "n" in
    let E := fresh "E" in
    let F := fresh "F" in
    intros cb n E F;
    try (injection E as <-; cbn in F; try discriminate; injection F as <-);
    eauto
  | intros ?; try congruence; eauto ].

Lemma call_cursor_ok (cb : option Callback) (buffer : Buffer) (s : Session) :
  bytesWanted s = 0 ->
  pending s = PNone ->
  cursor_ok (after (call cb buffer s)).
Proof.
  intros Hb Hp. unfold cursor_ok.
  destruct cb as [[| | |ts| |]|]; run_turn.
  - destruct (_ && _); cbn; [chunk|]; cursor_close.
  - destruct (_ =? 15); cbn; [chunk|]; cursor_close.
  - destruct (_ =? 2); [destruct (fastForwarding s)|]; cbn.
    + chunk; cursor_close.
    + chunk; cursor_close.
    + destruct (_ =? 3); [|destruct (_ =? 4); [|destruct (_ =? 5)]]; cbn;
        try chunk; cursor_close.
  - destruct (truthy (lastInsertId s) || truthy (autoIncrement s)); cbn;
      chunk; cursor_close.
  - destruct (_ =? 1); [|destruct (_ =? 2)]; cbn; chunk; cursor_close.
  - cursor_close.
  - cursor_close.
Qed.

Lemma step_cursor_ok (i : Input) (s : Session) (t : Turn unit) :
  cursor_ok s ->
  i <> NextFileChanged ->
  grows s i ->
  step i s = Some t ->
  cursor_ok (after t).
Proof.
  intros [Hcb Hrd] Hi Hg Hstep.
  destruct i as [[errno|size]|[errno|[]]|size|[errno|buffer]|]; try congruence.
  - unfold step in Hstep. destruct (is_pending PStat s); [|discriminate].
    apply Some_inj in Hstep. subst t. unfold cursor_ok. run_callback. cursor_close.
  - unfold step in Hstep. destruct (is_pending PStat s); [|discriminate].
    apply Some_inj in Hstep. subst t. unfold cursor_ok. run_callback.
    destruct (fastForward s); cursor_close.
  - unfold step in Hstep. destruct (is_pending POpen s); [|discriminate].
    apply Some_inj in Hstep. subst t. unfold cursor_ok. run_callback. cursor_close.
  - unfold step in Hstep. destruct (is_pending POpen s); [|discriminate].
    apply Some_inj in Hstep. subst t. unfold cursor_ok. run_callback.
    chunk; cursor_close.
  - apply step_changed in Hstep. destruct Hstep as [_ ->].
    unfold cursor_ok, grows in *. run_callback.
    chunk; cbn in *; (split; [assumption|]); intros Hpr;
      try (destruct (Hrd Hpr) as (Hnz & known & Hk & Hle); rewrite Hk in Hg;
           split; [assumption|]; exists size; split; [reflexivity | lia]).
    eauto.
  - unfold step in Hstep. destruct (is_pending PRead s && true); [|discriminate].
    apply Some_inj in Hstep. subst t. unfold cursor_ok. run_callback. cursor_close.
  - apply step_read_done in Hstep. destruct Hstep as (_ & _ & ->).
    apply call_cursor_ok; reflexivity.
Qed.

Lemma stream_cursor_ok (dir file : Path) (fastForward : bool) :
  cursor_ok (after (stream dir file fastForward)).
Proof.
  unfold cursor_ok. cbn. split; [|intros ?; discriminate].
  intros cb n E F. injection E as <-. injection F as <-. auto.
Qed.

Lemma reachable_cursor_ok (dir file : Path) (fastForward : bool) (s : Session) :
  reachable (after (stream dir file fastForward)) s -> cursor_ok s.
Proof.
  induction 1 as [|s i t _ IH Hi Hg Hstep].
  - apply stream_cursor_ok.
  - exact (step_cursor_ok _ _ _ IH Hi Hg Hstep).
Qed.

Ltac reads_close :=
  let Hin := fresh "Hin" in
  cbn in *; intros n position Hin;
  repeat (destruct Hin as [Hin|Hin];
          [injection Hin as <- <-; split; [reflexivity | eauto]|]);
  try contradiction.

(** Every physical read a callback issues lies within the known size. *)
Lemma call_reads (cb : option Callback) (buffer : Buffer) (s : Session) :
  forall n position,
    In (n, position) (reads (effects (call cb buffer s))) ->
    position = fileOffset (after (call cb buffer s)) /\
    exists size, stat (after (call cb buffer s)) = Some size /\ position + n <= size.
Proof.
  destruct cb as [[| | |ts| |]|]; run_turn.
  - destruct (_ && _); cbn; [chunk|]; reads_close.
  - destruct (_ =? 15); cbn; [chunk|]; reads_close.
  - destruct (_ =? 2); [destruct (fastForwarding s)|]; cbn.
    + chunk; reads_close.
    + chunk; reads_close.
    + destruct (_ =? 3); [|destruct (_ =? 4); [|destruct (_ =? 5)]]; cbn;
        try chunk; reads_close.
  - destruct (truthy (lastInsertId s) || truthy (autoIncrement s)); cbn;
      chunk; reads_close.
  - destruct (_ =? 1); [|destruct (_ =? 2)]; cbn; chunk; reads_close.
  - reads_close.
  - reads_close.
Qed.

Lemma step_reads (i : Input) (s : Session) (t : Turn unit) :
  step i s = Some t ->
  forall n position,
    In (n, position) (reads (effects t)) ->
    position = fileOffset (after t) /\
    exists size, stat (after t) = Some size /\ position + n <= size.
Proof.
  intros Hstep.
  destruct i as [[errno|size]|[errno|[]]|size|[errno|buffer]|].
  - unfold step in Hstep. destruct (is_pending PStat s); [|discriminate].
    apply Some_inj in Hstep. subst t. run_callback. reads_close.
  - unfold step in Hstep. destruct (is_pending PStat s); [|discriminate].
    apply Some_inj in Hstep. subst t. run_callback.
    destruct (fastForward s); reads_close.
  - unfold step in Hstep. destruct (is_pending POpen s); [|discriminate].
    apply Some_inj in Hstep. subst t. run_callback. reads_close.
  - unfold step in Hstep. destruct (is_pending POpen s); [|discriminate].
    apply Some_inj in Hstep. subst t. run_callback. chunk; reads_close.
  - apply step_changed in Hstep. destruct Hstep as [_ ->].
    run_callback. chunk; reads_close.
  - unfold step in Hstep. destruct (is_pending PRead s && true); [|discriminate].
    apply Some_inj in Hstep. subst t. run_callback. reads_close.
  - apply step_read_done in Hstep. destruct Hstep as (_ & _ & ->).
    apply call_reads.
  - unfold step in Hstep. destruct (waitingFor s) as [next|]; [|discriminate].
    apply Some_inj in Hstep. subst t. run_callback. reads_close.
Qed.

Lemma readInt_nonneg (buffer : Buffer) (offset : Z) : 0 <= readInt buffer offset.
Proof.
  unfold readInt, at_, num.
  repeat match goal with
         | |- context [Z.of_N ?n] =>
             let H := fresh in pose proof (N2Z.is_nonneg n) as H;
             generalize dependent (Z.of_N n); intros
         end.
  lia.
Qed.

Lemma len_nonneg (buffer : Buffer) : 0 <= len buffer.
Proof. unfold len. lia. Qed.

Lemma call_offset_turn (cb : option Callback) (buffer : Buffer) (s : Session) :
  (cb = Some cbEvent \/ cb = Some cbFirstEvent -> len buffer = 19) ->
  fileOffset s - len buffer <= fileOffset (after (call cb buffer s)).
Proof.
  intros Hlen.
  pose proof (readInt_nonneg buffer 9). pose proof (len_nonneg buffer).
  destruct cb as [[| | |ts| |]|]; run_turn;
    try (assert (len buffer = 19) by auto).
  - destruct (_ && _); cbn; [chunk|]; lia.
  - destruct (_ =? 15); cbn; [chunk|]; lia.
  - destruct (_ =? 2); [destruct (fastForwarding s)|]; cbn.
    + chunk; lia.
    + chunk; lia.
    + destruct (_ =? 3); [|destruct (_ =? 4); [|destruct (_ =? 5)]]; cbn;
        try chunk; lia.
  - destruct (truthy (lastInsertId s) || truthy (autoIncrement s)); cbn;
      chunk; lia.
  - destruct (_ =? 1); [|destruct (_ =? 2)]; cbn; chunk; lia.
  - lia.
  - lia.
Qed.

Lemma call_offset_skip (cb : option Callback) (buffer : Buffer) (s : Session) :
  (cb = Some cbEvent \/ cb = Some cbFirstEvent ->
   len buffer = 19 /\ 19 <= readInt buffer 9) ->
  fileOffset s <= fileOffset (after (call cb buffer s)).
Proof.
  intros Hlen.
  destruct cb as [[| | |ts| |]|]; run_turn;
    try (assert (len buffer = 19 /\ 19 <= readInt buffer 9) as [? ?] by auto).
  - destruct (_ && _); cbn; [chunk|]; lia.
  - destruct (_ =? 15); cbn; [chunk|]; lia.
  - destruct (_ =? 2); [destruct (fastForwarding s)|]; cbn.
    + chunk; lia.
    + chunk; lia.
    + destruct (_ =? 3); [|destruct (_ =? 4); [|destruct (_ =? 5)]]; cbn;
        try chunk; lia.
  - destruct (truthy (lastInsertId s) || truthy (autoIncrement s)); cbn;
      chunk; lia.
  - destruct (_ =? 1); [|destruct (_ =? 2)]; cbn; chunk; lia.
  - lia.
  - lia.
Qed.

(** Turns other than the completion of a read leave the offset alone. *)
Lemma step_offset_other (i : Input) (s : Session) (t : Turn unit) :
  step i s = Some t ->
  i <> NextFileChanged ->
  (forall buffer, i <> ReadDone (Done buffer)) ->
  fileOffset (after t) = fileOffset s.
Proof.
  intros Hstep Hi Hb.
  destruct i as [[errno|size]|[errno|[]]|size|[errno|buffer]|]; try congruence.
  - unfold step in Hstep. destruct (is_pending PStat s); [|discriminate].
    apply Some_inj in Hstep. subst t. run_callback. reflexivity.
  - unfold step in Hstep. destruct (is_pending PStat s); [|discriminate].
    apply Some_inj in Hstep. subst t. run_callback.
    destruct (fastForward s); reflexivity.
  - unfold step in Hstep. destruct (is_pending POpen s); [|discriminate].
    apply Some_inj in Hstep. subst t. run_callback. reflexivity.
  - unfold step in Hstep. destruct (is_pending POpen s); [|discriminate].
    apply Some_inj in Hstep. subst t. run_callback. chunk; reflexivity.
  - apply step_changed in Hstep. destruct Hstep as [_ ->].
    run_callback. chunk; reflexivity.
  - unfold step in Hstep. destruct (is_pending PRead s && true); [|discriminate].
    apply Some_inj in Hstep. subst t. run_callback. reflexivity.
Qed.

(** C4, as amended.  Within one session: every physical read that is
    issued starts at the offset and ends at or below the known size; the
    offset never decreases from one turn of the event loop to the next; the
    completion of a read moves it forward by the bytes read, to at most the
    known size (the file being only appended to).  The skip a header's
    callback performs moves it forward when the header declares at least
    its own 19 bytes; nothing keeps a skip within the known size. *)
Theorem offset_discipline
    (dir file : Path) (fastForward : bool) (s : Session) (i : Input) (t : Turn unit) :
  reachable (after (stream dir file fastForward)) s ->
  i <> NextFileChanged ->
  step i s = Some t ->
  (forall n position,
      In (n, position) (reads (effects t)) ->
      position = fileOffset (after t) /\
      exists size, stat (after t) = Some size /\ position + n <= size) /\
  fileOffset s <= fileOffset (after t) /\
  (forall buffer,
      i = ReadDone (Done buffer) ->
      fileOffset (completed s) = fileOffset s + len buffer /\
      (exists size, stat s = Some size /\ fileOffset (completed s) <= size) /\
      (plausible s i -> fileOffset (completed s) <= fileOffset (after t))).
Proof.
  intros Hreach Hi Hstep.
  apply reachable_cursor_ok in Hreach. destruct Hreach as [Hcb Hrd].
  split; [exact (step_reads _ _ _ Hstep)|].
  assert (Hread : forall buffer, i = ReadDone (Done buffer) ->
            len buffer = bytesWanted s /\
            t = call (didReadCallback s) buffer (completed s) /\
            (didReadCallback s = Some cbEvent \/
             didReadCallback s = Some cbFirstEvent -> len buffer = 19) /\
            exists size, stat s = Some size /\ fileOffset s + bytesWanted s <= size).
  { intros buffer ->. apply step_read_done in Hstep.
    destruct Hstep as (Hp & Hl & Ht).
    destruct (Hrd Hp) as (Hnz & Hsize).
    repeat split; try assumption.
    intros [H|H]; destruct (Hcb _ 19 H eq_refl); congruence. }
  split.
  - destruct i as [r|r|size|[errno|buffer]|];
      try (rewrite (step_offset_other _ _ _ Hstep Hi); [lia | intros ?; discriminate]).
    destruct (Hread buffer eq_refl) as (Hl & Ht & H19 & _).
    pose proof (call_offset_turn (didReadCallback s) buffer (completed s) H19) as H.
    rewrite <- Ht in H. cbn in H. lia.
  - intros buffer E. destruct (Hread buffer E) as (Hl & Ht & H19 & size & Hs & Hle).
    split; [cbn; rewrite Hl; reflexivity|].
    split; [exists size; split; [assumption | cbn; exact Hle]|].
    subst i. unfold plausible. intros Hpl. rewrite Ht.
    apply call_offset_skip. intros H. split; [auto|].
    destruct H as [H|H]; rewrite H in Hpl; exact Hpl.
Qed.

Lemma run_reachable (s0 : Session) (inputs : list Input) (r r' : Run) :
  reachable s0 (now r) ->
  single_session inputs r ->
  run inputs r = Some r' ->
  reachable s0 (now r').
Proof.
  revert r. induction inputs as [|i inputs IH]; intros r Hr; cbn [run single_session].
  - intros _ H. apply Some_inj in H. subst. exact Hr.
  - intros (Hi & Hg & Hrest).
    destruct (deliver i r) as [r1|] eqn:Hd; [|discriminate].
    apply deliver_some in Hd. destruct Hd as (t & Hstep & Hnow & _).
    apply IH; [|exact Hrest].
    rewrite Hnow. exact (reach_step _ _ _ _ Hr Hi Hg Hstep).
Qed.

Lemma offset_discipline_witness :
  let r := serve 4 Vectors.xidLog (start Vectors.dir Vectors.log1 false) in
  let i := ReadDone (Done (Vectors.headerOf Vectors.xid)) in
  let t := turn_of (step i (now r)) (now r) in
  (fileOffset (now r) = 80 /\ fileOffset (after t) = 107) /\
  fileOffset (now r) <= fileOffset (after t) /\
  fileOffset (completed (now r)) = fileOffset (now r) + 19 /\
  exists size, stat (now r) = Some size /\ fileOffset (completed (now r)) <= size.
Proof.
  intros r i t.
  destruct (offset_discipline Vectors.dir Vectors.log1 false (now r) i t)
    as (_ & Hmono & Hdone).
  - apply (run_reachable _
             [StatDone (Done (len Vectors.xidLog)); OpenDone (Done tt);
              ReadDone (Done Wire.magic);
              ReadDone (Done (Vectors.headerOf Vectors.fde))]
             (start Vectors.dir Vectors.log1 false)).
    + apply reach_start.
    + vm_compute. repeat split; discriminate.
    + vm_compute; reflexivity.
  - discriminate.
  - vm_compute; reflexivity.
  - destruct (Hdone _ eq_refl) as (Hc & Hsize & _).
    split; [vm_compute; split; reflexivity|].
    split; [exact Hmono|]. split; [exact Hc | exact Hsize].
Defined.

(** C4, as stated, fails twice.  The file holds the magic bytes and the
    header of a format-description event whose body is not written yet: the
    skip moves the offset to 80 while the known size is 23.  And a header
    that declares a length of 0: the skip moves the offset from 99 back to
    80. *)
Lemma skip_leaves_known_size :
  (let r := decode Vectors.dir Vectors.log1 false Vectors.partialLog in
   fileOffset (now r) = 80 /\ stat (now r) = Some 23) /\
  (let s := completed (now (serve 4 Vectors.shortLog
                              (start Vectors.dir Vectors.log1 false))) in
   fileOffset s = 99 /\
   fileOffset (after (call (Some cbEvent) (Vectors.headerOf Vectors.emptyEvent) s)) = 80).
Proof. vm_compute. repeat split; reflexivity. Qed.

(* ------------------------------------------------------------------ *)
(** ** Rotation *)

Ltac threshold_close := cbn in *; try (split; [assumption || reflexivity | assumption || reflexivity]).

Lemma call_no_threshold (cb : option Callback) (buffer : Buffer) (s : Session) :
  no_threshold s -> no_threshold (after (call cb buffer s)).
Proof.
  intros [Hf Hu]. unfold no_threshold.
  destruct cb as [[| | |ts| |]|]; run_turn.
  - destruct (_ && _); cbn; [chunk|]; threshold_close.
  - destruct (_ =? 15); cbn; [chunk|]; threshold_close.
  - destruct (_ =? 2); [destruct (fastForwarding s)|]; cbn.
    + chunk; threshold_close.
    + chunk; threshold_close.
    + destruct (_ =? 3); [|destruct (_ =? 4); [|destruct (_ =? 5)]]; cbn;
        try chunk; threshold_close.
  - destruct (truthy (lastInsertId s) || truthy (autoIncrement s)); cbn;
      chunk; threshold_close.
  - destruct (_ =? 1); [|destruct (_ =? 2)]; cbn; chunk; threshold_close.
  - threshold_close.
  - threshold_close.
Qed.

Lemma step_no_threshold (i : Input) (s : Session) (t : Turn unit) :
  no_threshold s -> step i s = Some t -> no_threshold (after t).
Proof.
  intros [Hf Hu] Hstep.
  destruct i as [[errno|size]|[errno|[]]|size|[errno|buffer]|].
  - unfold step in Hstep. destruct (is_pending PStat s); [|discriminate].
    apply Some_inj in Hstep. subst t. unfold no_threshold. run_callback.
    threshold_close.
  - unfold step in Hstep. destruct (is_pending PStat s); [|discriminate].
    apply Some_inj in Hstep. subst t. unfold no_threshold. run_callback.
    rewrite Hf. threshold_close.
  - unfold step in Hstep. destruct (is_pending POpen s); [|discriminate].
    apply Some_inj in Hstep. subst t. unfold no_threshold. run_callback.
    threshold_close.
  - unfold step in Hstep. destruct (is_pending POpen s); [|discriminate].
    apply Some_inj in Hstep. subst t. unfold no_threshold. run_callback.
    chunk; threshold_close.
  - apply step_changed in Hstep. destruct Hstep as [_ ->].
    unfold no_threshold. run_callback. chunk; threshold_close.
  - unfold step in Hstep. destruct (is_pending PRead s && true); [|discriminate].
    apply Some_inj in Hstep. subst t. unfold no_threshold. run_callback.
    threshold_close.
  - apply step_read_done in Hstep. destruct Hstep as (_ & _ & ->).
    apply call_no_threshold. split; assumption.
  - unfold step in Hstep. destruct (waitingFor s) as [next|]; [|discriminate].
    apply Some_inj in Hstep. subst t. unfold no_threshold. run_callback.
    threshold_close.
Qed.

Lemma run_no_threshold (inputs : list Input) (r r' : Run) :
  no_threshold (now r) -> run inputs r = Some r' -> no_threshold (now r').
Proof.
  revert r. induction inputs as [|i inputs IH]; intros r Hr; cbn [run].
  - intros H. apply Some_inj in H. subst. exact Hr.
  - destruct (deliver i r) as [r1|] eqn:Hd; [|discriminate].
    apply deliver_some in Hd. destruct Hd as (t & Hstep & Hnow & _).
    apply IH. rewrite Hnow. exact (step_no_threshold _ _ _ Hr Hstep).
Qed.

Lemma run_published (inputs : list Input) (r r' : Run) :
  run inputs r = Some r' -> exists more, published r' = published r ++ more.
Proof.
  revert r. induction inputs as [|i inputs IH]; intros r; cbn [run].
  - intros H. apply Some_inj in H. subst. exists []. rewrite app_nil_r. reflexivity.
  - destruct (deliver i r) as [r1|] eqn:Hd; [|discriminate].
    apply deliver_some in Hd. destruct Hd as (t & _ & _ & _ & Hpub & _).
    intros H. destruct (IH _ H) as (more & Hmore).
    exists (notifications (effects t) ++ more).
    rewrite Hmore, Hpub, app_assoc. reflexivity.
Qed.

Ltac opening_close :=
  cbn in *;
  first
    [ left; split; [repeat split; auto | reflexivity]
    | right; left; do 2 eexists; subst; reflexivity
    | right; right; do 2 eexists; reflexivity ].

Lemma step_opening (next : Path) (i : Input) (s : Session) (t : Turn unit) :
  opening next s ->
  step i s = Some t ->
  (opening next (after t) /\ notifications (effects t) = []) \/
  opens_with next (notifications (effects t)).
Proof.
  intros (Hfile & Hwait & Hcb) Hstep. unfold opening, opens_with.
  destruct i as [[errno|size]|[errno|[]]|size|[errno|buffer]|].
  - unfold step in Hstep. destruct (is_pending PStat s); [|discriminate].
    apply Some_inj in Hstep. subst t. run_callback. opening_close.
  - unfold step in Hstep. destruct (is_pending PStat s); [|discriminate].
    apply Some_inj in Hstep. subst t. run_callback.
    destruct (fastForward s); opening_close.
  - unfold step in Hstep. destruct (is_pending POpen s); [|discriminate].
    apply Some_inj in Hstep. subst t. run_callback. opening_close.
  - unfold step in Hstep. destruct (is_pending POpen s); [|discriminate].
    apply Some_inj in Hstep. subst t. run_callback. chunk; opening_close.
  - apply step_changed in Hstep. destruct Hstep as [_ ->].
    run_callback. chunk; opening_close.
  - unfold step in Hstep. destruct (is_pending PRead s && true); [|discriminate].
    apply Some_inj in Hstep. subst t. run_callback. opening_close.
  - apply step_read_done in Hstep. destruct Hstep as (_ & _ & ->).
    destruct Hcb as [Hcb|Hcb]; rewrite Hcb; run_turn.
    + destruct (_ && _); cbn; [chunk|]; opening_close.
    + destruct (_ =? 15); cbn; [chunk|]; opening_close.
  - unfold step in Hstep. rewrite Hwait in Hstep. discriminate.
Qed.

Lemma run_opening (next : Path) (inputs : list Input) (r r' : Run) :
  opening next (now r) ->
  run inputs r = Some r' ->
  published r' = published r \/
  exists more, published r' = published r ++ more /\ opens_with next more.
Proof.
  revert r. induction inputs as [|i inputs IH]; intros r Hr; cbn [run].
  - intros H. apply Some_inj in H. subst. left. reflexivity.
  - destruct (deliver i r) as [r1|] eqn:Hd; [|discriminate].
    apply deliver_some in Hd. destruct Hd as (t & Hstep & Hnow & _ & Hpub & _).
    intros H.
    destruct (step_opening _ _ _ _ Hr Hstep) as [[Ho Hn]|Hfirst].
    + rewrite <- Hnow in Ho. rewrite Hn, app_nil_r in Hpub.
      destruct (IH _ Ho H) as [E|(more & E & Hm)].
      * left. congruence.
      * right. exists more. split; [congruence | exact Hm].
    + right. destruct (run_published _ _ _ H) as (more & Hmore).
      exists (notifications (effects t) ++ more). split.
      * rewrite Hmore, Hpub, app_assoc. reflexivity.
      * destruct Hfirst as [(ts & rest & E)|(cause & rest & E)]; rewrite E.
        -- left. do 2 eexists. reflexivity.
        -- right. do 2 eexists. reflexivity.
Qed.

(** The turns of a session up to its ['log']. *)
Lemma opened (r r' : Run) (size : Z) :
  fastForward (now r) = false ->
  run [StatDone (Done size); OpenDone (Done tt)] r = Some r' ->
  parser (now r') = parser (now r) /\ published r' = published r.
Proof.
  intros Hff. cbn [run].
  destruct (deliver (StatDone (Done size)) r) as [r1|] eqn:Hd1; [|discriminate].
  destruct (deliver (OpenDone (Done tt)) r1) as [r2|] eqn:Hd2; [|discriminate].
  intros H. apply Some_inj in H. subst r2.
  apply deliver_some in Hd1. destruct Hd1 as (t1 & Hs1 & Hnow1 & _ & Hpub1 & _).
  apply deliver_some in Hd2. destruct Hd2 as (t2 & Hs2 & Hnow2 & _ & Hpub2 & _).
  unfold step in Hs1. destruct (is_pending PStat (now r)); [|discriminate].
  apply Some_inj in Hs1. subst t1.
  unfold step in Hs2. destruct (is_pending POpen (now r1)); [|discriminate].
  apply Some_inj in Hs2. subst t2.
  rewrite Hnow2, Hpub2, Hpub1. clear Hnow2 Hpub2 Hpub1.
  revert Hnow1. run_callback. rewrite Hff. cbn. intros Hnow1.
  chunk; rewrite Hnow1; cbn; rewrite !app_nil_r; auto.
Qed.

Lemma magic_delivered (r r' : Run) (buffer : Buffer) :
  didReadCallback (now r) = Some cbHeader ->
  at_ buffer 0 = 254 -> at_ buffer 1 = 98 -> at_ buffer 2 = 105 -> at_ buffer 3 = 110 ->
  deliver (ReadDone (Done buffer)) r = Some r' ->
  didReadCallback (now r') = Some cbFirstEvent /\
  file (now r') = file (now r) /\
  published r' = published r.
Proof.
  intros Hcb H0 H1 H2 H3 Hd.
  apply deliver_buffer in Hd. destruct Hd as (_ & _ & Hnow & Hpub).
  rewrite Hcb in Hnow, Hpub. rewrite Hnow, Hpub. clear Hnow Hpub.
  run_turn. rewrite H0, H1, H2, H3. cbn.
  chunk; rewrite app_nil_r; auto.
Qed.

Lemma first_event_delivered (r r' : Run) (buffer : Buffer) :
  didReadCallback (now r) = Some cbFirstEvent ->
  at_ buffer 4 = 15 ->
  deliver (ReadDone (Done buffer)) r = Some r' ->
  published r' = published r ++ [Log (readTimestamp buffer 0) (file (now r))].
Proof.
  intros Hcb H4 Hd.
  apply deliver_buffer in Hd. destruct Hd as (_ & _ & _ & Hpub).
  rewrite Hcb in Hpub. rewrite Hpub. clear Hpub.
  run_turn. rewrite H4. cbn. chunk; reflexivity.
Qed.

Lemma opening_logs (r r' : Run) (size : Z) (sizes1 sizes2 : list Z)
    (magic header : Buffer) :
  fastForward (now r) = false ->
  didReadCallback (now r) = Some cbHeader ->
  at_ magic 0 = 254 -> at_ magic 1 = 98 -> at_ magic 2 = 105 -> at_ magic 3 = 110 ->
  at_ header 4 = 15 ->
  run (StatDone (Done size) :: OpenDone (Done tt) ::
       map FileChanged sizes1 ++ ReadDone (Done magic) ::
       map FileChanged sizes2 ++ [ReadDone (Done header)]) r = Some r' ->
  published r' = published r ++ [Log (readTimestamp header 0) (file (now r))].
Proof.
  intros Hff Hcb H0 H1 H2 H3 H4 Hrun.
  change (StatDone (Done size) :: OpenDone (Done tt) ::
          map FileChanged sizes1 ++ ReadDone (Done magic) ::
          map FileChanged sizes2 ++ [ReadDone (Done header)])
    with ([StatDone (Done size); OpenDone (Done tt)] ++
          map FileChanged sizes1 ++ [ReadDone (Done magic)] ++
          map FileChanged sizes2 ++ [ReadDone (Done header)]) in Hrun.
  rewrite run_app in Hrun.
  destruct (run [StatDone (Done size); OpenDone (Done tt)] r) as [ra|] eqn:Ha;
    [|discriminate].
  rewrite run_app in Hrun.
  destruct (run (map FileChanged sizes1) ra) as [rb|] eqn:Hb; [|discriminate].
  rewrite run_app in Hrun. cbn [run] in Hrun.
  destruct (deliver (ReadDone (Done magic)) rb) as [rc|] eqn:Hc; [|discriminate].
  rewrite run_app in Hrun.
  destruct (run (map FileChanged sizes2) rc) as [rd|] eqn:Hd; [|discriminate].
  cbn [run] in Hrun.
  destruct (deliver (ReadDone (Done header)) rd) as [re|] eqn:He; [|discriminate].
  apply Some_inj in Hrun. subst re.
  apply (opened _ _ _ Hff) in Ha. destruct Ha as [Hqa Hpa].
  apply idle_run in Hb. destruct Hb as [Hqb Hpb].
  rewrite Hqa in Hqb. fields Hqb.
  assert (Hcbb : didReadCallback (now rb) = Some cbHeader) by congruence.
  destruct (magic_delivered _ _ _ Hcbb H0 H1 H2 H3 Hc) as (Hcbc & Hfc & Hpc).
  apply idle_run in Hd. destruct Hd as [Hqd Hpd]. fields Hqd.
  assert (Hcbd : didReadCallback (now rd) = Some cbFirstEvent) by congruence.
  rewrite (first_event_delivered _ _ _ Hcbd H4 He).
  assert (file (now rd) = file (now r)) as -> by congruence.
  assert (published rd = published r) as -> by congruence.
  reflexivity.
Qed.

(** C7, as amended.  The body of a rotate event stops the session (the
    listener is removed, the file closed) and publishes ['rotate'] with the
    path of the next file, which [path.join] makes of the tailer's
    directory and the name in the event; until the listener on that path
    fires, nothing else can run.  When it fires, [stream] is called on that
    path without [fastForward]: a session from offset 0 whose threshold
    stays undefined, as it does in every session after it.  Nothing is
    published before that session's first notification, which is ['log']
    with the same path or ['error']; it is ['log'] when the file can be
    opened and starts with the magic bytes and a format-description event.
    The name is taken to be ASCII, so that [toString('utf-8')] gives back
    its bytes. *)
Theorem rotation_hands_over (r r1 : Run) (body : Buffer) :
  didReadCallback (now r) = Some cbRotateBody ->
  deliver (ReadDone (Done body)) r = Some r1 ->
  plain_text (slice_from body (Some 8)) ->
  let next := path_join (that_path (now r)) (slice_from body (Some 8)) in
  (watching (now r1) = false /\ closed (now r1) = true /\ ready (now r1) = false) /\
  published r1 = published r ++ [Rotate next] /\
  (forall i, i <> NextFileChanged -> deliver i r1 = None) /\
  exists r2,
    deliver NextFileChanged r1 = Some r2 /\
    now r2 = after (stream (that_path (now r)) next false) /\
    published r2 = published r1 /\
    (forall inputs r3,
        run inputs r2 = Some r3 ->
        fastForwardUntil (now r3) = None /\
        (published r3 = published r1 \/
         exists more, published r3 = published r1 ++ more /\ opens_with next more)) /\
    (forall size sizes1 sizes2 magic header r3,
        at_ magic 0 = 254 -> at_ magic 1 = 98 -> at_ magic 2 = 105 ->
        at_ magic 3 = 110 -> at_ header 4 = 15 ->
        run (StatDone (Done size) :: OpenDone (Done tt) ::
             map FileChanged sizes1 ++ ReadDone (Done magic) ::
             map FileChanged sizes2 ++ [ReadDone (Done header)]) r2 = Some r3 ->
        published r3 = published r1 ++ [Log (readTimestamp header 0) next]).
Proof.
  intros Hcb Hd _ next.
  apply deliver_buffer in Hd. destruct Hd as (_ & _ & Hnow & Hpub).
  rewrite Hcb in Hnow, Hpub.
  assert (Hturn :
            after (call (Some cbRotateBody) body (completed (now r))) =
              set_waitingFor (Some next)
                (set_ready false
                   (set_closed true (set_watching false (completed (now r))))) /\
            notifications (effects (call (Some cbRotateBody) body (completed (now r))))
              = [Rotate next])
    by (run_turn; split; reflexivity).
  destruct Hturn as [Hafter Hnote]. rewrite Hafter in Hnow. rewrite Hnote in Hpub.
  clear Hafter Hnote.
  split; [rewrite Hnow; cbn; auto|].
  split; [exact Hpub|].
  split.
  { intros i Hi. unfold deliver, step, is_pending. rewrite Hnow. cbn.
    destruct i as [x|x|size|[e|b]|]; try reflexivity. congruence. }
  destruct (deliver NextFileChanged r1) as [r2|] eqn:Hd2.
  2:{ unfold deliver, step in Hd2. rewrite Hnow in Hd2. cbn in Hd2. discriminate. }
  exists r2. split; [reflexivity|].
  apply deliver_some in Hd2. destruct Hd2 as (t & Hstep & Hnow2 & _ & Hpub2 & _).
  unfold step in Hstep. rewrite Hnow in Hstep. cbn [waitingFor set_waitingFor] in Hstep.
  apply Some_inj in Hstep. subst t.
  assert (Hnew : now r2 = after (stream (that_path (now r)) next false)).
  { rewrite Hnow2. unfold onNextFile, bind, perform. cbn. reflexivity. }
  assert (Hsame : published r2 = published r1).
  { rewrite Hpub2. unfold onNextFile, bind, perform. cbn. apply app_nil_r. }
  split; [exact Hnew|]. split; [exact Hsame|]. split.
  - intros inputs r3 Hrun. split.
    + assert (Hnt : no_threshold (now r2)) by (rewrite Hnew; split; reflexivity).
      exact (proj2 (run_no_threshold _ _ _ Hnt Hrun)).
    + assert (Hop : opening next (now r2)).
      { rewrite Hnew. unfold opening. cbn. auto. }
      rewrite <- Hsame. exact (run_opening _ _ _ _ Hop Hrun).
  - intros size sizes1 sizes2 magic header r3 H0 H1 H2 H3 H4 Hrun.
    assert (Hfile : file (now r2) = next) by (rewrite Hnew; reflexivity).
    rewrite <- Hsame, <- Hfile.
    apply (opening_logs _ _ size sizes1 sizes2 magic header); try assumption;
      rewrite Hnew; reflexivity.
Qed.

Lemma rotation_hands_over_witness :
  let r := serve 6 Vectors.rotatingLog (start Vectors.dir Vectors.log1 true) in
  let r1 := serve 7 Vectors.rotatingLog (start Vectors.dir Vectors.log1 true) in
  let r2 := or_else (deliver NextFileChanged r1) r1 in
  let r3 := serve 4 Vectors.nextLog r2 in
  published r1 = published r ++ [Rotate Vectors.log2] /\
  fastForwardUntil (now r3) = None /\
  published r3 = published r1 ++ [Log 199000 Vectors.log2].
Proof.
  intros r r1 r2 r3.
  destruct (rotation_hands_over r r1 (Vectors.bodyOf Vectors.rotateEvent))
    as (_ & Hpub & _ & r2' & Hd2 & _ & _ & Hall & Hlog).
  - vm_compute; reflexivity.
  - vm_compute; reflexivity.
  - vm_compute. repeat (constructor; [split; reflexivity|]). constructor.
  - assert (E : deliver NextFileChanged r1 = Some r2) by (vm_compute; reflexivity).
    rewrite E in Hd2. apply Some_inj in Hd2. subst r2'.
    split; [exact Hpub|]. split.
    + refine (proj1 (Hall [StatDone (Done (len Vectors.nextLog)); OpenDone (Done tt);
                           ReadDone (Done Wire.magic);
                           ReadDone (Done (Vectors.headerOf (Wire.formatDescription 199)))]
                          r3 _)).
      vm_compute; reflexivity.
    + refine (Hlog (len Vectors.nextLog) [] [] Wire.magic
                   (Vectors.headerOf (Wire.formatDescription 199)) r3 _ _ _ _ _ _);
        vm_compute; reflexivity.
Defined.

(** C7, as stated, fails: the log ends with a rotate event, the next file
    exists but does not start with the magic bytes, and the notification
    that follows ['rotate'] is ['error'], not ['log']. *)
Lemma rotation_to_a_file_that_is_no_log :
  option_map published
    (decode_rotated Vectors.dir Vectors.log1 true Vectors.rotatingLog Vectors.notALog)
  = Some [Log 99000 Vectors.log1; Rotate Vectors.log2; Error InvalidBinlog].
Proof. vm_compute. reflexivity. Qed.

(** The same rotation to a well-formed file: ['log'] for the next path
    follows, and the query in the next file is published although the
    tailer was started in fast-forward mode. *)
Lemma rotation_control :
  option_map published
    (decode_rotated Vectors.dir Vectors.log1 true Vectors.rotatingLog Vectors.nextLog)
  = Some [Log 99000 Vectors.log1; Rotate Vectors.log2; Log 199000 Vectors.log2;
          Query 102000 Vectors.app Vectors.insert2 None].
Proof. vm_compute. reflexivity. Qed.

(* ------------------------------------------------------------------ *)
(** ** A whole log *)

(** The end-to-end example: a format-description event, a query against
    schema [app], a stop event. *)
Lemma end_to_end :
  let whole := Wire.magic ++ Vectors.fde ++ Vectors.queryA ++ Vectors.stopEvent in
  let r := decode Vectors.dir Vectors.log1 false whole in
  published r =
    [Log 99000 Vectors.log1;
     Query 101000 Vectors.app Vectors.insert1 None;
     Stop 101000] /\
  fileOffset (now r) = len whole.
Proof. vm_compute. split; reflexivity. Qed.

(** Within a session every callback that indexes its buffer at fixed
    positions is handed a buffer that holds them: 4 bytes for the magic
    number, 19 for a header, 9 for the body of an auto-increment event. *)
Lemma delivered_in_full
    (dir file : Path) (fastForward : bool) (s : Session)
    (buffer : Buffer) (t : Turn unit) (cb : Callback) (n : Z) :
  reachable (after (stream dir file fastForward)) s ->
  step (ReadDone (Done buffer)) s = Some t ->
  didReadCallback s = Some cb ->
  chunk_size cb = Some n ->
  len buffer = n.
Proof.
  intros Hreach Hstep Hcb Hn.
  apply reachable_cursor_ok in Hreach. destruct Hreach as [Hsize Hrd].
  apply step_read_done in Hstep. destruct Hstep as (Hp & Hl & _).
  destruct (Hrd Hp) as (Hnz & _).
  destruct (Hsize _ _ Hcb Hn); congruence.
Qed.

(* ------------------------------------------------------------------ *)
(** ** A whole log of queries and hints *)

Lemma num_byte_of (z : Z) : num (Wire.byte_of z) = z mod 256.
Proof.
  unfold num, Wire.byte_of.
  assert (Hm : 0 <= z mod 256 < 256) by (apply Z.mod_pos_bound; lia).
  destruct (Byte.of_N (Z.to_N (z mod 256))) as [b|] eqn:E.
  - apply Byte.to_of_N in E. rewrite E. apply Z2N.id. lia.
  - apply Byte.of_N_None_iff in E. lia.
Qed.

Lemma word_bytes (v : Z) :
  word v ->
  (v / 16777216) mod 256 * 16777216 + (v / 65536) mod 256 * 65536 +
  (v / 256) mod 256 * 256 + v mod 256 = v.
Proof.
  unfold word. intros H.
  assert (E1 : v / 65536 = v / 256 / 256)
    by (rewrite Z.div_div by lia; reflexivity).
  assert (E2 : v / 16777216 = v / 256 / 256 / 256)
    by (rewrite !Z.div_div by lia; reflexivity).
  rewrite E1, E2.
  pose proof (Z.div_mod v 256 ltac:(lia)).
  pose proof (Z.div_mod (v / 256) 256 ltac:(lia)).
  pose proof (Z.div_mod (v / 256 / 256) 256 ltac:(lia)).
  assert (v / 256 / 256 / 256 < 256).
  { rewrite <- E2. apply Z.div_lt_upper_bound; lia. }
  assert (0 <= v / 256 / 256 / 256) by (rewrite <- E2; apply Z.div_pos; lia).
  rewrite (Z.mod_small (v / 256 / 256 / 256)) by lia.
  lia.
Qed.

Lemma header_fields (ts code eventLength : Z) (rest : Buffer) :
  word ts -> word eventLength -> 0 <= code < 256 ->
  readInt (Wire.header ts code eventLength ++ rest) 0 = ts /\
  at_ (Wire.header ts code eventLength ++ rest) 4 = code /\
  readInt (Wire.header ts code eventLength ++ rest) 9 = eventLength /\
  len (Wire.header ts code eventLength) = 19.
Proof.
  intros Hts Hlen Hcode.
  unfold readInt, at_, Wire.header, Wire.le32, Wire.le16, Wire.bytes, len. simpl.
  rewrite !num_byte_of.
  rewrite (word_bytes _ Hts), (word_bytes _ Hlen).
  repeat split; try reflexivity. apply Z.mod_small. lia.
Qed.

Lemma readChunk_issues (s : Session) (size : Z) :
  ready s = true -> 0 < bytesWanted s -> stat s = Some size ->
  fileOffset s + bytesWanted s <= size ->
  readChunk s =
    {| outcome := Returned tt;
       after := set_pending PRead (set_ready false s);
       effects := [FsRead (bytesWanted s) (fileOffset s)] |}.
Proof.
  intros Hr Hb Hs Hle. unfold readChunk, bind, get. cbn.
  rewrite Hr. cbn.
  assert (Hz : (bytesWanted s =? 0) = false) by (apply Z.eqb_neq; lia).
  assert (Hneg : (bytesWanted s <? 0) = false) by (apply Z.ltb_ge; lia).
  rewrite Hz. cbn. rewrite Hs. cbn.
  apply Z.ltb_ge in Hle. rewrite Hle. cbn. rewrite Hneg. reflexivity.
Qed.

Lemma readChunk_refuses (s : Session) (size : Z) :
  ready s = true -> bytesWanted s < 0 -> stat s = Some size ->
  fileOffset s + bytesWanted s <= size ->
  readChunk s = throw RangeError (set_ready false s).
Proof.
  intros Hr Hb Hs Hle. unfold readChunk, bind, get. cbn.
  rewrite Hr. cbn.
  assert (Hz : (bytesWanted s =? 0) = false) by (apply Z.eqb_neq; lia).
  assert (Hneg : (bytesWanted s <? 0) = true) by (apply Z.ltb_lt; lia).
  rewrite Hz. cbn. rewrite Hs. cbn.
  apply Z.ltb_ge in Hle. rewrite Hle. cbn. rewrite Hneg. reflexivity.
Qed.

Lemma readChunk_defers (s : Session) (size : Z) :
  ready s = true -> bytesWanted s <> 0 -> stat s = Some size ->
  size < fileOffset s + bytesWanted s ->
  readChunk s = ret tt s.
Proof.
  intros Hr Hb Hs Hlt. unfold readChunk, bind, get. cbn.
  rewrite Hr. cbn. apply Z.eqb_neq in Hb. rewrite Hb. cbn. rewrite Hs. cbn.
  apply Z.ltb_lt in Hlt. rewrite Hlt. reflexivity.
Qed.

Lemma chunk_at (pre mid post : Buffer) :
  firstn (Z.to_nat (len mid)) (skipn (Z.to_nat (len pre)) (pre ++ mid ++ post)) = mid.
Proof.
  unfold len. rewrite !Nat2Z.id.
  rewrite skipn_app, skipn_all, Nat.sub_diag. cbn [skipn app].
  rewrite firstn_app, firstn_all, Nat.sub_diag. cbn [firstn]. apply app_nil_r.
Qed.

Lemma len_app (a b : Buffer) : len (a ++ b) = len a + len b.
Proof. unfold len. rewrite length_app. lia. Qed.

Lemma serve_answered (fuel : nat) (content : Buffer) (r r' : Run) (i : Input) :
  answer content (now r) = Some i ->
  deliver i r = Some r' ->
  serve (S fuel) content r = serve fuel content r'.
Proof. intros Ha Hd. cbn [serve]. rewrite Ha, Hd. reflexivity. Qed.

Lemma serve_quiet (fuel : nat) (content : Buffer) (r : Run) :
  pending (now r) = PNone -> serve fuel content r = r.
Proof.
  intros H. destruct fuel; [reflexivity|]. cbn [serve]. unfold answer. rewrite H.
  reflexivity.
Qed.

Lemma parser_fields (s : Session) li ai cb n off ffu x w :
  parser s = (li, ai, cb, n, off, ffu, x, w) ->
  lastInsertId s = li /\ autoIncrement s = ai /\ didReadCallback s = cb /\
  bytesWanted s = n /\ fileOffset s = off /\ fastForwardUntil s = ffu.
Proof. unfold parser. intros H. injection H. intros. auto 10. Qed.

Lemma parser_file (s : Session) li ai cb n off ffu d f ff w :
  parser s = (li, ai, cb, n, off, ffu, (d, f, ff), w) ->
  that_path s = d /\ file s = f /\ fastForward s = ff /\ waitingFor s = w.
Proof. unfold parser. intros H. injection H. intros. auto. Qed.

Lemma deliver_read (r : Run) (buffer : Buffer) :
  pending (now r) = PRead ->
  len buffer = bytesWanted (now r) ->
  deliver (ReadDone (Done buffer)) r =
    Some {| now := after (call (didReadCallback (now r)) buffer (completed (now r)));
            done := done r ++
                    effects (call (didReadCallback (now r)) buffer (completed (now r)));
            escaped := escaped r ++
                       match outcome (call (didReadCallback (now r)) buffer
                                        (completed (now r))) with
                       | Thrown e => [e]
                       | Returned _ => []
                       end |}.
Proof.
  intros Hp Hl. unfold deliver, step, is_pending. rewrite Hp.
  apply Z.eqb_eq in Hl. rewrite Hl. cbn [andb]. rewrite onRead_done. reflexivity.
Qed.

(** A [read] by a ready session that knows the size of its file: issued
    when the bytes are there, deferred when they are not. *)
Lemma read_turn (n : Z) (cb : Callback) (s : Session) (size : Z) :
  ready s = true -> 0 < n -> stat s = Some size ->
  exists s',
    read n cb s =
      {| outcome := Returned tt; after := s';
         effects := if size <? fileOffset s + n then [] else [FsRead n (fileOffset s)] |} /\
    parser s' =
      (lastInsertId s, autoIncrement s, Some cb, n, fileOffset s,
       fastForwardUntil s, (that_path s, file s, fastForward s), waitingFor s) /\
    stat s' = Some size /\ watching s' = watching s /\
    ((fileOffset s + n <= size /\ pending s' = PRead) \/
     (size < fileOffset s + n /\ pending s' = pending s /\ ready s' = true)).
Proof.
  intros Hr Hn Hs. unfold read, bind, modify. cbn.
  destruct (Z_le_gt_dec (fileOffset s + n) size) as [Hle|Hgt].
  - rewrite (readChunk_issues _ size); cbn; try assumption; try lia.
    assert (E : (size <? fileOffset s + n) = false) by (apply Z.ltb_ge; lia).
    rewrite E. eexists. split; [reflexivity|]. cbn. auto 10.
  - rewrite (readChunk_defers _ size); cbn; try assumption; try lia.
    assert (E : (size <? fileOffset s + n) = true) by (apply Z.ltb_lt; lia).
    rewrite E. eexists. split; [reflexivity|]. cbn. split; [reflexivity|].
    split; [assumption|]. split; [reflexivity|].
    right. split; [lia | split; [reflexivity | assumption]].
Qed.

Lemma onEvent_query_read (header : Buffer) (s : Session) :
  at_ header 4 = 2 ->
  fastForwarding s = false ->
  onEvent header s =
    read (readInt header 9 - len header) (cbQueryBody (readTimestamp header 0)) s.
Proof.
  intros Hc Hf. unfold onEvent, parseQueryEvent, bind, get. rewrite Hc. cbn.
  rewrite Hf. cbn. destruct (read _ _ s). reflexivity.
Qed.

Lemma onEvent_query_skip (header : Buffer) (s : Session) (size : Z) :
  at_ header 4 = 2 ->
  fastForwarding s = true ->
  ready s = true -> stat s = Some size ->
  exists s',
    onEvent header s =
      {| outcome := Returned tt; after := s';
         effects := if size <? fileOffset s + (readInt header 9 - len header) + 19
                    then []
                    else [FsRead 19 (fileOffset s + (readInt header 9 - len header))] |} /\
    parser s' =
      (lastInsertId s, autoIncrement s, Some cbEvent, 19,
       fileOffset s + (readInt header 9 - len header), fastForwardUntil s,
       (that_path s, file s, fastForward s), waitingFor s) /\
    stat s' = Some size /\ watching s' = watching s /\
    ((fileOffset s + (readInt header 9 - len header) + 19 <= size /\
      pending s' = PRead) \/
     (size < fileOffset s + (readInt header 9 - len header) + 19 /\
      pending s' = pending s /\ ready s' = true)).
Proof.
  intros Hc Hf Hr Hs.
  unfold onEvent, parseQueryEvent, expectEvent, skip, bind, get, modify.
  rewrite Hc. cbn. rewrite Hf. cbn.
  destruct (read_turn 19 cbEvent
              (set_fileOffset (fileOffset s + (readInt header 9 - len header)) s)
              size Hr ltac:(lia) Hs) as (s' & E & Hq & Hst & Hw & Hpend).
  rewrite E. exists s'. cbn. auto 10.
Qed.

Lemma onEvent_hint_read (header : Buffer) (s : Session) :
  at_ header 4 = 5 -> onEvent header s = read 9 cbAutoInt s.
Proof. intros Hc. unfold onEvent, parseAutoInt. rewrite Hc. reflexivity. Qed.

Lemma onQueryBody_turn (ts : Z) (body : Buffer) (s : Session) (size : Z) :
  ready s = true -> stat s = Some size ->
  exists s',
    onQueryBody ts body s =
      {| outcome := Returned tt; after := s';
         effects := Emit (Query ts (queryDb body) (queryText body) (carried s)) ::
                    (if size <? fileOffset s + 19 then [] else [FsRead 19 (fileOffset s)]) |} /\
    parser s' =
      (if carrySet s then None else lastInsertId s,
       if carrySet s then None else autoIncrement s,
       Some cbEvent, 19, fileOffset s, fastForwardUntil s,
       (that_path s, file s, fastForward s), waitingFor s) /\
    stat s' = Some size /\ watching s' = watching s /\
    ((fileOffset s + 19 <= size /\ pending s' = PRead) \/
     (size < fileOffset s + 19 /\ pending s' = pending s /\ ready s' = true)).
Proof.
  intros Hr Hs.
  unfold onQueryBody, expectEvent, bind, get, modify, emit, perform, ret,
    carried, carrySet.
  cbn.
  destruct (truthy (lastInsertId s) || truthy (autoIncrement s)); cbn.
  - destruct (read_turn 19 cbEvent (set_lastInsertId None (set_autoIncrement None s))
                size Hr ltac:(lia) Hs) as (s' & E & Hq & Hst & Hw & Hpend).
    rewrite E. exists s'. cbn. auto 10.
  - destruct (read_turn 19 cbEvent s size Hr ltac:(lia) Hs)
      as (s' & E & Hq & Hst & Hw & Hpend).
    rewrite E. exists s'. cbn. auto 10.
Qed.

Lemma onAutoInt_turn (body : Buffer) (s : Session) (size : Z) :
  ready s = true -> stat s = Some size ->
  exists s',
    onAutoInt body s =
      {| outcome := Returned tt; after := s';
         effects := if size <? fileOffset s + 19 then [] else [FsRead 19 (fileOffset s)] |} /\
    parser s' =
      (if at_ body 0 =? 1 then Some (readInt body 1) else lastInsertId s,
       if at_ body 0 =? 1 then autoIncrement s
       else if at_ body 0 =? 2 then Some (readInt body 1) else autoIncrement s,
       Some cbEvent, 19, fileOffset s, fastForwardUntil s,
       (that_path s, file s, fastForward s), waitingFor s) /\
    stat s' = Some size /\ watching s' = watching s /\
    ((fileOffset s + 19 <= size /\ pending s' = PRead) \/
     (size < fileOffset s + 19 /\ pending s' = pending s /\ ready s' = true)).
Proof.
  intros Hr Hs.
  unfold onAutoInt, expectEvent, bind, get, modify, ret.
  destruct (at_ body 0 =? 1); [|destruct (at_ body 0 =? 2)]; cbn.
  - destruct (read_turn 19 cbEvent (set_lastInsertId (Some (readInt body 1)) s)
                size Hr ltac:(lia) Hs) as (s' & E & Hq & Hst & Hw & Hpend).
    rewrite E. exists s'. cbn. auto 10.
  - destruct (read_turn 19 cbEvent (set_autoIncrement (Some (readInt body 1)) s)
                size Hr ltac:(lia) Hs) as (s' & E & Hq & Hst & Hw & Hpend).
    rewrite E. exists s'. cbn. auto 10.
  - destruct (read_turn 19 cbEvent s size Hr ltac:(lia) Hs)
      as (s' & E & Hq & Hst & Hw & Hpend).
    rewrite E. exists s'. cbn. auto 10.
Qed.

Lemma onHeader_magic (s : Session) :
  onHeader Wire.magic s = read 19 cbFirstEvent s.
Proof. reflexivity. Qed.

Lemma onFirstEvent_turn (header : Buffer) (s : Session) (size : Z) :
  ready s = true -> stat s = Some size -> at_ header 4 = 15 ->
  exists s',
    onFirstEvent header s =
      {| outcome := Returned tt; after := s';
         effects := Emit (Log (readTimestamp header 0) (file s)) ::
                    (if size <? fileOffset s + (readInt header 9 - 19) + 19 then []
                     else [FsRead 19 (fileOffset s + (readInt header 9 - 19))]) |} /\
    parser s' =
      (lastInsertId s, autoIncrement s, Some cbEvent, 19,
       fileOffset s + (readInt header 9 - 19), fastForwardUntil s,
       (that_path s, file s, fastForward s), waitingFor s) /\
    stat s' = Some size /\ watching s' = watching s /\
    ((fileOffset s + (readInt header 9 - 19) + 19 <= size /\ pending s' = PRead) \/
     (size < fileOffset s + (readInt header 9 - 19) + 19 /\ pending s' = pending s /\
      ready s' = true)).
Proof.
  intros Hr Hs Hc.
  unfold onFirstEvent, expectEvent, skip, bind, get, modify, emit, perform, ret.
  rewrite Hc. cbn.
  destruct (read_turn 19 cbEvent
              (set_fileOffset (fileOffset s + (readInt header 9 - 19)) s)
              size Hr ltac:(lia) Hs) as (s' & E & Hq & Hst & Hw & Hpend).
  rewrite E. exists s'. cbn. auto 10.
Qed.

Lemma answer_read (content pre mid post : Buffer) (s : Session) :
  content = pre ++ mid ++ post ->
  pending s = PRead ->
  bytesWanted s = len mid ->
  fileOffset s = len pre ->
  answer content s = Some (ReadDone (Done mid)).
Proof.
  intros -> Hp Hb Ho. unfold answer. rewrite Hp, Hb, Ho, chunk_at. reflexivity.
Qed.

(** One read in flight, answered with the bytes of the file at its
    position. *)
Lemma served_read (content pre mid post : Buffer) (fuel : nat) (r : Run) :
  content = pre ++ mid ++ post ->
  pending (now r) = PRead ->
  bytesWanted (now r) = len mid ->
  fileOffset (now r) = len pre ->
  serve (S fuel) content r =
    serve fuel content
      {| now := after (call (didReadCallback (now r)) mid (completed (now r)));
         done := done r ++
                 effects (call (didReadCallback (now r)) mid (completed (now r)));
         escaped := escaped r ++
                    match outcome (call (didReadCallback (now r)) mid
                                     (completed (now r))) with
                    | Thrown e => [e]
                    | Returned _ => []
                    end |}.
Proof.
  intros Hc Hp Hb Ho.
  apply (serve_answered fuel content r _ (ReadDone (Done mid))).
  - apply (answer_read content pre mid post); assumption.
  - apply deliver_read; [assumption | symmetry; assumption].
Qed.

Lemma notifications_request (b : bool) (n position : Z) :
  notifications (if b then [] else [FsRead n position]) = [].
Proof. destruct b; reflexivity. Qed.

Lemma encode_length (e : Event) : 19 <= len (encode e).
Proof.
  destruct e as [ts body|ts body]; cbn [encode]; unfold Wire.event;
    rewrite len_app; pose proof (len_nonneg body);
    change (len (Wire.header ts _ _)) with 19; lia.
Qed.

Lemma encoded_length (events : list Event) :
  19 * Z.of_nat (length events) <= len (concat (map encode events)).
Proof.
  induction events as [|e events IH]; cbn [map concat length].
  - unfold len. cbn. lia.
  - pose proof (encode_length e). rewrite len_app. lia.
Qed.

Lemma decode_unfold (dir file : Path) (fastForward : bool) (content : Buffer) :
  serve (enough content) content (start dir file fastForward) =
    decode dir file fastForward content.
Proof. reflexivity. Qed.

Lemma completed_skipping (limit : option Z) (position : Z) (s : Session) :
  fastForwardUntil s = limit ->
  fileOffset s = position ->
  bytesWanted s = 19 ->
  fastForwarding (completed s) = skipping limit position.
Proof.
  intros Hl Ho Hb. unfold fastForwarding, skipping. cbn. rewrite Hl, Ho, Hb.
  reflexivity.
Qed.

Lemma query_event_served (limit : option Z) (content pre post : Buffer) (ts : Z)
    (body : Buffer) (r : Run) (fuel : nat) :
  well_formed (QueryEvent ts body) ->
  content = pre ++ encode (QueryEvent ts body) ++ post ->
  fileOffset (now r) = len pre ->
  awaiting limit (len content) (now r) ->
  skipping limit (len pre) = false ->
  exists r',
    serve (S (S fuel)) content r = serve fuel content r' /\
    awaiting limit (len content) (now r') /\
    fileOffset (now r') = len (pre ++ encode (QueryEvent ts body)) /\
    lastInsertId (now r') =
      (if carrySet (now r) then None else lastInsertId (now r)) /\
    autoIncrement (now r') =
      (if carrySet (now r) then None else autoIncrement (now r)) /\
    published r' =
      published r ++
      [Query (ts * 1000) (queryDb body) (queryText body) (carried (now r))] /\
    escaped r' = escaped r /\
    that_path (now r') = that_path (now r).
Proof.
  intros (Hts & Hpos & Hlen) Hc Ho (Hcb & Hbw & Hst & Hffu & Hw & Hpend) Hskip.
  destruct (header_fields ts 2 (19 + len body) [] Hts Hlen ltac:(lia))
    as (Hf0 & Hf4 & Hf9 & Hf19).
  rewrite app_nil_r in Hf0, Hf4, Hf9.
  cbn [encode] in *. unfold Wire.event in *.
  remember (Wire.header ts 2 (19 + len body)) as header eqn:Hh.
  pose proof (len_nonneg post) as Hpost.
  assert (Hsize : len content = len pre + 19 + len body + len post)
    by (rewrite Hc, !len_app, Hf19; lia).
  destruct Hpend as [[_ Hp]|[Hlt _]]; [|lia].
  rewrite <- app_assoc in Hc.
  assert (Hff : fastForwarding (completed (now r)) = false)
    by (rewrite (completed_skipping limit (len pre)); assumption).
  assert (Hst0 : stat (completed (now r)) = Some (len content)) by exact Hst.
  destruct (read_turn (readInt header 9 - len header)
              (cbQueryBody (readTimestamp header 0)) (completed (now r))
              (len content) eq_refl ltac:(lia) Hst0)
    as (s1 & E1 & Hq1 & Hst1 & Hw1 & Hp1).
  pose proof (parser_file _ _ _ _ _ _ _ _ _ _ _ Hq1) as (Hpath1 & _).
  apply parser_fields in Hq1.
  destruct Hq1 as (Hli1 & Hai1 & Hcb1 & Hbw1 & Ho1 & Hffu1).
  assert (Hoff0 : fileOffset (completed (now r)) = len pre + 19)
    by (cbn; lia).
  rewrite Hoff0, Hf9, Hf19 in *.
  replace (19 + len body - 19) with (len body) in * by lia.
  destruct Hp1 as [[_ Hp1]|[Hlt _]]; [|lia].
  assert (Hst1' : stat (completed s1) = Some (len content)) by exact Hst1.
  destruct (onQueryBody_turn (readTimestamp header 0) body (completed s1)
              (len content) eq_refl Hst1')
    as (s2 & E2 & Hq2 & Hst2 & Hw2 & Hp2).
  pose proof (parser_file _ _ _ _ _ _ _ _ _ _ _ Hq2) as (Hpath2 & _).
  apply parser_fields in Hq2.
  destruct Hq2 as (Hli2 & Hai2 & Hcb2 & Hbw2 & Ho2 & Hffu2).
  assert (Hoff1 : fileOffset (completed s1) = len pre + 19 + len body)
    by (cbn; lia).
  rewrite Hoff1 in *.
  assert (Hcarry : carrySet (completed s1) = carrySet (now r))
    by (unfold carrySet; cbn; rewrite Hli1, Hai1; reflexivity).
  assert (Hmeta : carried (completed s1) = carried (now r))
    by (unfold carried, carrySet; cbn; rewrite Hli1, Hai1; reflexivity).
  rewrite Hcarry in *. rewrite Hmeta in *.
  assert (Hts0 : readTimestamp header 0 = ts * 1000)
    by (unfold readTimestamp; rewrite Hf0; reflexivity).
  rewrite Hts0 in *.
  cbn in Hw1, Hw2, Hffu1, Hffu2, Hli1, Hai1, Hli2, Hai2.
  eexists {| now := s2; done := _; escaped := _ |}.
  split; [|split; [|split; [|split; [|split; [|split; [|split]]]]]].
  - rewrite (served_read content pre header (body ++ post) (S fuel) r)
      by (try assumption; congruence).
    rewrite Hcb. cbn [call].
    rewrite (onEvent_query_read header _ Hf4 Hff), Hf9, Hf19.
    replace (19 + len body - 19) with (len body) by lia.
    rewrite Hts0, E1. cbn [after effects outcome].
    rewrite (served_read content (pre ++ header) body post fuel)
      by (cbn [now]; rewrite ?len_app, ?Hf19; try assumption;
          rewrite Hc, <- app_assoc; reflexivity).
    cbn [now]. rewrite Hcb1. cbn [call].
    rewrite E2. cbn [after effects outcome]. reflexivity.
  - cbn [now]. unfold awaiting. rewrite Hcb2, Hbw2, Hst2, Ho2.
    split; [reflexivity|]. split; [reflexivity|]. split; [reflexivity|].
    split; [congruence|]. split; [congruence|].
    destruct Hp2 as [[Hle Hp2]|(Hlt & Hp2 & Hr2)]; [left; auto|right].
    split; [assumption|]. rewrite Hp2. split; [reflexivity | assumption].
  - cbn [now]. rewrite Ho2, !len_app, Hf19. lia.
  - cbn [now]. rewrite Hli2, Hli1. reflexivity.
  - cbn [now]. rewrite Hai2, Hai1. reflexivity.
  - unfold published. cbn [done]. rewrite !notifications_app.
    cbn [notifications]. rewrite !notifications_request, !app_nil_r.
    reflexivity.
  - cbn [escaped]. rewrite !app_nil_r. reflexivity.
  - cbn [now]. cbn in *. congruence.
Qed.

Lemma query_event_skipped (limit : option Z) (content pre post : Buffer) (ts : Z)
    (body : Buffer) (r : Run) (fuel : nat) :
  well_formed (QueryEvent ts body) ->
  content = pre ++ encode (QueryEvent ts body) ++ post ->
  fileOffset (now r) = len pre ->
  awaiting limit (len content) (now r) ->
  skipping limit (len pre) = true ->
  exists r',
    serve (S fuel) content r = serve fuel content r' /\
    awaiting limit (len content) (now r') /\
    fileOffset (now r') = len (pre ++ encode (QueryEvent ts body)) /\
    lastInsertId (now r') = lastInsertId (now r) /\
    autoIncrement (now r') = autoIncrement (now r) /\
    done r' =
      done r ++
      (if len content <? len (pre ++ encode (QueryEvent ts body)) + 19 then []
       else [FsRead 19 (len (pre ++ encode (QueryEvent ts body)))]) /\
    escaped r' = escaped r /\
    that_path (now r') = that_path (now r).
Proof.
  intros (Hts & Hpos & Hlen) Hc Ho (Hcb & Hbw & Hst & Hffu & Hw & Hpend) Hskip.
  destruct (header_fields ts 2 (19 + len body) [] Hts Hlen ltac:(lia))
    as (Hf0 & Hf4 & Hf9 & Hf19).
  rewrite app_nil_r in Hf0, Hf4, Hf9.
  cbn [encode] in *. unfold Wire.event in *.
  remember (Wire.header ts 2 (19 + len body)) as header eqn:Hh.
  pose proof (len_nonneg post) as Hpost.
  assert (Hsize : len content = len pre + 19 + len body + len post)
    by (rewrite Hc, !len_app, Hf19; lia).
  destruct Hpend as [[_ Hp]|[Hlt _]]; [|lia].
  rewrite <- app_assoc in Hc.
  assert (Hff : fastForwarding (completed (now r)) = true)
    by (rewrite (completed_skipping limit (len pre)); assumption).
  assert (Hst0 : stat (completed (now r)) = Some (len content)) by exact Hst.
  destruct (onEvent_query_skip header (completed (now r)) (len content)
              Hf4 Hff eq_refl Hst0)
    as (s1 & E1 & Hq1 & Hst1 & Hw1 & Hp1).
  pose proof (parser_file _ _ _ _ _ _ _ _ _ _ _ Hq1) as (Hpath1 & _).
  apply parser_fields in Hq1.
  destruct Hq1 as (Hli1 & Hai1 & Hcb1 & Hbw1 & Ho1 & Hffu1).
  assert (Hoff0 : fileOffset (completed (now r)) = len pre + 19)
    by (cbn; lia).
  rewrite Hoff0, Hf9, Hf19 in *.
  replace (len pre + 19 + (19 + len body - 19)) with (len (pre ++ header ++ body))
    in * by (rewrite !len_app, Hf19; lia).
  cbn in Hw1, Hffu1, Hli1, Hai1.
  eexists {| now := s1; done := _; escaped := _ |}.
  split; [|split; [|split; [|split; [|split; [|split; [|split]]]]]].
  - rewrite (served_read content pre header (body ++ post) fuel r)
      by (try assumption; congruence).
    rewrite Hcb. cbn [call]. rewrite E1. cbn [after effects outcome]. reflexivity.
  - cbn [now]. unfold awaiting. rewrite Hcb1, Hbw1, Hst1, Ho1.
    split; [reflexivity|]. split; [reflexivity|]. split; [reflexivity|].
    split; [congruence|]. split; [congruence|].
    destruct Hp1 as [[Hle Hp1]|(Hlt & Hp1 & Hr1)]; [left; auto|right].
    split; [assumption|]. rewrite Hp1. split; [reflexivity | assumption].
  - cbn [now]. rewrite Ho1. reflexivity.
  - cbn [now]. rewrite Hli1. reflexivity.
  - cbn [now]. rewrite Hai1. reflexivity.
  - cbn [done]. reflexivity.
  - cbn [escaped]. rewrite !app_nil_r. reflexivity.
  - cbn [now]. cbn in *. congruence.
Qed.

Lemma hint_event_served (limit : option Z) (content pre post : Buffer) (ts : Z)
    (body : Buffer) (r : Run) (fuel : nat) :
  well_formed (HintEvent ts body) ->
  content = pre ++ encode (HintEvent ts body) ++ post ->
  fileOffset (now r) = len pre ->
  awaiting limit (len content) (now r) ->
  exists r',
    serve (S (S fuel)) content r = serve fuel content r' /\
    awaiting limit (len content) (now r') /\
    fileOffset (now r') = len (pre ++ encode (HintEvent ts body)) /\
    lastInsertId (now r') =
      (if at_ body 0 =? 1 then Some (readInt body 1) else lastInsertId (now r)) /\
    autoIncrement (now r') =
      (if at_ body 0 =? 1 then autoIncrement (now r)
       else if at_ body 0 =? 2 then Some (readInt body 1)
       else autoIncrement (now r)) /\
    published r' = published r /\
    escaped r' = escaped r /\
    that_path (now r') = that_path (now r).
Proof.
  intros (Hts & Hlb) Hc Ho (Hcb & Hbw & Hst & Hffu & Hw & Hpend).
  assert (Hlen : word (19 + len body)) by (rewrite Hlb; unfold word; lia).
  destruct (header_fields ts 5 (19 + len body) [] Hts Hlen ltac:(lia))
    as (Hf0 & Hf4 & Hf9 & Hf19).
  rewrite app_nil_r in Hf0, Hf4, Hf9.
  cbn [encode] in *. unfold Wire.event in *.
  remember (Wire.header ts 5 (19 + len body)) as header eqn:Hh.
  pose proof (len_nonneg post) as Hpost.
  assert (Hsize : len content = len pre + 19 + len body + len post)
    by (rewrite Hc, !len_app, Hf19; lia).
  destruct Hpend as [[_ Hp]|[Hlt _]]; [|lia].
  rewrite <- app_assoc in Hc.
  assert (Hst0 : stat (completed (now r)) = Some (len content)) by exact Hst.
  destruct (read_turn 9 cbAutoInt (completed (now r))
              (len content) eq_refl ltac:(lia) Hst0)
    as (s1 & E1 & Hq1 & Hst1 & Hw1 & Hp1).
  pose proof (parser_file _ _ _ _ _ _ _ _ _ _ _ Hq1) as (Hpath1 & _).
  apply parser_fields in Hq1.
  destruct Hq1 as (Hli1 & Hai1 & Hcb1 & Hbw1 & Ho1 & Hffu1).
  assert (Hoff0 : fileOffset (completed (now r)) = len pre + 19)
    by (cbn; lia).
  rewrite Hoff0 in *.
  destruct Hp1 as [[_ Hp1]|[Hlt _]]; [|lia].
  assert (Hst1' : stat (completed s1) = Some (len content)) by exact Hst1.
  destruct (onAutoInt_turn body (completed s1) (len content) eq_refl Hst1')
    as (s2 & E2 & Hq2 & Hst2 & Hw2 & Hp2).
  pose proof (parser_file _ _ _ _ _ _ _ _ _ _ _ Hq2) as (Hpath2 & _).
  apply parser_fields in Hq2.
  destruct Hq2 as (Hli2 & Hai2 & Hcb2 & Hbw2 & Ho2 & Hffu2).
  assert (Hoff1 : fileOffset (completed s1) = len pre + 19 + len body)
    by (cbn; lia).
  rewrite Hoff1 in *.
  cbn in Hw1, Hw2, Hffu1, Hffu2, Hli1, Hai1, Hli2, Hai2.
  eexists {| now := s2; done := _; escaped := _ |}.
  split; [|split; [|split; [|split; [|split; [|split; [|split]]]]]].
  - rewrite (served_read content pre header (body ++ post) (S fuel) r)
      by (try assumption; congruence).
    rewrite Hcb. cbn [call].
    rewrite (onEvent_hint_read header _ Hf4), E1. cbn [after effects outcome].
    rewrite (served_read content (pre ++ header) body post fuel)
      by (cbn [now]; rewrite ?len_app, ?Hf19; try assumption;
          try (rewrite Hc, <- app_assoc; reflexivity); congruence).
    cbn [now]. rewrite Hcb1. cbn [call].
    rewrite E2. cbn [after effects outcome]. reflexivity.
  - cbn [now]. unfold awaiting. rewrite Hcb2, Hbw2, Hst2, Ho2.
    split; [reflexivity|]. split; [reflexivity|]. split; [reflexivity|].
    split; [congruence|]. split; [congruence|].
    destruct Hp2 as [[Hle Hp2]|(Hlt & Hp2 & Hr2)]; [left; auto|right].
    split; [assumption|]. rewrite Hp2. split; [reflexivity | assumption].
  - cbn [now]. rewrite Ho2, !len_app, Hf19. lia.
  - cbn [now]. rewrite Hli2, Hli1. reflexivity.
  - cbn [now]. rewrite Hai2, Hai1. reflexivity.
  - unfold published. cbn [done]. rewrite !notifications_app.
    rewrite !notifications_request, !app_nil_r. reflexivity.
  - cbn [escaped]. rewrite !app_nil_r. reflexivity.
  - cbn [now]. cbn in *. congruence.
Qed.

Lemma encode_query_length (ts : Z) (body : Buffer) :
  len (encode (QueryEvent ts body)) = 19 + len body.
Proof. cbn [encode]. unfold Wire.event. rewrite len_app. reflexivity. Qed.

Lemma encode_hint_length (ts : Z) (body : Buffer) :
  len (encode (HintEvent ts body)) = 19 + len body.
Proof. cbn [encode]. unfold Wire.event. rewrite len_app. reflexivity. Qed.

(** The events of a well-formed log, served one after the other. *)
Lemma serve_events (limit : option Z) (content : Buffer) (events : list Event) :
  forall (pre : Buffer) (r : Run) (fuel : nat),
    Forall well_formed events ->
    content = pre ++ concat (map encode events) ->
    fileOffset (now r) = len pre ->
    awaiting limit (len content) (now r) ->
    (2 * length events <= fuel)%nat ->
    published (serve fuel content r) =
      published r ++
      decoded limit (len pre) (lastInsertId (now r)) (autoIncrement (now r)) events /\
    (lastInsertId (now (serve fuel content r)),
     autoIncrement (now (serve fuel content r))) =
      left_over limit (len pre) (lastInsertId (now r)) (autoIncrement (now r)) events /\
    fileOffset (now (serve fuel content r)) = len content /\
    awaiting limit (len content) (now (serve fuel content r)) /\
    escaped (serve fuel content r) = escaped r.
Proof.
  induction events as [|e events IH]; intros pre r fuel Hwf Hc Ho Haw Hfuel.
  - cbn in Hc. rewrite app_nil_r in Hc. subst content.
    pose proof Haw as (_ & _ & _ & _ & _ & [[Hle _]|(_ & Hp & _)]); [lia|].
    rewrite (serve_quiet _ _ _ Hp). cbn. rewrite app_nil_r. auto.
  - pose proof (Forall_inv Hwf) as He. pose proof (Forall_inv_tail Hwf) as Hrest.
    cbn [map concat] in Hc.
    destruct fuel as [|[|fuel]]; cbn [length] in Hfuel; try lia.
    assert (Hc' : content = (pre ++ encode e) ++ concat (map encode events))
      by (rewrite Hc, <- app_assoc; reflexivity).
    destruct e as [ts body|ts body]; cbn [decoded left_over].
    + pose proof (encode_query_length ts body) as Hl.
      replace (len pre + 19 + len body) with (len (pre ++ encode (QueryEvent ts body)))
        by (rewrite len_app; lia).
      destruct (skipping limit (len pre)) eqn:Hskip.
      * destruct (query_event_skipped limit content pre _ ts body r (S fuel)
                    He Hc Ho Haw Hskip)
          as (r' & Hs & Haw' & Ho' & Hli & Hai & Hdone & Hesc & _).
        destruct (IH _ r' (S fuel) Hrest Hc' Ho' Haw' ltac:(lia))
          as (Hpub' & Hleft' & Hoff' & Hfinal' & Hesc').
        rewrite Hs, Hpub', Hleft', Hli, Hai.
        split; [|split; [|split; [|split]]]; try assumption; try congruence.
        f_equal. unfold published. rewrite Hdone, notifications_app.
        rewrite notifications_request. apply app_nil_r.
      * destruct (query_event_served limit content pre _ ts body r fuel
                    He Hc Ho Haw Hskip)
          as (r' & Hs & Haw' & Ho' & Hli & Hai & Hpub & Hesc & _).
        destruct (IH _ r' fuel Hrest Hc' Ho' Haw' ltac:(lia))
          as (Hpub' & Hleft' & Hoff' & Hfinal' & Hesc').
        rewrite Hs, Hpub', Hleft', Hpub, Hli, Hai, <- app_assoc.
        unfold carried, carrySet.
        destruct (truthy (lastInsertId (now r)) || truthy (autoIncrement (now r)));
          (split; [|split; [|split; [|split]]]); try assumption; try reflexivity;
          try congruence.
    + pose proof (encode_hint_length ts body) as Hl.
      replace (len pre + 19 + len body) with (len (pre ++ encode (HintEvent ts body)))
        by (rewrite len_app; lia).
      destruct (hint_event_served limit content pre _ ts body r fuel He Hc Ho Haw)
        as (r' & Hs & Haw' & Ho' & Hli & Hai & Hpub & Hesc & _).
      destruct (IH _ r' fuel Hrest Hc' Ho' Haw' ltac:(lia))
        as (Hpub' & Hleft' & Hoff' & Hfinal' & Hesc').
      rewrite Hs, Hpub', Hleft', Hpub, Hli, Hai.
      destruct (at_ body 0 =? 1); [|destruct (at_ body 0 =? 2)];
        (split; [|split; [|split; [|split]]]); try assumption; try reflexivity;
          try congruence.
Qed.

Lemma start_state (dir file : Path) (fastForward : bool) :
  parser (now (start dir file fastForward)) =
    (None, None, Some cbHeader, 4, 0, None, (dir, file, fastForward), None) /\
  stat (now (start dir file fastForward)) = None /\
  pending (now (start dir file fastForward)) = PStat /\
  ready (now (start dir file fastForward)) = false /\
  done (start dir file fastForward) = [FsStat file] /\
  escaped (start dir file fastForward) = [].
Proof. destruct fastForward; vm_compute; auto 10. Qed.

(** [fs.stat] answered with a size. *)
Lemma stat_served (r : Run) (size : Z) :
  pending (now r) = PStat ->
  exists r',
    deliver (StatDone (Done size)) r = Some r' /\
    parser (now r') =
      (lastInsertId (now r), autoIncrement (now r), didReadCallback (now r),
       bytesWanted (now r), fileOffset (now r),
       if fastForward (now r) then Some size else fastForwardUntil (now r),
       (that_path (now r), file (now r), fastForward (now r)),
       waitingFor (now r)) /\
    stat (now r') = Some size /\ pending (now r') = POpen /\
    ready (now r') = ready (now r) /\
    done r' = done r ++ [FsOpen (file (now r))] /\ escaped r' = escaped r.
Proof.
  intros Hp. unfold deliver, step, is_pending. rewrite Hp.
  unfold onStat, bind, get, modify, perform, ret. cbn.
  destruct (fastForward (now r)) eqn:Hff; cbn;
    (eexists; split; [reflexivity|]); unfold parser; cbn;
    rewrite ?Hff, ?app_nil_r; auto 10.
Qed.

(** [fs.open] answered with a descriptor: the first read is issued when
    the file holds the bytes, and the listener on the file is
    registered. *)
Lemma open_served (r : Run) (size : Z) :
  pending (now r) = POpen ->
  stat (now r) = Some size ->
  0 < bytesWanted (now r) ->
  exists r',
    deliver (OpenDone (Done tt)) r = Some r' /\
    parser (now r') = parser (now r) /\
    stat (now r') = Some size /\
    watching (now r') = true /\
    ((fileOffset (now r) + bytesWanted (now r) <= size /\
      pending (now r') = PRead /\
      done r' = done r ++ [FsRead (bytesWanted (now r)) (fileOffset (now r));
                           FsWatch (file (now r))]) \/
     (size < fileOffset (now r) + bytesWanted (now r) /\
      pending (now r') = PNone /\ ready (now r') = true /\
      done r' = done r ++ [FsWatch (file (now r))])) /\
    escaped r' = escaped r.
Proof.
  intros Hp Hs Hb. unfold deliver, step, is_pending. rewrite Hp.
  unfold onOpen, bind, get, modify, perform, ret. cbn.
  destruct (Z_le_gt_dec (fileOffset (now r) + bytesWanted (now r)) size) as [Hle|Hgt].
  - rewrite (readChunk_issues _ size) by (cbn; first [reflexivity | assumption]). cbn.
    eexists; split; [reflexivity|]. cbn. rewrite app_nil_r.
    repeat split; try assumption. left. auto.
  - rewrite (readChunk_defers _ size) by (cbn; first [reflexivity | assumption | lia]).
    cbn.
    eexists; split; [reflexivity|]. cbn. rewrite app_nil_r.
    repeat split; try assumption. right. repeat split; auto. lia.
Qed.

(** The start of a session over a file that holds the magic bytes and a
    format description event, up to its ['log']. *)
Lemma opening_served (dir file : Path) (fastForward : bool) (tsF : Z)
    (fbody rest content : Buffer) (fuel : nat) :
  word tsF -> word (19 + len fbody) ->
  content = Wire.magic ++ Wire.event tsF 15 fbody ++ rest ->
  exists r,
    serve (S (S (S (S fuel)))) content (start dir file fastForward) =
      serve fuel content r /\
    awaiting (if fastForward then Some (len content) else None) (len content) (now r) /\
    fileOffset (now r) = len (Wire.magic ++ Wire.event tsF 15 fbody) /\
    lastInsertId (now r) = None /\ autoIncrement (now r) = None /\
    published r = [Log (tsF * 1000) file] /\
    escaped r = [] /\
    that_path (now r) = dir.
Proof.
  intros Hts Hlen Hc.
  destruct (header_fields tsF 15 (19 + len fbody) [] Hts Hlen ltac:(lia))
    as (Hf0 & Hf4 & Hf9 & Hf19).
  rewrite app_nil_r in Hf0, Hf4, Hf9.
  unfold Wire.event in *.
  remember (Wire.header tsF 15 (19 + len fbody)) as header eqn:Hh.
  assert (Hmagic : len Wire.magic = 4) by reflexivity.
  pose proof (len_nonneg fbody) as Hfb. pose proof (len_nonneg rest) as Hrest.
  assert (Hsize : len content = 4 + 19 + len fbody + len rest)
    by (rewrite Hc, !len_app, Hf19, Hmagic; lia).
  rewrite <- app_assoc in Hc.
  (* stream *)
  destruct (start_state dir file fastForward)
    as (Hq0 & Hst0 & Hp0 & Hr0 & Hd0 & He0).
  remember (start dir file fastForward) as r0 eqn:Hr0'. clear Hr0'.
  pose proof (parser_file _ _ _ _ _ _ _ _ _ _ _ Hq0) as (Hpath0 & Hfile0 & Hff0 & _).
  apply parser_fields in Hq0.
  destruct Hq0 as (Hli0 & Hai0 & Hcb0 & Hbw0 & Ho0 & Hffu0).
  (* fs.stat *)
  destruct (stat_served r0 (len content) Hp0)
    as (r1 & Hd1 & Hq1 & Hst1 & Hp1 & Hr1 & Hdone1 & Hesc1).
  rewrite Hff0, Hffu0 in Hq1.
  pose proof (parser_file _ _ _ _ _ _ _ _ _ _ _ Hq1) as (Hpath1 & Hfile1 & _ & _).
  apply parser_fields in Hq1.
  destruct Hq1 as (Hli1 & Hai1 & Hcb1 & Hbw1 & Ho1 & Hffu1).
  (* fs.open *)
  destruct (open_served r1 (len content) Hp1 Hst1 ltac:(lia))
    as (r2 & Hd2 & Hq2 & Hst2 & Hw2 & Hpend2 & Hesc2).
  destruct Hpend2 as [(_ & Hp2 & Hdone2)|(Hlt & _)]; [|lia].
  unfold parser in Hq2.
  pose proof (parser_file _ _ _ _ _ _ _ _ _ _ _ Hq2) as (Hpath2 & Hfile2 & _ & _).
  apply parser_fields in Hq2.
  destruct Hq2 as (Hli2 & Hai2 & Hcb2 & Hbw2 & Ho2 & Hffu2).
  (* the magic bytes *)
  assert (Hst2' : stat (completed (now r2)) = Some (len content)) by exact Hst2.
  destruct (read_turn 19 cbFirstEvent (completed (now r2)) (len content)
              eq_refl ltac:(lia) Hst2')
    as (s3 & E3 & Hq3 & Hst3 & Hw3 & Hpend3).
  assert (Hoff2 : fileOffset (completed (now r2)) = 4) by (cbn; lia).
  rewrite Hoff2 in *.
  destruct Hpend3 as [[_ Hp3]|[Hlt _]]; [|lia].
  pose proof (parser_file _ _ _ _ _ _ _ _ _ _ _ Hq3) as (Hpath3 & Hfile3 & _ & _).
  apply parser_fields in Hq3.
  destruct Hq3 as (Hli3 & Hai3 & Hcb3 & Hbw3 & Ho3 & Hffu3).
  cbn in Hli3, Hai3, Hffu3, Hfile3, Hw3, Hpath3.
  (* the first header *)
  assert (Hst3' : stat (completed s3) = Some (len content)) by exact Hst3.
  destruct (onFirstEvent_turn header (completed s3) (len content)
              eq_refl Hst3' Hf4)
    as (s4 & E4 & Hq4 & Hst4 & Hw4 & Hpend4).
  assert (Hoff3 : fileOffset (completed s3) = 4 + 19) by (cbn; lia).
  rewrite Hoff3, Hf9 in *.
  replace (19 + len fbody - 19) with (len fbody) in * by lia.
  assert (Hts0 : readTimestamp header 0 = tsF * 1000)
    by (unfold readTimestamp; rewrite Hf0; reflexivity).
  rewrite Hts0 in *.
  pose proof (parser_file _ _ _ _ _ _ _ _ _ _ _ Hq4) as (Hpath4 & _).
  apply parser_fields in Hq4.
  destruct Hq4 as (Hli4 & Hai4 & Hcb4 & Hbw4 & Ho4 & Hffu4).
  cbn in Hli4, Hai4, Hffu4, Hw4, Hpath4.
  eexists {| now := s4; done := _; escaped := _ |}.
  split; [|split; [|split; [|split; [|split; [|split; [|split]]]]]].
  - rewrite (serve_answered _ content r0 r1 (StatDone (Done (len content))))
      by (try assumption; unfold answer; rewrite Hp0; reflexivity).
    rewrite (serve_answered _ content r1 r2 (OpenDone (Done tt)))
      by (try assumption; unfold answer; rewrite Hp1; reflexivity).
    rewrite (served_read content [] Wire.magic (header ++ fbody ++ rest) (S fuel) r2)
      by (try assumption; change (len []) with 0; congruence).
    rewrite Hcb2, Hcb1, Hcb0. cbn [call].
    rewrite onHeader_magic, E3. cbn [after effects outcome].
    rewrite (served_read content Wire.magic header (fbody ++ rest) fuel)
      by (cbn [now]; try assumption; congruence).
    cbn [now]. rewrite Hcb3. cbn [call].
    rewrite E4. cbn [after effects outcome]. reflexivity.
  - cbn [now]. unfold awaiting. rewrite Hcb4, Hbw4, Hst4, Ho4.
    split; [reflexivity|]. split; [reflexivity|]. split; [reflexivity|].
    split; [congruence|]. split; [congruence|].
    destruct Hpend4 as [[Hle Hp4]|(Hlt & Hp4 & Hr4)]; [left; auto|right].
    split; [assumption|]. rewrite Hp4. split; [reflexivity | assumption].
  - cbn [now]. rewrite Ho4, !len_app, Hf19, Hmagic. lia.
  - cbn [now]. congruence.
  - cbn [now]. congruence.
  - unfold published. cbn [done]. rewrite Hdone2, Hdone1, Hd0.
    rewrite !notifications_app. cbn [notifications].
    rewrite !notifications_request. cbn. f_equal. f_equal. congruence.
  - cbn [escaped]. rewrite Hesc2, Hesc1, He0. reflexivity.
  - cbn [now]. congruence.
Qed.

(** A change of the file reported to a session that waits for a header
    it had to defer. *)
Lemma change_served (limit : option Z) (size size' : Z) (r : Run) :
  awaiting limit size (now r) ->
  pending (now r) = PNone ->
  exists r',
    deliver (FileChanged size') r = Some r' /\
    awaiting limit size' (now r') /\
    fileOffset (now r') = fileOffset (now r) /\
    lastInsertId (now r') = lastInsertId (now r) /\
    autoIncrement (now r') = autoIncrement (now r) /\
    published r' = published r /\
    escaped r' = escaped r.
Proof.
  intros (Hcb & Hbw & Hst & Hffu & Hw & Hpend) Hp.
  destruct Hpend as [[_ Hp']|(_ & _ & Hr)]; [congruence|].
  unfold deliver, step. rewrite Hw.
  unfold onChange, bind, modify. cbn.
  destruct (Z_le_gt_dec (fileOffset (now r) + 19) size') as [Hle|Hgt].
  - rewrite (readChunk_issues _ size')
      by (cbn; rewrite ?Hbw; first [reflexivity | assumption | lia]).
    cbn. eexists. split; [reflexivity|]. unfold awaiting, published. cbn.
    rewrite notifications_app, !app_nil_r.
    split; [|auto 10]. split; [assumption|]. split; [assumption|].
    split; [reflexivity|]. split; [assumption|]. split; [assumption|].
    left. auto.
  - rewrite (readChunk_defers _ size')
      by (cbn; rewrite ?Hbw; first [reflexivity | assumption | lia]).
    cbn. eexists. split; [reflexivity|]. unfold awaiting, published. cbn.
    rewrite !app_nil_r.
    split; [|auto 10]. split; [assumption|]. split; [assumption|].
    split; [reflexivity|]. split; [assumption|]. split; [assumption|].
    right. split; [lia|]. auto.
Qed.

Lemma decoded_plain (events : list Event) :
  forall position li ai,
    decoded None position li ai events = expected li ai events /\
    left_over None position li ai events =
      left_over None 0 li ai events.
Proof.
  induction events as [|[ts body|ts body] events IH]; intros position li ai;
    cbn [decoded left_over expected skipping].
  - auto.
  - destruct (truthy li || truthy ai).
    + destruct (IH (position + 19 + len body) None None) as [-> ->].
      destruct (IH (0 + 19 + len body) None None) as [_ ->]. auto.
    + destruct (IH (position + 19 + len body) li ai) as [-> ->].
      destruct (IH (0 + 19 + len body) li ai) as [_ ->]. auto.
  - destruct (at_ body 0 =? 1); [|destruct (at_ body 0 =? 2)].
    + destruct (IH (position + 19 + len body) (Some (readInt body 1)) ai) as [-> ->].
      destruct (IH (0 + 19 + len body) (Some (readInt body 1)) ai) as [_ ->]. auto.
    + destruct (IH (position + 19 + len body) li (Some (readInt body 1))) as [-> ->].
      destruct (IH (0 + 19 + len body) li (Some (readInt body 1))) as [_ ->]. auto.
    + destruct (IH (position + 19 + len body) li ai) as [-> ->].
      destruct (IH (0 + 19 + len body) li ai) as [_ ->]. auto.
Qed.

(** Beyond the threshold nothing is skipped. *)
Lemma decoded_past (l : Z) (events : list Event) :
  forall position li ai,
    l <= position + 19 ->
    decoded (Some l) position li ai events = expected li ai events.
Proof.
  induction events as [|[ts body|ts body] events IH]; intros position li ai Hp;
    cbn [decoded expected skipping].
  - reflexivity.
  - pose proof (len_nonneg body) as Hb.
    assert (E : (position + 19 <? l) = false) by (apply Z.ltb_ge; lia).
    rewrite E. rewrite !IH by lia. reflexivity.
  - pose proof (len_nonneg body) as Hb. rewrite !IH by lia. reflexivity.
Qed.

(** Below the threshold every query is skipped, and the hints alone
    decide the carry. *)
Lemma decoded_within (l : Z) (events : list Event) :
  forall position li ai,
    Forall well_formed events ->
    position + len (concat (map encode events)) <= l ->
    decoded (Some l) position li ai events = [] /\
    left_over (Some l) position li ai events = hinted li ai events.
Proof.
  induction events as [|[ts body|ts body] events IH];
    intros position li ai Hwf Hp; cbn [decoded left_over hinted skipping].
  - auto.
  - pose proof (Forall_inv Hwf) as (_ & Hpos & _).
    pose proof (Forall_inv_tail Hwf) as Hrest.
    cbn [map concat] in Hp. rewrite len_app, encode_query_length in Hp.
    pose proof (len_nonneg (concat (map encode events))).
    assert (E : (position + 19 <? l) = true) by (apply Z.ltb_lt; lia).
    rewrite E. apply IH; [assumption | lia].
  - pose proof (Forall_inv_tail Hwf) as Hrest.
    cbn [map concat] in Hp. rewrite len_app, encode_hint_length in Hp.
    destruct (at_ body 0 =? 1); [|destruct (at_ body 0 =? 2)];
      apply IH; (assumption || lia).
Qed.

Lemma decoded_app (limit : option Z) (first second : list Event) :
  forall position li ai,
    decoded limit position li ai (first ++ second) =
      decoded limit position li ai first ++
      decoded limit (position + len (concat (map encode first)))
        (fst (left_over limit position li ai first))
        (snd (left_over limit position li ai first)) second.
Proof.
  induction first as [|[ts body|ts body] first IH]; intros position li ai;
    cbn [decoded left_over app map concat].
  - change (len []) with 0. rewrite Z.add_0_r. reflexivity.
  - rewrite len_app, encode_query_length, !Z.add_assoc.
    destruct (skipping limit position); [apply IH|].
    destruct (truthy li || truthy ai); cbn [app]; rewrite IH; reflexivity.
  - rewrite len_app, encode_hint_length, !Z.add_assoc.
    destruct (at_ body 0 =? 1); [|destruct (at_ body 0 =? 2)]; apply IH.
Qed.

Lemma binlog_length (ts : Z) (description : Buffer) (events : list Event) :
  len (binlog ts description events) =
    len (Wire.magic ++ Wire.event ts 15 description) +
    len (concat (map encode events)) /\
  len (Wire.magic ++ Wire.event ts 15 description) = 23 + len description.
Proof.
  unfold binlog, Wire.event. rewrite !len_app.
  change (len Wire.magic) with 4. change (len (Wire.header ts 15 _)) with 19. lia.
Qed.

Lemma binlog_app (ts : Z) (description : Buffer) (first second : list Event) :
  binlog ts description (first ++ second) =
    binlog ts description first ++ concat (map encode second).
Proof.
  unfold binlog. rewrite map_app, concat_app, <- !app_assoc. reflexivity.
Qed.

Lemma enough_fuel (ts : Z) (description : Buffer) (events : list Event) :
  exists fuel,
    enough (binlog ts description events) = S (S (S (S fuel))) /\
    (2 * length events <= fuel)%nat.
Proof.
  destruct (binlog_length ts description events) as [Hl Hh].
  pose proof (encoded_length events) as He.
  pose proof (len_nonneg description) as Hd.
  unfold enough. unfold len in *.
  exists (length (binlog ts description events) - 1)%nat. lia.
Qed.

(** A complete log, decoded from the start of the session. *)
Lemma decode_log (dir file : Path) (fastForward : bool) (ts : Z)
    (description : Buffer) (events : list Event) (limit : option Z) :
  word ts -> word (19 + len description) ->
  Forall well_formed events ->
  limit = (if fastForward then Some (len (binlog ts description events)) else None) ->
  published (decode dir file fastForward (binlog ts description events)) =
    Log (ts * 1000) file ::
    decoded limit (23 + len description) None None events /\
  (lastInsertId (now (decode dir file fastForward (binlog ts description events))),
   autoIncrement (now (decode dir file fastForward (binlog ts description events)))) =
    left_over limit (23 + len description) None None events /\
  fileOffset (now (decode dir file fastForward (binlog ts description events))) =
    len (binlog ts description events) /\
  awaiting limit (len (binlog ts description events))
    (now (decode dir file fastForward (binlog ts description events))) /\
  escaped (decode dir file fastForward (binlog ts description events)) = [].
Proof.
  intros Hts Hlen Hwf Hlimit.
  destruct (binlog_length ts description events) as [Hl Hh].
  destruct (enough_fuel ts description events) as (fuel & Hfuel & Hle).
  unfold decode. rewrite Hfuel.
  remember (binlog ts description events) as content eqn:Hc.
  destruct (opening_served dir file fastForward ts description
              (concat (map encode events)) content fuel Hts Hlen Hc)
    as (r & Hs & Haw & Ho & Hli & Hai & Hpub & Hesc & _).
  rewrite <- Hlimit in Haw.
  assert (Hc' : content = (Wire.magic ++ Wire.event ts 15 description) ++
                          concat (map encode events))
    by (rewrite Hc; unfold binlog; rewrite <- app_assoc; reflexivity).
  destruct (serve_events limit content events _ r fuel Hwf Hc' Ho Haw Hle)
    as (Hpub' & Hleft' & Hoff' & Haw' & Hesc').
  rewrite Hs, Hpub', Hleft', Hpub, Hli, Hai, Hh.
  split; [reflexivity|]. split; [reflexivity|]. split; [assumption|].
  split; [assumption|]. congruence.
Qed.

Ltac well_formed_events :=
  repeat constructor; unfold word, len; simpl; lia.

(** A complete log, and events appended to it once the session has
    reached its end. *)
Lemma decode_log_appended (dir file : Path) (fastForward : bool) (ts : Z)
    (description : Buffer) (events appended : list Event) (limit : option Z) :
  word ts -> word (19 + len description) ->
  Forall well_formed events -> Forall well_formed appended ->
  limit = (if fastForward then Some (len (binlog ts description events)) else None) ->
  exists r,
    decode_appended dir file fastForward (binlog ts description events)
      (concat (map encode appended)) = Some r /\
    published r =
      Log (ts * 1000) file ::
      decoded limit (23 + len description) None None (events ++ appended) /\
    fileOffset (now r) = len (binlog ts description (events ++ appended)) /\
    awaiting limit (len (binlog ts description (events ++ appended))) (now r) /\
    escaped r = [].
Proof.
  intros Hts Hlen Hwf Hwf' Hlimit.
  destruct (decode_log dir file fastForward ts description events limit
              Hts Hlen Hwf Hlimit)
    as (Hpub & Hleft & Hoff & Haw & Hesc).
  destruct (binlog_length ts description events) as [Hl Hh].
  unfold decode_appended.
  remember (decode dir file fastForward (binlog ts description events)) as r0 eqn:E0.
  clear E0.
  rewrite <- binlog_app.
  remember (binlog ts description events) as before eqn:Hb.
  remember (binlog ts description (events ++ appended)) as content eqn:Hc.
  assert (Hp : pending (now r0) = PNone).
  { destruct Haw as (_ & _ & _ & _ & _ & [[Hle _]|(_ & Hp & _)]); [lia | assumption]. }
  destruct (change_served limit (len before) (len content) r0 Haw Hp)
    as (r1 & Hd & Haw1 & Ho1 & Hli1 & Hai1 & Hpub1 & Hesc1).
  rewrite Hd. eexists. split; [reflexivity|].
  assert (Hc' : content = before ++ concat (map encode appended))
    by (rewrite Hc, Hb; apply binlog_app).
  assert (Hfuel : (2 * length appended <= enough content)%nat).
  { pose proof (encoded_length appended) as He.
    pose proof (len_nonneg before) as Hn.
    assert (Hlc : len content = len before + len (concat (map encode appended)))
      by (rewrite Hc', len_app; reflexivity).
    unfold enough. unfold len in *. lia. }
  destruct (serve_events limit content appended before r1 (enough content)
              Hwf' Hc' ltac:(congruence) Haw1 Hfuel)
    as (Hpub' & Hleft' & Hoff' & Haw' & Hesc').
  rewrite Hpub', Hpub1, Hpub, Hli1, Hai1.
  split; [|split; [assumption|split; [assumption|congruence]]].
  rewrite decoded_app. cbn [app]. f_equal. f_equal.
  rewrite <- Hleft. cbn [fst snd]. rewrite Hl, Hh. reflexivity.
Qed.

(** X1.  A log of query and auto-increment events that is complete when
    the session starts, decoded without fast-forward: ['log'] for the file,
    then one ['query'] per query event in file order, each with the carry
    the hints before it left; the cursor ends at the end of the file with
    no request outstanding, and nothing is thrown. *)
Theorem log_decoded (dir file : Path) (ts : Z) (description : Buffer)
    (events : list Event) :
  word ts -> word (19 + len description) ->
  Forall well_formed events ->
  published (decode dir file false (binlog ts description events)) =
    Log (ts * 1000) file :: expected None None events /\
  fileOffset (now (decode dir file false (binlog ts description events))) =
    len (binlog ts description events) /\
  pending (now (decode dir file false (binlog ts description events))) = PNone /\
  escaped (decode dir file false (binlog ts description events)) = [].
Proof.
  intros Hts Hlen Hwf.
  destruct (decode_log dir file false ts description events None
              Hts Hlen Hwf eq_refl)
    as (Hpub & _ & Hoff & Haw & Hesc).
  destruct (decoded_plain events (23 + len description) None None) as [Hd _].
  rewrite Hpub, Hd. repeat split; try assumption.
  destruct Haw as (_ & _ & _ & _ & _ & [[Hle _]|(_ & Hp & _)]); [lia | assumption].
Qed.

Lemma log_decoded_witness :
  published (decode Vectors.dir Vectors.log1 false (binlog 99 [] hintThenQuery)) =
    Log 99000 Vectors.log1 :: expected None None hintThenQuery /\
  fileOffset (now (decode Vectors.dir Vectors.log1 false (binlog 99 [] hintThenQuery))) =
    len (binlog 99 [] hintThenQuery) /\
  pending (now (decode Vectors.dir Vectors.log1 false (binlog 99 [] hintThenQuery))) =
    PNone /\
  escaped (decode Vectors.dir Vectors.log1 false (binlog 99 [] hintThenQuery)) = [].
Proof.
  apply (log_decoded Vectors.dir Vectors.log1 99 [] hintThenQuery).
  - unfold word; lia.
  - unfold word, len; simpl; lia.
  - well_formed_events.
Defined.

(** X2.  Events appended to a log the session has read to its end are
    decoded as if they had been in the file from the start: the carry of
    the old events reaches the queries among the new ones. *)
Theorem appended_events_decoded (dir file : Path) (ts : Z) (description : Buffer)
    (events appended : list Event) :
  word ts -> word (19 + len description) ->
  Forall well_formed events -> Forall well_formed appended ->
  exists r,
    decode_appended dir file false (binlog ts description events)
      (concat (map encode appended)) = Some r /\
    published r = Log (ts * 1000) file :: expected None None (events ++ appended) /\
    published r =
      published (decode dir file false (binlog ts description (events ++ appended))) /\
    fileOffset (now r) = len (binlog ts description (events ++ appended)) /\
    escaped r = [].
Proof.
  intros Hts Hlen Hwf Hwf'.
  destruct (decode_log_appended dir file false ts description events appended None
              Hts Hlen Hwf Hwf' eq_refl)
    as (r & Hd & Hpub & Hoff & _ & Hesc).
  destruct (decoded_plain (events ++ appended) (23 + len description) None None)
    as [He _].
  destruct (decode_log dir file false ts description (events ++ appended) None
              Hts Hlen ltac:(apply Forall_app; auto) eq_refl)
    as (Hwhole & _).
  exists r. rewrite Hpub, Hwhole, He. auto.
Qed.

Lemma appended_events_decoded_witness :
  exists r,
    decode_appended Vectors.dir Vectors.log1 false (binlog 99 [] hintThenQuery)
      (concat (map encode laterQuery)) = Some r /\
    published r =
      Log 99000 Vectors.log1 :: expected None None (hintThenQuery ++ laterQuery) /\
    published r =
      published (decode Vectors.dir Vectors.log1 false
                   (binlog 99 [] (hintThenQuery ++ laterQuery))) /\
    fileOffset (now r) = len (binlog 99 [] (hintThenQuery ++ laterQuery)) /\
    escaped r = [].
Proof.
  apply (appended_events_decoded Vectors.dir Vectors.log1 99 [] hintThenQuery
           laterQuery).
  - unfold word; lia.
  - unfold word, len; simpl; lia.
  - well_formed_events.
  - well_formed_events.
Defined.

(** X3.  With [fastForward], a log that is complete when the session
    starts publishes its ['log'] and no query: every query event lies
    below the size [fs.stat] reported and is skipped, while the hints are
    still read and leave their carry. *)
Theorem fast_forward_publishes_no_query (dir file : Path) (ts : Z)
    (description : Buffer) (events : list Event) :
  word ts -> word (19 + len description) ->
  Forall well_formed events ->
  published (decode dir file true (binlog ts description events)) =
    [Log (ts * 1000) file] /\
  (lastInsertId (now (decode dir file true (binlog ts description events))),
   autoIncrement (now (decode dir file true (binlog ts description events)))) =
    hinted None None events /\
  fileOffset (now (decode dir file true (binlog ts description events))) =
    len (binlog ts description events) /\
  escaped (decode dir file true (binlog ts description events)) = [].
Proof.
  intros Hts Hlen Hwf.
  destruct (decode_log dir file true ts description events _
              Hts Hlen Hwf eq_refl)
    as (Hpub & Hleft & Hoff & _ & Hesc).
  destruct (binlog_length ts description events) as [Hl Hh].
  destruct (decoded_within (len (binlog ts description events)) events
              (23 + len description) None None Hwf ltac:(lia)) as [Hd Hc].
  rewrite Hpub, Hleft, Hd, Hc. auto.
Qed.

Lemma fast_forward_publishes_no_query_witness :
  published (decode Vectors.dir Vectors.log1 true (binlog 99 [] hintThenQuery)) =
    [Log 99000 Vectors.log1] /\
  (lastInsertId (now (decode Vectors.dir Vectors.log1 true (binlog 99 [] hintThenQuery))),
   autoIncrement (now (decode Vectors.dir Vectors.log1 true (binlog 99 [] hintThenQuery)))) =
    hinted None None hintThenQuery /\
  fileOffset (now (decode Vectors.dir Vectors.log1 true (binlog 99 [] hintThenQuery))) =
    len (binlog 99 [] hintThenQuery) /\
  escaped (decode Vectors.dir Vectors.log1 true (binlog 99 [] hintThenQuery)) = [].
Proof.
  apply (fast_forward_publishes_no_query Vectors.dir Vectors.log1 99 []
           hintThenQuery).
  - unfold word; lia.
  - unfold word, len; simpl; lia.
  - well_formed_events.
Defined.

(** X4.  With [fastForward], queries appended after the session started
    are published, none of them skipped; the first of them is given the
    carry the hints of the old part of the file left, whatever queries
    followed those hints there. *)
Theorem fast_forward_then_appended (dir file : Path) (ts : Z)
    (description : Buffer) (events appended : list Event) :
  word ts -> word (19 + len description) ->
  Forall well_formed events -> Forall well_formed appended ->
  exists r,
    decode_appended dir file true (binlog ts description events)
      (concat (map encode appended)) = Some r /\
    published r =
      Log (ts * 1000) file ::
      expected (fst (hinted None None events)) (snd (hinted None None events))
        appended /\
    fileOffset (now r) = len (binlog ts description (events ++ appended)) /\
    escaped r = [].
Proof.
  intros Hts Hlen Hwf Hwf'.
  destruct (decode_log_appended dir file true ts description events appended _
              Hts Hlen Hwf Hwf' eq_refl)
    as (r & Hd & Hpub & Hoff & _ & Hesc).
  destruct (binlog_length ts description events) as [Hl Hh].
  destruct (decoded_within (len (binlog ts description events)) events
              (23 + len description) None None Hwf ltac:(lia)) as [Hn Hc].
  exists r. rewrite Hpub, decoded_app, Hn, Hc. cbn [app].
  rewrite decoded_past by lia. auto.
Qed.

Lemma fast_forward_then_appended_witness :
  exists r,
    decode_appended Vectors.dir Vectors.log1 true (binlog 99 [] hintThenQuery)
      (concat (map encode laterQuery)) = Some r /\
    published r =
      Log 99000 Vectors.log1 ::
      expected (fst (hinted None None hintThenQuery))
        (snd (hinted None None hintThenQuery)) laterQuery /\
    fileOffset (now r) = len (binlog 99 [] (hintThenQuery ++ laterQuery)) /\
    escaped r = [].
Proof.
  apply (fast_forward_then_appended Vectors.dir Vectors.log1 99 [] hintThenQuery
           laterQuery).
  - unfold word; lia.
  - unfold word, len; simpl; lia.
  - well_formed_events.
  - well_formed_events.
Defined.

(* ------------------------------------------------------------------ *)
(** ** The index *)

Ltac plain_text_close :=
  unfold plain_text; repeat (constructor; [vm_compute; split; reflexivity|]);
  constructor.

(** What [path.join] makes of the names an index or a rotate event can
    hold: a plain name is put behind the directory, "./" before it is
    dropped, an empty name gives the directory, and the directories "."
    and "/" do not double. *)
Lemma path_join_normalises :
  path_join Vectors.dir Vectors.name2 = Wire.text "/var/lib/mysql/bin.000002"%string /\
  path_join Vectors.dir Vectors.dotName2 = Wire.text "/var/lib/mysql/bin.000002"%string /\
  path_join Vectors.dir [] = Vectors.dir /\
  path_join (Wire.text "."%string) Vectors.name2 = Vectors.name2 /\
  path_join (Wire.text "/"%string) Vectors.name2 = Wire.text "/bin.000002"%string /\
  path_join Vectors.dir (Wire.text "../backup/bin.000002"%string) =
    Wire.text "/var/lib/backup/bin.000002"%string.
Proof. vm_compute. repeat split; reflexivity. Qed.

Lemma split_nonempty (data : Buffer) : split data <> [].
Proof.
  destruct data as [|b rest]; cbn [split]; [discriminate|].
  destruct (Byte.eqb b x0a); [discriminate|].
  destruct (split rest); discriminate.
Qed.

Lemma split_line (name : Path) : ~ In x0a name -> split name = [name].
Proof.
  induction name as [|b name IH]; intros Hn; cbn [split]; [reflexivity|].
  destruct (Byte.eqb b x0a) eqn:E.
  - apply Byte.byte_dec_bl in E. subst b. exfalso. apply Hn. left. reflexivity.
  - rewrite IH by (intros H; apply Hn; right; exact H). reflexivity.
Qed.

Lemma split_app (a b : Buffer) :
  split (a ++ x0a :: b) = split a ++ split b.
Proof.
  induction a as [|c a IH]; cbn [split app].
  - reflexivity.
  - destruct (Byte.eqb c x0a); rewrite IH; [reflexivity|].
    pose proof (split_nonempty a) as Hn.
    destruct (split a) as [|line lines]; [contradiction|]. reflexivity.
Qed.

Lemma split_newlines (k : nat) : split (repeat x0a k) = repeat [] (S k).
Proof. induction k as [|k IH]; cbn [repeat split]; [|rewrite IH]; reflexivity. Qed.

Lemma pop_latest_empty (k : nat) (lines : list Path) :
  pop_latest (repeat [] k ++ lines) = pop_latest lines.
Proof. induction k as [|k IH]; cbn [repeat app pop_latest]; auto. Qed.

Lemma rev_repeat (A : Type) (a : A) (k : nat) : rev (repeat a k) = repeat a k.
Proof.
  induction k as [|k IH]; cbn [repeat rev]; [reflexivity|].
  rewrite IH. clear IH. induction k as [|k IH]; cbn [repeat app]; [reflexivity|].
  rewrite IH. reflexivity.
Qed.

Lemma split_name_newlines (name : Path) (k : nat) :
  ~ In x0a name ->
  split (name ++ repeat x0a k) = name :: repeat [] k.
Proof.
  intros Hn. destruct k as [|k]; cbn [repeat].
  - rewrite app_nil_r. apply split_line. exact Hn.
  - rewrite split_app, split_line, split_newlines by exact Hn. reflexivity.
Qed.

Lemma latest_name (name : Path) (k : nat) (before : list Path) :
  name <> [] ->
  pop_latest (rev (before ++ name :: repeat [] k)) = Some name.
Proof.
  intros Hne. rewrite rev_app_distr. cbn [rev].
  rewrite rev_repeat, <- !app_assoc, pop_latest_empty. cbn [app].
  destruct name; [contradiction|reflexivity].
Qed.

Lemma latest_last_line (name : Path) (k : nat) :
  name <> [] -> ~ In x0a name ->
  latest (name ++ repeat x0a k) = Some name.
Proof.
  intros Hne Hn. unfold latest. rewrite (split_name_newlines name k Hn).
  exact (latest_name name k [] Hne).
Qed.

Lemma latest_after (earlier name : Path) (k : nat) :
  name <> [] -> ~ In x0a name ->
  latest (earlier ++ x0a :: name ++ repeat x0a k) = Some name.
Proof.
  intros Hne Hn. unfold latest.
  rewrite split_app, (split_name_newlines name k Hn).
  exact (latest_name name k (split earlier) Hne).
Qed.

(** X5.  The file the constructor streams is named by the last line of
    the index that is not empty: newlines at the end of the index are
    ignored, and so are the names before the last.  The path streamed is
    [path.join] of the directory of the index and that line, normalised as
    [path.join] does; the session is started with [fastForward].  The line
    is taken to be ASCII, so that its bytes are the characters
    [fs.readFile(index, 'utf-8')] hands over. *)
Theorem index_names_latest_log
    (dir : Path) (earlier name : Buffer) (k : nat) :
  name <> [] -> ~ In x0a name -> plain_text name ->
  onIndex dir (Done (name ++ repeat x0a k)) =
    Tailing (start dir (path_join dir name) true) /\
  onIndex dir (Done (earlier ++ x0a :: name ++ repeat x0a k)) =
    Tailing (start dir (path_join dir name) true).
Proof.
  intros Hne Hn _. unfold onIndex.
  rewrite (latest_last_line name k Hne Hn), (latest_after earlier name k Hne Hn).
  split; reflexivity.
Qed.

Lemma index_names_latest_log_witness :
  onIndex Vectors.dir (Done (Vectors.dotName2 ++ repeat x0a 2)) =
    Tailing (start Vectors.dir (path_join Vectors.dir Vectors.dotName2) true) /\
  onIndex Vectors.dir
    (Done (Wire.text "./bin.000001"%string ++ x0a ::
           Vectors.dotName2 ++ repeat x0a 2)) =
    Tailing (start Vectors.dir (path_join Vectors.dir Vectors.dotName2) true).
Proof.
  apply (index_names_latest_log Vectors.dir (Wire.text "./bin.000001"%string)
           Vectors.dotName2 2).
  - discriminate.
  - vm_compute. intuition discriminate.
  - plain_text_close.
Defined.

Lemma pop_latest_none (lines : list Path) :
  pop_latest lines = None <-> Forall (fun line => line = []) lines.
Proof.
  induction lines as [|line lines IH]; cbn [pop_latest].
  - split; [constructor | reflexivity].
  - destruct line as [|b line].
    + rewrite IH. split; [intros H; constructor; auto | intros H; exact (Forall_inv_tail H)].
    + split; [discriminate | intros H; apply Forall_inv in H; discriminate].
Qed.

Lemma split_all_empty (data : Buffer) :
  Forall (fun line => line = []) (split data) <-> Forall (fun b => b = x0a) data.
Proof.
  induction data as [|b data IH]; cbn [split].
  - split; intros _; repeat constructor.
  - destruct (Byte.eqb b x0a) eqn:E.
    + apply Byte.byte_dec_bl in E. subst b. split; intros H.
      * constructor; [reflexivity|]. apply IH. exact (Forall_inv_tail H).
      * constructor; [reflexivity|]. apply IH. exact (Forall_inv_tail H).
    + pose proof (split_nonempty data) as Hn.
      destruct (split data) as [|line lines]; [contradiction|].
      split; intros H.
      * apply Forall_inv in H. discriminate.
      * apply Forall_inv in H. subst b. cbn in E. discriminate.
Qed.

(** X6.  The constructor reports 'No binlogs?' exactly when the index
    names no file, that is, when it holds nothing but newlines; it starts
    no session then. *)
Theorem no_binlogs_iff (dir : Path) (data : Buffer) :
  onIndex dir (Done data) = NoBinlogs <-> Forall (fun b => b = x0a) data.
Proof.
  unfold onIndex, latest. rewrite <- split_all_empty.
  destruct (pop_latest (rev (split data))) as [name|] eqn:E.
  - split; [discriminate|]. intros H.
    assert (Hr : Forall (fun line => line = []) (rev (split data)))
      by (apply Forall_rev; exact H).
    apply pop_latest_none in Hr. congruence.
  - split; [|reflexivity]. intros _.
    apply pop_latest_none in E. apply Forall_rev in E.
    rewrite rev_involutive in E. exact E.
Qed.

Lemma no_binlogs_iff_witness :
  onIndex Vectors.dir (Done [x0a; x0a]) = NoBinlogs.
Proof. apply (no_binlogs_iff Vectors.dir [x0a; x0a]). repeat constructor. Defined.

(** X7.  A tailer constructed on an index whose latest log is complete
    publishes the ['log'] of that file, under the path [path.join] makes
    of the directory of the index and the last line of the index, and none
    of the queries already in it.  The line is taken to be ASCII. *)
Theorem tailer_skips_what_is_there
    (dir : Path) (name : Path) (k : nat) (ts : Z) (description : Buffer)
    (events : list Event) :
  name <> [] -> ~ In x0a name -> plain_text name ->
  word ts -> word (19 + len description) ->
  Forall well_formed events ->
  exists r,
    onIndex dir (Done (name ++ repeat x0a k)) = Tailing r /\
    published (serve (enough (binlog ts description events))
                 (binlog ts description events) r) =
      [Log (ts * 1000) (path_join dir name)] /\
    escaped (serve (enough (binlog ts description events))
               (binlog ts description events) r) = [].
Proof.
  intros Hne Hn _ Hts Hlen Hwf. unfold onIndex.
  rewrite (latest_last_line name k Hne Hn).
  exists (start dir (path_join dir name) true). split; [reflexivity|].
  rewrite decode_unfold.
  destruct (decode_log dir (path_join dir name) true ts description events _
              Hts Hlen Hwf eq_refl)
    as (Hpub & _ & _ & _ & Hesc).
  destruct (binlog_length ts description events) as [Hl Hh].
  destruct (decoded_within (len (binlog ts description events)) events
              (23 + len description) None None Hwf ltac:(lia)) as [Hd _].
  rewrite Hpub, Hd. auto.
Qed.

Lemma tailer_skips_what_is_there_witness :
  exists r,
    onIndex Vectors.dir (Done (Vectors.dotName2 ++ repeat x0a 1)) = Tailing r /\
    published (serve (enough (binlog 99 [] hintThenQuery))
                 (binlog 99 [] hintThenQuery) r) =
      [Log (99 * 1000) (path_join Vectors.dir Vectors.dotName2)] /\
    escaped (serve (enough (binlog 99 [] hintThenQuery))
               (binlog 99 [] hintThenQuery) r) = [].
Proof.
  apply (tailer_skips_what_is_there Vectors.dir Vectors.dotName2 1 99 []
           hintThenQuery).
  - discriminate.
  - vm_compute. intuition discriminate.
  - plain_text_close.
  - unfold word; lia.
  - unfold word, len; simpl; lia.
  - well_formed_events.
Defined.

(* ------------------------------------------------------------------ *)
(** ** Sessions that end with an error *)

(** A session with no request outstanding and no listener registered:
    Node has nothing to call it with. *)
Lemma dead_session (r : Run) :
  pending (now r) = PNone -> watching (now r) = false ->
  waitingFor (now r) = None ->
  forall i, deliver i r = None.
Proof.
  intros Hp Hw Hn i. unfold deliver, step, is_pending.
  destruct i as [x|x|size|x|]; rewrite ?Hp, ?Hw, ?Hn; reflexivity.
Qed.

(** X8.  When [fs.stat] fails the error is published, the file is never
    opened, read or watched, and the session is over: Node has nothing
    left to call it with. *)
Theorem stat_failure_ends_session
    (dir file : Path) (fastForward : bool) (errno : Z) :
  exists r,
    deliver (StatDone (Failed errno)) (start dir file fastForward) = Some r /\
    done r = [FsStat file; Emit (Error (IoError errno))] /\
    escaped r = [] /\
    forall i, deliver i r = None.
Proof.
  exists (or_else (deliver (StatDone (Failed errno)) (start dir file fastForward))
            (start dir file fastForward)).
  split; [destruct fastForward; vm_compute; reflexivity|].
  split; [destruct fastForward; vm_compute; reflexivity|].
  split; [destruct fastForward; vm_compute; reflexivity|].
  apply dead_session; destruct fastForward; vm_compute; reflexivity.
Qed.

(** X9.  When [fs.open] fails the error is published, nothing is read or
    watched, and the session is over. *)
Theorem open_failure_ends_session
    (dir file : Path) (fastForward : bool) (size errno : Z) :
  exists r,
    run [StatDone (Done size); OpenDone (Failed errno)]
      (start dir file fastForward) = Some r /\
    done r = [FsStat file; FsOpen file; Emit (Error (IoError errno))] /\
    escaped r = [] /\
    forall i, deliver i r = None.
Proof.
  exists (or_else (run [StatDone (Done size); OpenDone (Failed errno)]
                     (start dir file fastForward))
            (start dir file fastForward)).
  split; [destruct fastForward; vm_compute; reflexivity|].
  split; [destruct fastForward; vm_compute; reflexivity|].
  split; [destruct fastForward; vm_compute; reflexivity|].
  apply dead_session; destruct fastForward; vm_compute; reflexivity.
Qed.

Lemma num_inj (a b : byte) : num a = num b -> a = b.
Proof.
  unfold num. intros H. apply N2Z.inj in H.
  pose proof (Byte.of_to_N a) as Ha. pose proof (Byte.of_to_N b) as Hb.
  rewrite H in Ha. congruence.
Qed.

Lemma magic_test (buffer : Buffer) :
  len buffer = 4 ->
  (at_ buffer 0 =? 254) && (at_ buffer 1 =? 98) &&
  (at_ buffer 2 =? 105) && (at_ buffer 3 =? 110) = true ->
  buffer = Wire.magic.
Proof.
  intros Hl Ht.
  destruct buffer as [|b0 [|b1 [|b2 [|b3 [|b4 rest]]]]];
    try (unfold len in Hl; cbn [length] in Hl; lia).
  apply andb_prop in Ht. destruct Ht as [Ht H3].
  apply andb_prop in Ht. destruct Ht as [Ht H2].
  apply andb_prop in Ht. destruct Ht as [H0 H1].
  apply Z.eqb_eq in H0, H1, H2, H3.
  unfold at_ in H0, H1, H2, H3. cbn [Z.to_nat Pos.to_nat nth] in *.
  simpl nth in *.
  change 254 with (num xfe) in H0. change 98 with (num x62) in H1.
  change 105 with (num x69) in H2. change 110 with (num x6e) in H3.
  apply num_inj in H0, H1, H2, H3. simpl in H0, H1, H2, H3. subst. reflexivity.
Qed.

Lemma onHeader_rejects (buffer : Buffer) (s : Session) :
  len buffer = 4 -> buffer <> Wire.magic ->
  onHeader buffer s =
    {| outcome := Returned tt;
       after := set_ready false (set_closed true (set_watching false s));
       effects := [FsUnwatch (file s); FsClose; Emit (Error InvalidBinlog)] |}.
Proof.
  intros Hl Hn. unfold onHeader.
  destruct ((at_ buffer 0 =? 254) && (at_ buffer 1 =? 98) &&
            (at_ buffer 2 =? 105) && (at_ buffer 3 =? 110)) eqn:E.
  - apply (magic_test buffer Hl) in E. contradiction.
  - reflexivity.
Qed.

Lemma onFirstEvent_rejects (buffer : Buffer) (s : Session) :
  at_ buffer 4 <> 15 ->
  onFirstEvent buffer s =
    {| outcome := Returned tt;
       after := set_ready false (set_closed true (set_watching false s));
       effects := [FsUnwatch (file s); FsClose; Emit (Error InvalidBinlogVersion)] |}.
Proof.
  intros Hn. unfold onFirstEvent. apply Z.eqb_neq in Hn. rewrite Hn. reflexivity.
Qed.

(** The session up to the read of the magic bytes in flight. *)
Lemma header_requested (dir path : Path) (fastForward : bool) (content : Buffer)
    (fuel : nat) :
  4 <= len content ->
  exists r,
    serve (S (S fuel)) content (start dir path fastForward) = serve fuel content r /\
    didReadCallback (now r) = Some cbHeader /\ bytesWanted (now r) = 4 /\
    fileOffset (now r) = 0 /\ pending (now r) = PRead /\
    stat (now r) = Some (len content) /\ file (now r) = path /\
    waitingFor (now r) = None /\
    done r = [FsStat path; FsOpen path; FsRead 4 0; FsWatch path] /\
    escaped r = [].
Proof.
  intros Hsize.
  destruct (start_state dir path fastForward)
    as (Hq0 & Hst0 & Hp0 & Hr0 & Hd0 & He0).
  remember (start dir path fastForward) as r0 eqn:Hr0'. clear Hr0'.
  pose proof (parser_file _ _ _ _ _ _ _ _ _ _ _ Hq0) as (_ & Hfile0 & Hff0 & Hw0).
  apply parser_fields in Hq0.
  destruct Hq0 as (Hli0 & Hai0 & Hcb0 & Hbw0 & Ho0 & Hffu0).
  destruct (stat_served r0 (len content) Hp0)
    as (r1 & Hd1 & Hq1 & Hst1 & Hp1 & Hr1 & Hdone1 & Hesc1).
  pose proof (parser_file _ _ _ _ _ _ _ _ _ _ _ Hq1) as (_ & Hfile1 & _ & Hw1).
  apply parser_fields in Hq1.
  destruct Hq1 as (Hli1 & Hai1 & Hcb1 & Hbw1 & Ho1 & Hffu1).
  destruct (open_served r1 (len content) Hp1 Hst1 ltac:(lia))
    as (r2 & Hd2 & Hq2 & Hst2 & Hw2 & Hpend2 & Hesc2).
  destruct Hpend2 as [(_ & Hp2 & Hdone2)|(Hlt & _)]; [|lia].
  unfold parser in Hq2.
  pose proof (parser_file _ _ _ _ _ _ _ _ _ _ _ Hq2) as (_ & Hfile2 & _ & Hw2').
  apply parser_fields in Hq2.
  destruct Hq2 as (Hli2 & Hai2 & Hcb2 & Hbw2 & Ho2 & Hffu2).
  exists r2.
  split.
  - rewrite (serve_answered _ content r0 r1 (StatDone (Done (len content))))
      by (try assumption; unfold answer; rewrite Hp0; reflexivity).
    rewrite (serve_answered _ content r1 r2 (OpenDone (Done tt)))
      by (try assumption; unfold answer; rewrite Hp1; reflexivity).
    reflexivity.
  - repeat split; try congruence.
    rewrite Hdone2, Hdone1, Hd0, Hbw1, Hbw0, Ho1, Ho0, Hfile1, Hfile0. reflexivity.
Qed.

Lemma enough_three (content : Buffer) :
  4 <= len content -> exists fuel, enough content = S (S (S fuel)).
Proof.
  intros H. unfold enough. exists (length content). lia.
Qed.

(** X10.  A file that does not start with the magic bytes: the session
    reads its first four bytes and nothing else, stops, and publishes
    'Invalid binlog' as its only notification. *)
Theorem file_without_magic_rejected
    (dir file : Path) (fastForward : bool) (content : Buffer) :
  4 <= len content ->
  firstn 4 content <> Wire.magic ->
  done (decode dir file fastForward content) =
    [FsStat file; FsOpen file; FsRead 4 0; FsWatch file;
     FsUnwatch file; FsClose; Emit (Error InvalidBinlog)] /\
  escaped (decode dir file fastForward content) = [] /\
  forall i, deliver i (decode dir file fastForward content) = None.
Proof.
  intros Hsize Hmagic.
  destruct (enough_three content Hsize) as (fuel & Hfuel).
  rewrite <- decode_unfold, Hfuel.
  destruct (header_requested dir file fastForward content (S fuel) Hsize)
    as (r & Hs & Hcb & Hbw & Ho & Hp & Hst & Hfile & Hw & Hdone & Hesc).
  rewrite Hs.
  assert (Hl : len (firstn 4 content) = 4).
  { unfold len in *. rewrite length_firstn. lia. }
  rewrite (served_read content [] (firstn 4 content) (skipn 4 content) fuel r)
    by (try assumption; try congruence; symmetry; apply (firstn_skipn 4 content)).
  rewrite Hcb. cbn [call].
  rewrite (onHeader_rejects _ _ Hl Hmagic). cbn [after effects outcome].
  rewrite serve_quiet by reflexivity.
  cbn [done escaped]. rewrite Hdone, Hesc.
  split; [cbn; rewrite Hfile; reflexivity|]. split; [reflexivity|].
  apply dead_session; cbn; auto.
Qed.

Lemma file_without_magic_rejected_witness :
  done (decode Vectors.dir Vectors.log1 true Vectors.notALog) =
    [FsStat Vectors.log1; FsOpen Vectors.log1; FsRead 4 0; FsWatch Vectors.log1;
     FsUnwatch Vectors.log1; FsClose; Emit (Error InvalidBinlog)] /\
  escaped (decode Vectors.dir Vectors.log1 true Vectors.notALog) = [] /\
  forall i, deliver i (decode Vectors.dir Vectors.log1 true Vectors.notALog) = None.
Proof.
  apply (file_without_magic_rejected Vectors.dir Vectors.log1 true Vectors.notALog).
  - vm_compute. discriminate.
  - vm_compute. discriminate.
Defined.

(** X11.  A file whose first event is not a format description event:
    the session reads the magic bytes and that header, stops, and
    publishes 'Invalid binlog version' as its only notification. *)
Theorem file_without_description_rejected
    (dir file : Path) (fastForward : bool) (header rest : Buffer) :
  len header = 19 ->
  at_ header 4 <> 15 ->
  done (decode dir file fastForward (Wire.magic ++ header ++ rest)) =
    [FsStat file; FsOpen file; FsRead 4 0; FsWatch file; FsRead 19 4;
     FsUnwatch file; FsClose; Emit (Error InvalidBinlogVersion)] /\
  escaped (decode dir file fastForward (Wire.magic ++ header ++ rest)) = [] /\
  forall i, deliver i (decode dir file fastForward (Wire.magic ++ header ++ rest)) = None.
Proof.
  intros Hl Hcode.
  remember (Wire.magic ++ header ++ rest) as content eqn:Hc.
  assert (Hmagic : len Wire.magic = 4) by reflexivity.
  pose proof (len_nonneg rest) as Hrest.
  assert (Hsize : len content = 4 + 19 + len rest)
    by (rewrite Hc, !len_app, Hl, Hmagic; lia).
  assert (Hfuel : exists fuel, enough content = S (S (S (S fuel)))).
  { unfold enough. exists (length content - 1)%nat. unfold len in Hsize. lia. }
  destruct Hfuel as (fuel & Hfuel).
  rewrite <- decode_unfold, Hfuel.
  destruct (header_requested dir file fastForward content (S (S fuel))
              ltac:(lia))
    as (r & Hs & Hcb & Hbw & Ho & Hp & Hst & Hfile & Hw & Hdone & Hesc).
  rewrite Hs.
  assert (Hst' : stat (completed (now r)) = Some (len content)) by exact Hst.
  destruct (read_turn 19 cbFirstEvent (completed (now r)) (len content)
              eq_refl ltac:(lia) Hst')
    as (s3 & E3 & Hq3 & Hst3 & Hw3 & Hpend3).
  assert (Hoff : fileOffset (completed (now r)) = 4) by (cbn; lia).
  rewrite Hoff in *.
  destruct Hpend3 as [[_ Hp3]|[Hlt _]]; [|lia].
  pose proof (parser_file _ _ _ _ _ _ _ _ _ _ _ Hq3) as (_ & Hfile3 & _ & Hwait3).
  apply parser_fields in Hq3.
  destruct Hq3 as (Hli3 & Hai3 & Hcb3 & Hbw3 & Ho3 & Hffu3).
  cbn in Hfile3, Hwait3.
  rewrite (served_read content [] Wire.magic (header ++ rest) (S fuel) r)
    by (try assumption; change (len []) with 0; congruence).
  rewrite Hcb. cbn [call].
  rewrite onHeader_magic, E3. cbn [after effects outcome].
  rewrite (served_read content Wire.magic header rest fuel)
    by (cbn [now]; try assumption; congruence).
  cbn [now done escaped]. rewrite Hcb3. cbn [call].
  rewrite (onFirstEvent_rejects _ _ Hcode). cbn [after effects outcome].
  rewrite serve_quiet by reflexivity.
  cbn [done escaped]. rewrite Hdone, Hesc.
  assert (E : (len content <? 4 + 19) = false) by (apply Z.ltb_ge; lia).
  rewrite E.
  split; [cbn; rewrite Hfile3, Hfile; reflexivity|]. split; [reflexivity|].
  apply dead_session; cbn; congruence.
Qed.

Lemma file_without_description_rejected_witness :
  done (decode Vectors.dir Vectors.log1 false
          (Wire.magic ++ Wire.header 100 2 19 ++ [])) =
    [FsStat Vectors.log1; FsOpen Vectors.log1; FsRead 4 0; FsWatch Vectors.log1;
     FsRead 19 4; FsUnwatch Vectors.log1; FsClose;
     Emit (Error InvalidBinlogVersion)] /\
  escaped (decode Vectors.dir Vectors.log1 false
             (Wire.magic ++ Wire.header 100 2 19 ++ [])) = [] /\
  forall i, deliver i (decode Vectors.dir Vectors.log1 false
                         (Wire.magic ++ Wire.header 100 2 19 ++ [])) = None.
Proof.
  apply (file_without_description_rejected Vectors.dir Vectors.log1 false
           (Wire.header 100 2 19) []).
  - reflexivity.
  - vm_compute. discriminate.
Defined.

(* ------------------------------------------------------------------ *)
(** ** The fields the parsers read *)

Lemma num_range (b : byte) : 0 <= num b < 256.
Proof.
  unfold num. pose proof (Byte.to_N_bounded b) as H. lia.
Qed.

Lemma at_app (pre buffer : Buffer) (i : Z) :
  0 <= i -> at_ (pre ++ buffer) (len pre + i) = at_ buffer i.
Proof.
  intros Hi. unfold at_, len.
  replace (Z.to_nat (Z.of_nat (length pre) + i)) with (length pre + Z.to_nat i)%nat
    by lia.
  rewrite app_nth2_plus. reflexivity.
Qed.

(** X12.  [readInt] reads four bytes as an unsigned little-endian number:
    for four bytes inside the buffer its result lies between 0 and
    2^32 - 1, and a number written that way at any position of a buffer is
    read back. *)
Theorem readInt_little_endian :
  (forall buffer offset,
      0 <= offset -> offset + 4 <= len buffer ->
      0 <= readInt buffer offset < 4294967296) /\
  (forall (pre rest : Buffer) (v : Z),
      word v -> readInt (pre ++ Wire.le32 v ++ rest) (len pre) = v).
Proof.
  split.
  - intros buffer offset _ _. unfold readInt, at_.
    pose proof (num_range (nth (Z.to_nat (offset + 3)) buffer x00)).
    pose proof (num_range (nth (Z.to_nat (offset + 2)) buffer x00)).
    pose proof (num_range (nth (Z.to_nat (offset + 1)) buffer x00)).
    pose proof (num_range (nth (Z.to_nat offset) buffer x00)).
    lia.
  - intros pre rest v Hv. unfold readInt.
    rewrite <- (Z.add_0_r (len pre)) at 4.
    rewrite !at_app by lia.
    unfold at_, Wire.le32, Wire.bytes. simpl.
    rewrite !num_byte_of. apply word_bytes. exact Hv.
Qed.

Lemma readInt_little_endian_witness :
  0 <= readInt (Wire.bytes [1; 2] ++ Wire.le32 305419896 ++ []) 2 < 4294967296 /\
  readInt (Wire.bytes [1; 2] ++ Wire.le32 305419896 ++ []) 2 = 305419896.
Proof.
  destruct readInt_little_endian as [Hrange Hback]. split.
  - apply Hrange; [lia | vm_compute; discriminate].
  - apply (Hback (Wire.bytes [1; 2]) [] 305419896). unfold word. lia.
Defined.

Lemma index_app (pre buffer : Buffer) (i : Z) :
  0 <= i -> index (pre ++ buffer) (len pre + i) = index buffer i.
Proof.
  intros Hi. unfold index, len.
  assert (E1 : (Z.of_nat (length pre) + i <? 0) = false) by (apply Z.ltb_ge; lia).
  assert (E2 : (i <? 0) = false) by (apply Z.ltb_ge; lia).
  rewrite E1, E2.
  replace (Z.to_nat (Z.of_nat (length pre) + i)) with (length pre + Z.to_nat i)%nat
    by lia.
  rewrite nth_error_app2 by lia.
  replace (length pre + Z.to_nat i - length pre)%nat with (Z.to_nat i) by lia.
  reflexivity.
Qed.

Lemma clamp_inside (i size : Z) : 0 <= i <= size -> clamp (Some i) size = i.
Proof.
  intros H. unfold clamp.
  destruct (size <=? i) eqn:E1; [apply Z.leb_le in E1; lia|].
  assert (E2 : (0 <=? i) = true) by (apply Z.leb_le; lia).
  rewrite E2. reflexivity.
Qed.

(** X13.  The body of a query event written in the layout of the binary
    log (thread id, execution time, schema length, error code, length of
    the status variables, the status variables, the schema, a zero byte,
    the text) is taken apart into the schema and the text that were
    written, whatever the status variables are. *)
Theorem query_body_read_back (statusVars db query : Buffer) :
  len statusVars < 65536 -> len db < 256 ->
  queryDb (Wire.queryBody statusVars db query) = db /\
  queryText (Wire.queryBody statusVars db query) = query.
Proof.
  intros Hs Hd.
  pose proof (len_nonneg statusVars) as Hs0. pose proof (len_nonneg db) as Hd0.
  pose proof (len_nonneg query) as Hq0.
  assert (Hname : index (Wire.queryBody statusVars db query) 8 = Some (len db)).
  { unfold Wire.queryBody, index, Wire.le32, Wire.le16, Wire.bytes. simpl.
    rewrite num_byte_of, Z.mod_small by lia. reflexivity. }
  assert (Hstatus : readSmallint (Wire.queryBody statusVars db query) 11 =
                    Some (len statusVars)).
  { unfold readSmallint, Wire.queryBody, index, Wire.le32, Wire.le16, Wire.bytes.
    simpl. rewrite !num_byte_of. f_equal.
    pose proof (Z.div_mod (len statusVars) 256 ltac:(lia)) as E.
    rewrite (Z.mod_small (len statusVars / 256)) by
      (split; [apply Z.div_pos; lia | apply Z.div_lt_upper_bound; lia]).
    lia. }
  assert (Hbody : Wire.queryBody statusVars db query =
                  (firstn 13 (Wire.queryBody statusVars db query) ++ statusVars) ++
                  db ++ x00 :: query).
  { unfold Wire.queryBody, Wire.le32, Wire.le16, Wire.bytes. simpl.
    reflexivity. }
  assert (Hpre : len (firstn 13 (Wire.queryBody statusVars db query) ++ statusVars) =
                 13 + len statusVars).
  { rewrite len_app. unfold Wire.queryBody, Wire.le32, Wire.le16, Wire.bytes. simpl.
    reflexivity. }
  assert (Hlen : Z.of_nat (length (Wire.queryBody statusVars db query)) =
                 13 + len statusVars + len db + 1 + len query).
  { change (Z.of_nat (length (Wire.queryBody statusVars db query)))
      with (len (Wire.queryBody statusVars db query)).
    rewrite Hbody at 1. rewrite len_app, Hpre, len_app.
    unfold len. cbn [length]. lia. }
  unfold queryDb, queryText, slice, slice_from.
  rewrite Hname, Hstatus. cbn [jsadd]. rewrite Hlen.
  rewrite !clamp_inside by lia.
  remember (firstn 13 (Wire.queryBody statusVars db query) ++ statusVars) as pre.
  split.
  - rewrite Hbody.
    replace (Z.to_nat (13 + len statusVars)) with (length pre)
      by (unfold len in *; lia).
    rewrite skipn_app, skipn_all, Nat.sub_diag. cbn [skipn app].
    replace (Z.to_nat (13 + len statusVars + len db - (13 + len statusVars)))
      with (length db) by (unfold len in *; lia).
    rewrite firstn_app, firstn_all, Nat.sub_diag. cbn [firstn]. apply app_nil_r.
  - rewrite Hbody.
    replace (Z.to_nat (14 + len db + len statusVars)) with (length (pre ++ db) + 1)%nat
      by (rewrite length_app; unfold len in *; lia).
    rewrite app_assoc.
    rewrite skipn_app, (skipn_all2 (pre ++ db)) by lia.
    replace (length (pre ++ db) + 1 - length (pre ++ db))%nat with 1%nat by lia.
    reflexivity.
Qed.

Lemma query_body_read_back_witness :
  queryDb (Wire.queryBody (Wire.bytes [0; 0; 0; 0; 0]) Vectors.app Vectors.insert1) =
    Vectors.app /\
  queryText (Wire.queryBody (Wire.bytes [0; 0; 0; 0; 0]) Vectors.app Vectors.insert1) =
    Vectors.insert1.
Proof.
  apply (query_body_read_back (Wire.bytes [0; 0; 0; 0; 0]) Vectors.app
           Vectors.insert1).
  - vm_compute. reflexivity.
  - vm_compute. reflexivity.
Defined.

(* ------------------------------------------------------------------ *)
(** ** Arrival in pieces *)

Lemma deliver_changed (size : Z) (r : Run) :
  watching (now r) = true -> deliver (FileChanged size) r = Some (told size r).
Proof. intros Hw. unfold deliver, step. rewrite Hw. reflexivity. Qed.

Lemma readChunk_idle (s : Session) : ready s = false -> readChunk s = ret tt s.
Proof. intros Hr. unfold readChunk, bind, get. cbn. rewrite Hr. reflexivity. Qed.

Lemma readChunk_throws (s : Session) :
  ready s = true -> bytesWanted s = 0 -> readChunk s = throw NoBytesWanted s.
Proof.
  intros Hr Hb. unfold readChunk, bind, get. cbn. rewrite Hr. cbn. rewrite Hb.
  reflexivity.
Qed.

(** A second look at the file after it has grown decides as one look at
    the grown file does. *)
Lemma readChunk_after_change (s : Session) (k K : Z) :
  stat s = Some k -> k <= K ->
  (bytesWanted s < 0 -> fileOffset s + bytesWanted s <= k) ->
  after (readChunk (set_stat (Some K) (after (readChunk s)))) =
    after (readChunk (set_stat (Some K) s)).
Proof.
  intros Hs Hk Hneg.
  destruct (ready s) eqn:Hr.
  - destruct (Z.lt_trichotomy (bytesWanted s) 0) as [Hb|[Hb|Hb]].
    + specialize (Hneg Hb).
      rewrite (readChunk_refuses s k Hr Hb Hs Hneg). cbn [after throw].
      rewrite (readChunk_idle (set_stat _ (set_ready _ _))) by reflexivity.
      rewrite (readChunk_refuses (set_stat (Some K) s) K)
        by (cbn; first [assumption | reflexivity | lia]).
      reflexivity.
    + rewrite (readChunk_throws s Hr Hb). reflexivity.
    + destruct (Z_le_gt_dec (fileOffset s + bytesWanted s) k) as [Hle|Hgt].
      * rewrite (readChunk_issues s k Hr Hb Hs Hle). cbn [after].
        rewrite (readChunk_idle (set_stat _ (set_pending _ _))) by reflexivity.
        rewrite (readChunk_issues (set_stat (Some K) s) K)
          by (cbn; first [assumption | reflexivity | lia]).
        reflexivity.
      * rewrite (readChunk_defers s k Hr ltac:(lia) Hs) by lia. reflexivity.
  - rewrite (readChunk_idle s Hr). reflexivity.
Qed.

Lemma read_after_change (n : Z) (cb : Callback) (s : Session) (k K : Z) :
  stat s = Some k -> k <= K ->
  (n < 0 -> fileOffset s + n <= k) ->
  after (onChange K (after (read n cb s))) =
    after (read n cb (set_stat (Some K) s)) /\
  notifications (effects (read n cb (set_stat (Some K) s))) =
    notifications (effects (read n cb s)).
Proof.
  intros Hs Hk Hneg. split.
  - unfold onChange, read, bind, modify. cbn.
    pose proof (readChunk_after_change
                  (set_didReadCallback (Some cb) (set_bytesWanted n s)) k K Hs Hk
                  Hneg) as H.
    destruct (readChunk (set_didReadCallback (Some cb) (set_bytesWanted n s)))
      as [o1 s1 es1].
    cbn in H |- *.
    destruct (readChunk (set_stat (Some K) s1)) as [o2 s2 es2].
    change (set_didReadCallback (Some cb) (set_bytesWanted n (set_stat (Some K) s)))
      with (set_stat (Some K) (set_didReadCallback (Some cb) (set_bytesWanted n s))).
    destruct (readChunk (set_stat (Some K) _)) as [o3 s3 es3].
    cbn in H |- *. exact H.
  - destruct (read_parser n cb s) as (_ & -> & _).
    destruct (read_parser n cb (set_stat (Some K) s)) as (_ & -> & _).
    reflexivity.
Qed.

Lemma onChange_idle (size : Z) (s : Session) :
  ready s = false -> after (onChange size s) = set_stat (Some size) s.
Proof.
  intros Hr. unfold onChange, bind, modify. cbn.
  rewrite (readChunk_idle (set_stat (Some size) s)) by exact Hr. reflexivity.
Qed.

Lemma onChange_stalled (size : Z) (s : Session) :
  ready s = true -> bytesWanted s = 0 ->
  after (onChange size s) = set_stat (Some size) s.
Proof.
  intros Hr Hb. unfold onChange, bind, modify. cbn.
  rewrite (readChunk_throws (set_stat (Some size) s)) by assumption. reflexivity.
Qed.

Ltac lift_read k K :=
  match goal with
  | |- context [read ?n ?c ?X] =>
      lazymatch X with
      | context [set_stat (Some K)] => fail
      | _ =>
          let H1 := fresh "H1" in
          let H2 := fresh "H2" in
          destruct (read_after_change n c X k K) as [H1 H2];
          [cbn; assumption | assumption | cbn; intros; lia |];
          match goal with
          | |- context [read n c ?Y] =>
              lazymatch Y with
              | context [set_stat (Some K)] =>
                  change Y with (set_stat (Some K) X)
              end
          end;
          destruct (read n c X) as [? ? ?];
          destruct (read n c (set_stat (Some K) X)) as [? ? ?];
          cbn in H1, H2 |- *; rewrite ?H1, ?H2; auto
      end
  end.

(** A change of the file reported after a callback has run leaves the
    session where the callback would have left it had the size been known
    before. *)
Lemma call_after_change (cb : option Callback) (buffer : Buffer) (s : Session)
    (k K : Z) :
  stat s = Some k -> k <= K -> ready s = true -> bytesWanted s = 0 ->
  fileOffset s <= k ->
  after (onChange K (after (call cb buffer s))) =
    after (call cb buffer (set_stat (Some K) s)) /\
  notifications (effects (call cb buffer (set_stat (Some K) s))) =
    notifications (effects (call cb buffer s)).
Proof.
  intros Hs Hk Hr Hb Hoff.
  destruct cb as [[| | |ts| |]|]; unfold call.
  - unfold onHeader.
    destruct ((at_ buffer 0 =? 254) && (at_ buffer 1 =? 98) &&
              (at_ buffer 2 =? 105) && (at_ buffer 3 =? 110)).
    + apply (read_after_change _ _ _ k K); first [assumption | lia].
    + unfold stop, emit, bind, get, modify, perform. cbn.
      rewrite onChange_idle by reflexivity. auto.
  - unfold onFirstEvent.
    destruct (at_ buffer 4 =? 15).
    + unfold expectEvent, skip, emit, bind, get, modify, perform. cbn.
      lift_read k K.
    + unfold stop, emit, bind, get, modify, perform. cbn.
      rewrite onChange_idle by reflexivity. auto.
  - unfold onEvent.
    destruct (at_ buffer 4 =? 2);
      [|destruct (at_ buffer 4 =? 3);
        [|destruct (at_ buffer 4 =? 4); [|destruct (at_ buffer 4 =? 5)]]].
    + unfold parseQueryEvent, expectEvent, skip, bind, get, modify. cbn.
      change (fastForwarding (set_stat (Some K) s)) with (fastForwarding s).
      destruct (fastForwarding s); cbn; lift_read k K.
    + unfold parseStopEvent, emit, perform. cbn.
      rewrite onChange_stalled by assumption. auto.
    + unfold parseRotateEvent.
      apply (read_after_change _ _ _ k K); first [assumption | lia].
    + unfold parseAutoInt.
      apply (read_after_change _ _ _ k K); first [assumption | lia].
    + unfold skip, modify. cbn.
      rewrite onChange_stalled by assumption. auto.
  - unfold onQueryBody, expectEvent, emit, bind, get, modify, perform, ret. cbn.
    destruct (truthy (lastInsertId s) || truthy (autoIncrement s)); cbn;
      lift_read k K.
  - unfold onAutoInt, expectEvent, bind, get, modify, ret.
    destruct (at_ buffer 0 =? 1); [|destruct (at_ buffer 0 =? 2)]; cbn;
      lift_read k K.
  - unfold onRotateBody, stop, emit, bind, get, modify, perform. cbn.
    rewrite onChange_idle by reflexivity. auto.
  - unfold throw. cbn. rewrite onChange_stalled by assumption. auto.
Qed.

Ltac sized_close :=
  cbn in *; (split; [assumption|]); auto;
  try (right; split; [right; split; [reflexivity | congruence] | reflexivity]).

Lemma call_sized (cb : option Callback) (buffer : Buffer) (s : Session) (k : Z) :
  stat s = Some k -> pending s = PNone ->
  sized k (after (call cb buffer s)).
Proof.
  intros Hs Hp. unfold sized.
  destruct cb as [[| | |ts| |]|]; run_turn.
  - destruct (_ && _); cbn; [chunk|]; sized_close.
  - destruct (_ =? 15); cbn; [chunk|]; sized_close.
  - destruct (_ =? 2); [destruct (fastForwarding s)|]; cbn.
    + chunk; sized_close.
    + chunk; sized_close.
    + destruct (_ =? 3); [|destruct (_ =? 4); [|destruct (_ =? 5)]]; cbn;
        try chunk; sized_close.
  - destruct (truthy (lastInsertId s) || truthy (autoIncrement s)); cbn;
      chunk; sized_close.
  - destruct (_ =? 1); [|destruct (_ =? 2)]; cbn; chunk; sized_close.
  - sized_close.
  - sized_close.
Qed.

Lemma same_bytes (content appended : Buffer) (n position : nat) :
  length (firstn n (skipn position content)) = n ->
  firstn n (skipn position (content ++ appended)) =
    firstn n (skipn position content).
Proof.
  intros Hl. rewrite skipn_app, firstn_app.
  rewrite length_firstn in Hl.
  replace (n - length (skipn position content))%nat with 0%nat by lia.
  cbn [firstn]. apply app_nil_r.
Qed.

Lemma deliver_alike (i : Input) (r r' r1 : Run) :
  alike r r' -> deliver i r = Some r1 ->
  exists r1', deliver i r' = Some r1' /\ alike r1 r1'.
Proof.
  intros [Hn Hp]. unfold deliver. rewrite <- Hn.
  destruct (step i (now r)) as [t|]; [|discriminate].
  intros H. apply Some_inj in H. subst r1.
  eexists. split; [reflexivity|]. unfold alike, published in *. cbn.
  rewrite !notifications_app, Hp. auto.
Qed.

Lemma deliver_alike_none (i : Input) (r r' : Run) :
  alike r r' -> deliver i r = None -> deliver i r' = None.
Proof.
  intros [Hn Hp]. unfold deliver. rewrite <- Hn.
  destruct (step i (now r)); [discriminate | reflexivity].
Qed.

Lemma serve_alike (content : Buffer) (fuel : nat) :
  forall r r', alike r r' -> alike (serve fuel content r) (serve fuel content r').
Proof.
  induction fuel as [|fuel IH]; intros r r' Ha; cbn [serve]; [exact Ha|].
  pose proof Ha as [Hn _]. rewrite <- Hn.
  destruct (answer content (now r)) as [i|]; [|exact Ha].
  destruct (deliver i r) as [r1|] eqn:Hd.
  - destruct (deliver_alike i r r' r1 Ha Hd) as (r1' & Hd' & Ha').
    rewrite Hd'. apply IH. exact Ha'.
  - rewrite (deliver_alike_none i r r' Ha Hd). exact Ha.
Qed.

(** Once at rest, more answers change nothing. *)
Lemma serve_stable (content : Buffer) (fuel : nat) :
  forall r, pending (now (serve fuel content r)) = PNone ->
            serve (S fuel) content r = serve fuel content r.
Proof.
  induction fuel as [|fuel IH]; intros r Hp.
  - cbn [serve] in *. unfold answer. rewrite Hp. reflexivity.
  - change (serve (S (S fuel)) content r)
      with (match answer content (now r) with
            | None => r
            | Some i => match deliver i r with
                        | Some r' => serve (S fuel) content r'
                        | None => r
                        end
            end).
    change (serve (S fuel) content r)
      with (match answer content (now r) with
            | None => r
            | Some i => match deliver i r with
                        | Some r' => serve fuel content r'
                        | None => r
                        end
            end) in Hp |- *.
    destruct (answer content (now r)) as [i|]; [|reflexivity].
    destruct (deliver i r) as [r1|]; [|reflexivity].
    apply IH. exact Hp.
Qed.

Lemma alike_trans (a b c : Run) : alike a b -> alike b c -> alike a c.
Proof. intros [H1 H2] [H3 H4]. split; congruence. Qed.

Lemma told_published (size : Z) (r : Run) : published (told size r) = published r.
Proof.
  unfold told, published. cbn [done]. rewrite notifications_app.
  destruct (onChange_parser size (now r)) as (_ & -> & _). apply app_nil_r.
Qed.

Lemma onStat_after_change (s : Session) (k K : Z) :
  ready s = false -> fastForward s = false ->
  after (onChange K (after (onStat (Done k) s))) = after (onStat (Done K) s).
Proof.
  intros Hr Hf. unfold onStat, bind, get, modify, perform, ret. cbn.
  rewrite Hf. cbn. rewrite onChange_idle by exact Hr. reflexivity.
Qed.

Lemma onOpen_after_change (s : Session) (k K : Z) :
  stat s = Some k -> k <= K -> pending s = PNone -> 0 <= bytesWanted s ->
  after (onChange K (after (onOpen (Done tt) s))) =
    after (onOpen (Done tt) (set_stat (Some K) s)) /\
  notifications (effects (onOpen (Done tt) s)) = [] /\
  notifications (effects (onOpen (Done tt) (set_stat (Some K) s))) = [] /\
  sized k (after (onOpen (Done tt) s)).
Proof.
  intros Hs Hk Hp Hpos. unfold onOpen, bind, get, modify, perform, ret, sized. cbn.
  change (set_ready true (set_handle true (set_stat (Some K) s)))
    with (set_stat (Some K) (set_ready true (set_handle true s))).
  remember (set_ready true (set_handle true s)) as s1 eqn:E1.
  assert (Hr1 : ready s1 = true) by (subst s1; reflexivity).
  assert (Hs1 : stat s1 = Some k) by (subst s1; exact Hs).
  assert (Hp1 : pending s1 = PNone) by (subst s1; exact Hp).
  assert (Hpos1 : 0 <= bytesWanted s1) by (subst s1; exact Hpos).
  clear E1.
  destruct (Z.eq_dec (bytesWanted s1) 0) as [Hb|Hb].
  - rewrite (readChunk_throws s1 Hr1 Hb).
    rewrite (readChunk_throws (set_stat (Some K) s1)) by assumption.
    cbn. rewrite onChange_stalled by assumption. auto 10.
  - assert (Hb' : 0 < bytesWanted s1) by lia.
    destruct (Z_le_gt_dec (fileOffset s1 + bytesWanted s1) k) as [Hle|Hgt].
    + rewrite (readChunk_issues s1 k Hr1 Hb' Hs1 Hle).
      rewrite (readChunk_issues (set_stat (Some K) s1) K)
        by (cbn; first [assumption | reflexivity | lia]).
      cbn. rewrite onChange_idle by reflexivity. auto 10.
    + rewrite (readChunk_defers s1 k Hr1 Hb Hs1) by lia. cbn.
      destruct (Z_le_gt_dec (fileOffset s1 + bytesWanted s1) K) as [Hle'|Hgt'].
      * rewrite (readChunk_issues (set_stat (Some K) s1) K)
          by (cbn; first [assumption | reflexivity | lia]).
        cbn. unfold onChange, bind, modify. cbn.
        rewrite (readChunk_issues (set_stat (Some K) (set_watching true s1)) K)
          by (cbn; first [assumption | reflexivity | lia]).
        cbn. auto 10.
      * rewrite (readChunk_defers (set_stat (Some K) s1) K)
          by (cbn; first [assumption | reflexivity | lia]).
        cbn. unfold onChange, bind, modify. cbn.
        rewrite (readChunk_defers (set_stat (Some K) (set_watching true s1)) K)
          by (cbn; first [assumption | reflexivity | lia]).
        cbn. auto 10.
Qed.

Lemma told_idle (size : Z) (r : Run) :
  ready (now r) = false -> now (told size r) = set_stat (Some size) (now r).
Proof. intros Hr. unfold told. cbn [now]. apply onChange_idle. exact Hr. Qed.

Lemma deliver_open (r : Run) :
  pending (now r) = POpen ->
  answer [] (now r) = Some (OpenDone (Done tt)) /\
  deliver (OpenDone (Done tt)) r =
    Some {| now := after (onOpen (Done tt) (set_pending PNone (now r)));
            done := done r ++ effects (onOpen (Done tt) (set_pending PNone (now r)));
            escaped := escaped r ++
                       match outcome (onOpen (Done tt) (set_pending PNone (now r))) with
                       | Thrown e => [e]
                       | Returned _ => []
                       end |}.
Proof.
  intros Hp. unfold answer, deliver, step, is_pending. rewrite Hp. auto.
Qed.

Lemma serve_stuck (fuel : nat) (content : Buffer) (r : Run) (i : Input) :
  answer content (now r) = Some i -> deliver i r = None ->
  serve (S fuel) content r = r.
Proof. intros Ha Hd. cbn [serve]. rewrite Ha, Hd. reflexivity. Qed.

(** From a session that knows the size of the first piece on: serving the
    first piece, telling the listener the size of the whole and serving
    the whole ends where serving the whole at once ends, once that has
    come to rest. *)
Lemma pieces (content appended : Buffer) (fuel : nat) :
  forall (r r' : Run) (fuel' : nat),
    sized (len content) (now r) ->
    alike (told (len (content ++ appended)) r) r' ->
    pending (now (serve fuel' (content ++ appended) r')) = PNone ->
    alike (serve fuel' (content ++ appended)
             (told (len (content ++ appended)) (serve fuel content r)))
          (serve fuel' (content ++ appended) r').
Proof.
  assert (Hk : len content <= len (content ++ appended))
    by (rewrite len_app; pose proof (len_nonneg appended); lia).
  remember (len (content ++ appended)) as K eqn:HK.
  remember (len content) as k eqn:Hkk.
  induction fuel as [|fuel IH]; intros r r' fuel' Hsz Ha Hrest.
  - cbn [serve]. apply serve_alike. exact Ha.
  - destruct Hsz as (Hst & [Hp | (Hp & Hr)]).
    + rewrite (serve_quiet _ content r Hp). apply serve_alike. exact Ha.
    + pose proof Ha as [Hnow Hpub].
      rewrite (told_idle K r Hr) in Hnow. rewrite told_published in Hpub.
      assert (Hp' : pending (now r') = pending (now r))
        by (rewrite <- Hnow; reflexivity).
      destruct fuel' as [|fuel'].
      { cbn [serve] in Hrest. rewrite Hp' in Hrest.
        destruct Hp as [[Hp _]|[Hp _]]; congruence. }
      destruct Hp as [[Hp Hpos]|[Hp Hfit]].
      * (* fs.open *)
        destruct (deliver_open r Hp) as [_ Hd].
        destruct (deliver_open r' ltac:(congruence)) as [_ Hd'].
        rewrite (serve_answered fuel content r _ (OpenDone (Done tt)))
          by (try exact Hd; unfold answer; rewrite Hp; reflexivity).
        rewrite (serve_answered fuel' (content ++ appended) r' _ (OpenDone (Done tt)))
          in Hrest |- *
          by (try exact Hd'; unfold answer; rewrite Hp', Hp; reflexivity).
        destruct (onOpen_after_change (set_pending PNone (now r)) k K Hst Hk eq_refl
                    Hpos)
          as (Hlaw & Hn1 & Hn2 & Hsz1).
        match type of Hd with _ = Some ?x => remember x as r1 eqn:E1 end.
        match type of Hd' with _ = Some ?x => remember x as r1' eqn:E1' end.
        assert (Ha1 : alike (told K r1) r1').
        { split.
          - subst r1 r1'. unfold told. cbn [now]. rewrite Hlaw, <- Hnow. reflexivity.
          - rewrite told_published. subst r1 r1'. unfold published. cbn [done].
            rewrite !notifications_app, <- Hnow.
            change (set_pending PNone (set_stat (Some K) (now r)))
              with (set_stat (Some K) (set_pending PNone (now r))).
            rewrite Hn1, Hn2. unfold published in Hpub. rewrite Hpub. reflexivity. }
        assert (Hsz1' : sized k (now r1)) by (subst r1; exact Hsz1).
        pose proof (IH r1 r1' fuel' Hsz1' Ha1 Hrest) as Hgoal.
        rewrite serve_stable; [exact Hgoal|].
        destruct Hgoal as [-> _]. exact Hrest.
      * (* fs.read *)
        remember (firstn (Z.to_nat (bytesWanted (now r)))
                    (skipn (Z.to_nat (fileOffset (now r))) content)) as bytes eqn:Eb.
        assert (Hans : answer content (now r) = Some (ReadDone (Done bytes)))
          by (unfold answer; rewrite Hp, Eb; reflexivity).
        destruct (deliver (ReadDone (Done bytes)) r) as [r1|] eqn:Hd.
        2:{ rewrite (serve_stuck fuel content r _ Hans Hd). apply serve_alike. exact Ha. }
        rewrite (serve_answered fuel content r r1 _ Hans Hd).
        assert (Hlen : len bytes = bytesWanted (now r)).
        { unfold deliver, step, is_pending in Hd. rewrite Hp in Hd. cbn [andb] in Hd.
          destruct (len bytes =? bytesWanted (now r)) eqn:E; [|discriminate].
          apply Z.eqb_eq. exact E. }
        pose proof (deliver_read r bytes Hp Hlen) as Hd0.
        assert (Hr1 : Some r1 = Some _) by (rewrite <- Hd; exact Hd0).
        clear Hd0 Hd. apply Some_inj in Hr1. rename Hr1 into Hd.
        assert (Hans' : answer (content ++ appended) (now r') =
                        Some (ReadDone (Done bytes))).
        { unfold answer. rewrite Hp', Hp, <- Hnow. cbn [bytesWanted fileOffset set_stat].
          rewrite same_bytes; [rewrite Eb; reflexivity|].
          rewrite <- Eb. unfold len in Hlen. lia. }
        assert (Hd' : deliver (ReadDone (Done bytes)) r' = Some _)
          by (apply (deliver_read r' bytes); [congruence | rewrite <- Hnow; exact Hlen]).
        rewrite (serve_answered fuel' (content ++ appended) r' _ _ Hans' Hd')
          in Hrest |- *.
        destruct (call_after_change (didReadCallback (now r)) bytes (completed (now r))
                    k K Hst Hk eq_refl eq_refl Hfit) as (Hlaw & Hnot).
        match type of Hd' with _ = Some ?x => remember x as r1' eqn:E1' end.
        assert (Ha1 : alike (told K r1) r1').
        { split.
          - subst r1 r1'. unfold told. cbn [now]. rewrite Hlaw, <- Hnow. reflexivity.
          - rewrite told_published. subst r1 r1'. unfold published. cbn [done].
            rewrite !notifications_app, <- Hnow.
            change (completed (set_stat (Some K) (now r)))
              with (set_stat (Some K) (completed (now r))).
            change (didReadCallback (set_stat (Some K) (now r)))
              with (didReadCallback (now r)).
            rewrite Hnot. unfold published in Hpub. rewrite Hpub. reflexivity. }
        assert (Hsz1 : sized k (now r1))
          by (subst r1; cbn [now]; apply call_sized; [exact Hst | reflexivity]).
        pose proof (IH r1 r1' fuel' Hsz1 Ha1 Hrest) as Hgoal.
        rewrite serve_stable; [exact Hgoal|].
        destruct Hgoal as [-> _]. exact Hrest.
Qed.

Lemma deliver_stat (r : Run) (size : Z) :
  pending (now r) = PStat ->
  deliver (StatDone (Done size)) r =
    Some {| now := after (onStat (Done size) (set_pending PNone (now r)));
            done := done r ++ effects (onStat (Done size) (set_pending PNone (now r)));
            escaped := escaped r ++
                       match outcome (onStat (Done size) (set_pending PNone (now r))) with
                       | Thrown e => [e]
                       | Returned _ => []
                       end |}.
Proof.
  intros Hp. unfold deliver, step, is_pending. rewrite Hp. reflexivity.
Qed.

Lemma onStat_sized (s : Session) (k : Z) :
  ready s = false -> 0 <= bytesWanted s ->
  sized k (after (onStat (Done k) s)) /\
  notifications (effects (onStat (Done k) s)) = [].
Proof.
  intros Hr Hb. unfold onStat, sized, bind, get, modify, perform, ret. cbn.
  destruct (fastForward s); cbn; auto 10.
Qed.

Lemma enough_succ (content : Buffer) : enough content = S (length content + 2).
Proof. unfold enough. lia. Qed.

(** A session without fast-forward, its file arriving in two pieces. *)
Lemma two_pieces (dir file : Path) (before appended : Buffer) :
  pending (now (decode dir file false (before ++ appended))) = PNone ->
  alike (serve (enough (before ++ appended)) (before ++ appended)
           (told (len (before ++ appended)) (decode dir file false before)))
        (decode dir file false (before ++ appended)).
Proof.
  intros Hrest.
  rewrite <- !decode_unfold in *. rewrite !enough_succ in *.
  remember (length before + 2)%nat as fuel eqn:Ef. clear Ef.
  remember (length (before ++ appended) + 2)%nat as fuel' eqn:Ef'. clear Ef'.
  destruct (start_state dir file false) as (Hq0 & Hst0 & Hp0 & Hr0 & Hd0 & He0).
  pose proof (parser_file _ _ _ _ _ _ _ _ _ _ _ Hq0) as (_ & _ & Hff0 & _).
  pose proof (parser_fields _ _ _ _ _ _ _ _ _ Hq0) as (_ & _ & _ & Hb0 & _).
  assert (Hpos0 : 0 <= bytesWanted (now (start dir file false)))
    by (rewrite Hb0; lia).
  remember (start dir file false) as r0 eqn:E0. clear E0 Hq0 Hb0.
  pose proof (deliver_stat r0 (len before) Hp0) as Hd.
  pose proof (deliver_stat r0 (len (before ++ appended)) Hp0) as Hd'.
  assert (Hans : forall content, answer content (now r0) =
                                 Some (StatDone (Done (len content))))
    by (intros content; unfold answer; rewrite Hp0; reflexivity).
  rewrite (serve_answered fuel before r0 _ _ (Hans before) Hd).
  rewrite (serve_answered fuel' (before ++ appended) r0 _ _ (Hans _) Hd')
    in Hrest |- *.
  match type of Hd with _ = Some ?x => remember x as r1 eqn:E1 end.
  match type of Hd' with _ = Some ?x => remember x as r1' eqn:E1' end.
  destruct (onStat_sized (set_pending PNone (now r0)) (len before) Hr0 Hpos0)
    as [Hsz Hn].
  destruct (onStat_sized (set_pending PNone (now r0)) (len (before ++ appended)) Hr0
              Hpos0)
    as [_ Hn'].
  assert (Ha : alike (told (len (before ++ appended)) r1) r1').
  { split.
    - subst r1 r1'. unfold told. cbn [now].
      apply onStat_after_change; [exact Hr0 | exact Hff0].
    - rewrite told_published. subst r1 r1'. unfold published. cbn [done].
      rewrite !notifications_app, Hn, Hn'. reflexivity. }
  assert (Hsz1 : sized (len before) (now r1)) by (subst r1; exact Hsz).
  pose proof (pieces before appended fuel r1 r1' fuel' Hsz1 Ha Hrest) as Hgoal.
  rewrite serve_stable; [exact Hgoal|].
  destruct Hgoal as [-> _]. exact Hrest.
Qed.

(** X14.  A session without fast-forward whose file arrives in two
    pieces, cut anywhere: once the listener has been told of the second
    piece, the session reaches the state and has published the
    notifications of a session that found the whole file at the start,
    provided that one has come to rest. *)
Theorem arrival_in_two_pieces
    (dir file : Path) (before appended : Buffer) (r : Run) :
  decode_appended dir file false before appended = Some r ->
  pending (now (decode dir file false (before ++ appended))) = PNone ->
  now r = now (decode dir file false (before ++ appended)) /\
  published r = published (decode dir file false (before ++ appended)).
Proof.
  intros Hd Hrest. unfold decode_appended in Hd.
  destruct (watching (now (decode dir file false before))) eqn:Hw.
  - rewrite (deliver_changed _ _ Hw) in Hd. apply Some_inj in Hd. subst r.
    exact (two_pieces dir file before appended Hrest).
  - unfold deliver, step in Hd. rewrite Hw in Hd. discriminate.
Qed.

Lemma arrival_in_two_pieces_witness :
  now (or_else (decode_appended Vectors.dir Vectors.log1 false
                  (firstn 30 Vectors.old) (skipn 30 Vectors.old))
         (start Vectors.dir Vectors.log1 false)) =
    now (decode Vectors.dir Vectors.log1 false
           (firstn 30 Vectors.old ++ skipn 30 Vectors.old)) /\
  published (or_else (decode_appended Vectors.dir Vectors.log1 false
                        (firstn 30 Vectors.old) (skipn 30 Vectors.old))
               (start Vectors.dir Vectors.log1 false)) =
    published (decode Vectors.dir Vectors.log1 false
                 (firstn 30 Vectors.old ++ skipn 30 Vectors.old)).
Proof.
  apply (arrival_in_two_pieces Vectors.dir Vectors.log1
           (firstn 30 Vectors.old) (skipn 30 Vectors.old)).
  - vm_compute. reflexivity.
  - vm_compute. reflexivity.
Defined.

Ltac reading_close := cbn in *; split; [auto | intros ?; auto].

Lemma call_reading (cb : option Callback) (buffer : Buffer) (s : Session) :
  pending s = PNone ->
  (pending (after (call cb buffer s)) = PNone \/
   pending (after (call cb buffer s)) = PRead) /\
  (watching s = false -> watching (after (call cb buffer s)) = false).
Proof.
  intros Hp.
  destruct cb as [[| | |ts| |]|]; run_turn.
  - destruct (_ && _); cbn; [chunk|]; reading_close.
  - destruct (_ =? 15); cbn; [chunk|]; reading_close.
  - destruct (_ =? 2); [destruct (fastForwarding s)|]; cbn.
    + chunk; reading_close.
    + chunk; reading_close.
    + destruct (_ =? 3); [|destruct (_ =? 4); [|destruct (_ =? 5)]]; cbn;
        try chunk; reading_close.
  - destruct (truthy (lastInsertId s) || truthy (autoIncrement s)); cbn;
      chunk; reading_close.
  - destruct (_ =? 1); [|destruct (_ =? 2)]; cbn; chunk; reading_close.
  - reading_close.
  - reading_close.
Qed.

(** Past [fs.open], a session that does not watch its file never watches
    it again. *)
Lemma serve_unwatched (content : Buffer) (fuel : nat) :
  forall r,
    pending (now r) = PNone \/ pending (now r) = PRead ->
    (pending (now (serve fuel content r)) = PNone \/
     pending (now (serve fuel content r)) = PRead) /\
    (watching (now r) = false -> watching (now (serve fuel content r)) = false).
Proof.
  induction fuel as [|fuel IH]; intros r Hp; [cbn [serve]; auto|].
  destruct Hp as [Hp|Hp].
  - rewrite (serve_quiet _ content r Hp). auto.
  - destruct (answer content (now r)) as [i|] eqn:Hans.
    2:{ cbn [serve]. rewrite Hans. auto. }
    destruct (deliver i r) as [r1|] eqn:Hd.
    2:{ rewrite (serve_stuck fuel content r i Hans Hd). auto. }
    rewrite (serve_answered fuel content r r1 i Hans Hd).
    unfold answer in Hans. rewrite Hp in Hans. apply Some_inj in Hans. subst i.
    apply deliver_some in Hd. destruct Hd as (t & Hstep & Hnow & _).
    apply step_read_done in Hstep. destruct Hstep as (_ & _ & ->).
    destruct (call_reading (didReadCallback (now r))
                (firstn (Z.to_nat (bytesWanted (now r)))
                   (skipn (Z.to_nat (fileOffset (now r))) content))
                (completed (now r)) eq_refl)
      as [Hread Hwatch].
    rewrite <- Hnow in Hread, Hwatch.
    destruct (IH r1 Hread) as [Hp1 Hw1].
    split; [exact Hp1|]. intros Hw. apply Hw1. apply Hwatch. exact Hw.
Qed.

Lemma told_reading (size : Z) (r : Run) :
  pending (now r) = PNone \/ pending (now r) = PRead ->
  (pending (now (told size r)) = PNone \/ pending (now (told size r)) = PRead) /\
  watching (now (told size r)) = watching (now r).
Proof.
  intros Hp. unfold told. cbn [now].
  destruct (onChange_parser size (now r)) as (_ & _ & Hw & _).
  split; [|exact Hw].
  unfold onChange, bind, modify. cbn.
  destruct (readChunk_cases (set_stat (Some size) (now r)))
    as [H|[H|[H|[(? & ? & ? & ? & ? & H)|(? & ? & ? & ? & ? & H)]]]];
    rewrite H; cbn; auto.
Qed.

(** Whatever the file holds, [fs.stat] and [fs.open] are answered. *)
Lemma decode_past_open (dir file : Path) (fastForward : bool) (content : Buffer) :
  pending (now (decode dir file fastForward content)) = PNone \/
  pending (now (decode dir file fastForward content)) = PRead.
Proof.
  rewrite <- decode_unfold.
  replace (enough content) with (S (S (length content + 1))) by (unfold enough; lia).
  destruct (start_state dir file fastForward) as (Hq0 & Hst0 & Hp0 & Hr0 & Hd0 & He0).
  apply parser_fields in Hq0. destruct Hq0 as (_ & _ & _ & Hbw0 & _ & _).
  remember (start dir file fastForward) as r0 eqn:E0. clear E0.
  destruct (stat_served r0 (len content) Hp0)
    as (r1 & Hd1 & Hq1 & Hst1 & Hp1 & _).
  apply parser_fields in Hq1. destruct Hq1 as (_ & _ & _ & Hbw1 & _ & _).
  destruct (open_served r1 (len content) Hp1 Hst1 ltac:(lia))
    as (r2 & Hd2 & _ & _ & _ & Hpend2 & _).
  rewrite (serve_answered _ content r0 r1 (StatDone (Done (len content))))
    by (try assumption; unfold answer; rewrite Hp0; reflexivity).
  rewrite (serve_answered _ content r1 r2 (OpenDone (Done tt)))
    by (try assumption; unfold answer; rewrite Hp1; reflexivity).
  apply serve_unwatched.
  destruct Hpend2 as [(_ & Hp2 & _)|(_ & Hp2 & _)]; auto.
Qed.

(** X15.  A log of query and auto-increment events that reaches the
    session in two pieces, cut at any byte (inside the magic bytes, a
    header or a body as well): the listener's call is accepted, and what
    is published is the ['log'] and the queries of the whole log, as if it
    had been complete at the start. *)
Theorem log_decoded_in_two_pieces
    (dir file : Path) (ts : Z) (description : Buffer) (events : list Event)
    (before appended : Buffer) :
  word ts -> word (19 + len description) ->
  Forall well_formed events ->
  before ++ appended = binlog ts description events ->
  exists r,
    decode_appended dir file false before appended = Some r /\
    published r = Log (ts * 1000) file :: expected None None events /\
    fileOffset (now r) = len (binlog ts description events) /\
    pending (now r) = PNone.
Proof.
  intros Hts Hlen Hwf Hcut.
  destruct (decode_log dir file false ts description events None
              Hts Hlen Hwf eq_refl)
    as (Hpub & _ & Hoff & Haw & _).
  destruct (decoded_plain events (23 + len description) None None) as [Hd _].
  rewrite Hd in Hpub. clear Hd.
  assert (Hrest : pending (now (decode dir file false (binlog ts description events)))
                  = PNone).
  { destruct Haw as (_ & _ & _ & _ & _ & [[Hle _]|(_ & Hp & _)]); [lia | assumption]. }
  assert (Hw : watching (now (decode dir file false (binlog ts description events)))
               = true)
    by (destruct Haw as (_ & _ & _ & _ & Hw & _); exact Hw).
  rewrite <- Hcut in Hpub, Hoff, Hrest, Hw |- *.
  destruct (two_pieces dir file before appended Hrest) as [Hnow Hp].
  unfold decode_appended.
  destruct (watching (now (decode dir file false before))) eqn:Hwq.
  - rewrite (deliver_changed _ _ Hwq). eexists. split; [reflexivity|].
    rewrite Hp, Hnow. auto.
  - exfalso.
    destruct (told_reading (len (before ++ appended)) (decode dir file false before)
                (decode_past_open dir file false before)) as [Hread Hwt].
    rewrite Hwq in Hwt.
    destruct (serve_unwatched (before ++ appended) (enough (before ++ appended))
                _ Hread) as [_ Hfalse].
    specialize (Hfalse Hwt). rewrite Hnow in Hfalse. congruence.
Qed.

Lemma log_decoded_in_two_pieces_witness :
  exists r,
    decode_appended Vectors.dir Vectors.log1 false
      (firstn 40 (binlog 99 [] hintThenQuery))
      (skipn 40 (binlog 99 [] hintThenQuery)) = Some r /\
    published r = Log (99 * 1000) Vectors.log1 :: expected None None hintThenQuery /\
    fileOffset (now r) = len (binlog 99 [] hintThenQuery) /\
    pending (now r) = PNone.
Proof.
  apply (log_decoded_in_two_pieces Vectors.dir Vectors.log1 99 [] hintThenQuery).
  - unfold word; lia.
  - unfold word, len; simpl; lia.
  - well_formed_events.
  - apply firstn_skipn.
Defined.

(* ------------------------------------------------------------------ *)
(** ** One read at a time *)

Ltac busy_close :=
  cbn in *; unfold busy_ok; cbn;
  repeat split; try lia; try congruence; try reflexivity;
  try (intros; congruence); auto.

Lemma call_busy_ok (cb : option Callback) (buffer : Buffer) (s : Session) :
  pending s = PNone ->
  busy_ok (after (call cb buffer s)) /\
  (length (reads (effects (call cb buffer s))) <= 1)%nat.
Proof.
  intros Hp.
  destruct cb as [[| | |ts| |]|]; run_turn.
  - destruct (_ && _); cbn; [chunk|]; busy_close.
  - destruct (_ =? 15); cbn; [chunk|]; busy_close.
  - destruct (_ =? 2); [destruct (fastForwarding s)|]; cbn.
    + chunk; busy_close.
    + chunk; busy_close.
    + destruct (_ =? 3); [|destruct (_ =? 4); [|destruct (_ =? 5)]]; cbn;
        try chunk; busy_close.
  - destruct (truthy (lastInsertId s) || truthy (autoIncrement s)); cbn;
      chunk; busy_close.
  - destruct (_ =? 1); [|destruct (_ =? 2)]; cbn; chunk; busy_close.
  - busy_close.
  - busy_close.
Qed.

Lemma step_busy_ok (i : Input) (s : Session) (t : Turn unit) :
  busy_ok s ->
  step i s = Some t ->
  busy_ok (after t) /\
  (length (reads (effects t)) <= 1)%nat /\
  (reads (effects t) <> [] -> pending s = PRead ->
   exists buffer, i = ReadDone (Done buffer)).
Proof.
  intros Hbusy Hstep.
  destruct i as [[errno|size]|[errno|[]]|size|[errno|buffer]|].
  - unfold step, is_pending in Hstep.
    destruct (pending s) eqn:Hp; try discriminate.
    apply Some_inj in Hstep. subst t. run_callback. busy_close.
  - unfold step, is_pending in Hstep.
    destruct (pending s) eqn:Hp; try discriminate.
    apply Some_inj in Hstep. subst t. run_callback.
    assert (Hr : ready s = false) by (apply Hbusy; congruence).
    destruct (fastForward s); busy_close.
  - unfold step, is_pending in Hstep.
    destruct (pending s) eqn:Hp; try discriminate.
    apply Some_inj in Hstep. subst t. run_callback. busy_close.
  - unfold step, is_pending in Hstep.
    destruct (pending s) eqn:Hp; try discriminate.
    apply Some_inj in Hstep. subst t. run_callback. chunk; busy_close.
  - apply step_changed in Hstep. destruct Hstep as [_ ->].
    destruct (pending s) eqn:Hp.
    + run_callback. chunk; busy_close.
    + assert (Hr : ready s = false) by (apply Hbusy; congruence).
      unfold onChange, bind, modify. cbn.
      rewrite (readChunk_idle (set_stat (Some size) s)) by exact Hr.
      busy_close.
    + assert (Hr : ready s = false) by (apply Hbusy; congruence).
      unfold onChange, bind, modify. cbn.
      rewrite (readChunk_idle (set_stat (Some size) s)) by exact Hr.
      busy_close.
    + assert (Hr : ready s = false) by (apply Hbusy; congruence).
      unfold onChange, bind, modify. cbn.
      rewrite (readChunk_idle (set_stat (Some size) s)) by exact Hr.
      busy_close.
  - unfold step, is_pending in Hstep.
    destruct (pending s) eqn:Hp; try discriminate.
    apply Some_inj in Hstep. subst t. run_callback. busy_close.
  - apply step_read_done in Hstep. destruct Hstep as (_ & _ & ->).
    destruct (call_busy_ok (didReadCallback s) buffer (completed s) eq_refl)
      as [Hb Hl].
    split; [exact Hb|]. split; [exact Hl|]. intros _ _. exists buffer. reflexivity.
  - unfold step in Hstep. destruct (waitingFor s) as [next|]; [|discriminate].
    apply Some_inj in Hstep. subst t. run_callback. unfold readChunk. run_turn.
    busy_close.
Qed.

Lemma reachable_busy_ok (dir file : Path) (fastForward : bool) (s : Session) :
  reachable (after (stream dir file fastForward)) s -> busy_ok s.
Proof.
  induction 1 as [|s i t _ IH Hi Hg Hstep].
  - destruct fastForward; vm_compute; reflexivity.
  - exact (proj1 (step_busy_ok i s t IH Hstep)).
Qed.

(** X16.  At most one [fs.read] is outstanding at any time: within a
    session, while a request is outstanding the session is not ready; a
    turn of the event loop issues at most one read; and while a read is
    outstanding the only turn that issues one is the completion of that
    read (a change of the file reported meanwhile issues none). *)
Theorem one_read_at_a_time
    (dir file : Path) (fastForward : bool) (s : Session) (i : Input) (t : Turn unit) :
  reachable (after (stream dir file fastForward)) s ->
  step i s = Some t ->
  (pending s <> PNone -> ready s = false) /\
  (length (reads (effects t)) <= 1)%nat /\
  (reads (effects t) <> [] -> pending s = PRead ->
   exists buffer, i = ReadDone (Done buffer)).
Proof.
  intros Hreach Hstep.
  pose proof (reachable_busy_ok dir file fastForward s Hreach) as Hbusy.
  destruct (step_busy_ok i s t Hbusy Hstep) as (_ & Hl & Hi).
  split; [exact Hbusy|]. split; assumption.
Qed.

Lemma one_read_at_a_time_witness :
  let s := now (serve 3 Vectors.old (start Vectors.dir Vectors.log1 false)) in
  let t := turn_of (step (FileChanged (len Vectors.grown)) s) s in
  (pending s <> PNone -> ready s = false) /\
  (length (reads (effects t)) <= 1)%nat /\
  (reads (effects t) <> [] -> pending s = PRead ->
   exists buffer, FileChanged (len Vectors.grown) = ReadDone (Done buffer)).
Proof.
  intros s t.
  apply (one_read_at_a_time Vectors.dir Vectors.log1 false s
           (FileChanged (len Vectors.grown)) t).
  - apply (run_reachable _
             [StatDone (Done (len Vectors.old)); OpenDone (Done tt);
              ReadDone (Done Wire.magic)]
             (start Vectors.dir Vectors.log1 false)).
    + apply reach_start.
    + vm_compute. intuition discriminate.
    + vm_compute. reflexivity.
  - vm_compute. reflexivity.
Defined.

(** X17.  It does not matter whether the listener on the file is called
    before or after the completion of the read that is outstanding: when
    both orders are possible (the callback has not stopped the session),
    they lead to the same state and the same notifications. *)
Theorem change_commutes_with_completion
    (dir file : Path) (fastForward : bool) (r r1 r2 : Run) (buffer : Buffer)
    (size : Z) :
  reachable (after (stream dir file fastForward)) (now r) ->
  grows (now r) (FileChanged size) ->
  run [FileChanged size; ReadDone (Done buffer)] r = Some r1 ->
  run [ReadDone (Done buffer); FileChanged size] r = Some r2 ->
  now r1 = now r2 /\ published r1 = published r2.
Proof.
  intros Hreach Hgrow H1 H2.
  pose proof (reachable_busy_ok _ _ _ _ Hreach) as Hbusy.
  pose proof (reachable_cursor_ok _ _ _ _ Hreach) as [_ Hcur].
  cbn [run] in H1, H2.
  destruct (deliver (ReadDone (Done buffer)) r) as [ra|] eqn:Hda; [|discriminate].
  destruct (deliver (FileChanged size) ra) as [rb|] eqn:Hdb; [|discriminate].
  apply Some_inj in H2. subst rb.
  destruct (deliver (FileChanged size) r) as [rc|] eqn:Hdc; [|discriminate].
  destruct (deliver (ReadDone (Done buffer)) rc) as [rd|] eqn:Hdd; [|discriminate].
  apply Some_inj in H1. subst rd.
  apply deliver_some in Hda. destruct Hda as (ta & Hsa & Hna & _ & Hpa & _).
  apply step_read_done in Hsa. destruct Hsa as (Hp & Hl & ->).
  assert (Hr : ready (now r) = false) by (apply Hbusy; congruence).
  destruct (Hcur Hp) as (_ & k & Hst & Hfit).
  unfold grows in Hgrow. rewrite Hst in Hgrow.
  apply deliver_some in Hdb. destruct Hdb as (tb & Hsb & Hnb & _ & Hpb & _).
  apply step_changed in Hsb. destruct Hsb as [_ ->].
  apply deliver_some in Hdc. destruct Hdc as (tc & Hsc & Hnc & _ & Hpc & _).
  apply step_changed in Hsc. destruct Hsc as [_ ->].
  apply deliver_some in Hdd. destruct Hdd as (td & Hsd & Hnd & _ & Hpd & _).
  apply step_read_done in Hsd. destruct Hsd as (_ & _ & ->).
  rewrite (onChange_idle size (now r) Hr) in Hnc.
  destruct (call_after_change (didReadCallback (now r)) buffer (completed (now r))
              k size Hst Hgrow eq_refl eq_refl Hfit) as [Hlaw Hnot].
  split.
  - rewrite Hnd, Hnc, Hnb, Hna. symmetry. exact Hlaw.
  - rewrite Hpd, Hpc, Hpb, Hpa, Hnc, Hna.
    destruct (onChange_parser size (now r)) as (_ & -> & _).
    destruct (onChange_parser size
                (after (call (didReadCallback (now r)) buffer (completed (now r)))))
      as (_ & -> & _).
    rewrite !app_nil_r.
    change (completed (set_stat (Some size) (now r)))
      with (set_stat (Some size) (completed (now r))).
    change (didReadCallback (set_stat (Some size) (now r)))
      with (didReadCallback (now r)).
    rewrite Hnot. reflexivity.
Qed.

Lemma change_commutes_with_completion_witness :
  let r := serve 3 Vectors.old (start Vectors.dir Vectors.log1 false) in
  let buffer := Vectors.headerOf Vectors.fde in
  let size := len Vectors.grown in
  now (or_else (run [FileChanged size; ReadDone (Done buffer)] r) r) =
    now (or_else (run [ReadDone (Done buffer); FileChanged size] r) r) /\
  published (or_else (run [FileChanged size; ReadDone (Done buffer)] r) r) =
    published (or_else (run [ReadDone (Done buffer); FileChanged size] r) r).
Proof.
  intros r buffer size.
  apply (change_commutes_with_completion Vectors.dir Vectors.log1 false r _ _
           buffer size).
  - apply (run_reachable _
             [StatDone (Done (len Vectors.old)); OpenDone (Done tt);
              ReadDone (Done Wire.magic)]
             (start Vectors.dir Vectors.log1 false)).
    + apply reach_start.
    + vm_compute. intuition discriminate.
    + vm_compute. reflexivity.
  - vm_compute. discriminate.
  - vm_compute. reflexivity.
  - vm_compute. reflexivity.
Defined.

(* ------------------------------------------------------------------ *)
(** ** From one file to the next *)

(** The events of a well-formed log that other bytes follow. *)
Lemma serve_events_then (limit : option Z) (content : Buffer) (events : list Event) :
  forall (pre post : Buffer) (r : Run) (fuel : nat),
    Forall well_formed events ->
    content = pre ++ concat (map encode events) ++ post ->
    fileOffset (now r) = len pre ->
    awaiting limit (len content) (now r) ->
    exists r' fuel',
      (fuel <= fuel')%nat /\
      serve (2 * length events + fuel) content r = serve fuel' content r' /\
      published r' =
        published r ++
        decoded limit (len pre) (lastInsertId (now r)) (autoIncrement (now r)) events /\
      fileOffset (now r') = len (pre ++ concat (map encode events)) /\
      awaiting limit (len content) (now r') /\
      escaped r' = escaped r /\
      that_path (now r') = that_path (now r).
Proof.
  induction events as [|e events IH]; intros pre post r fuel Hwf Hc Ho Haw.
  - exists r, fuel. cbn. rewrite !app_nil_r. auto 10.
  - pose proof (Forall_inv Hwf) as He. pose proof (Forall_inv_tail Hwf) as Hrest.
    cbn [map concat] in Hc |- *. rewrite <- app_assoc in Hc.
    assert (Hc' : content = (pre ++ encode e) ++ concat (map encode events) ++ post)
      by (rewrite Hc, <- app_assoc; reflexivity).
    replace (2 * length (e :: events) + fuel)%nat
      with (S (S (2 * length events + fuel))) by (cbn [length]; lia).
    replace (pre ++ encode e ++ concat (map encode events))
      with ((pre ++ encode e) ++ concat (map encode events))
      by (rewrite <- app_assoc; reflexivity).
    destruct e as [ts body|ts body]; cbn [decoded].
    + pose proof (encode_query_length ts body) as Hl.
      replace (len pre + 19 + len body) with (len (pre ++ encode (QueryEvent ts body)))
        by (rewrite len_app; lia).
      destruct (skipping limit (len pre)) eqn:Hskip.
      * destruct (query_event_skipped limit content pre _ ts body r
                    (S (2 * length events + fuel)) He Hc Ho Haw Hskip)
          as (r1 & Hs & Haw1 & Ho1 & Hli & Hai & Hdone & Hesc & Hpath).
        destruct (IH _ post r1 (S fuel) Hrest Hc' Ho1 Haw1)
          as (r' & fuel' & Hle & Hs' & Hpub' & Hoff' & Haw' & Hesc' & Hpath').
        exists r', fuel'. rewrite Hs.
        replace (S (2 * length events + fuel)) with (2 * length events + S fuel)%nat
          by lia.
        rewrite Hs', Hpub', Hli, Hai.
        split; [lia|]. split; [reflexivity|].
        split; [|split; [assumption|split; [assumption|split; congruence]]].
        f_equal. unfold published. rewrite Hdone, notifications_app.
        rewrite notifications_request. apply app_nil_r.
      * destruct (query_event_served limit content pre _ ts body r
                    (2 * length events + fuel) He Hc Ho Haw Hskip)
          as (r1 & Hs & Haw1 & Ho1 & Hli & Hai & Hpub & Hesc & Hpath).
        destruct (IH _ post r1 fuel Hrest Hc' Ho1 Haw1)
          as (r' & fuel' & Hle & Hs' & Hpub' & Hoff' & Haw' & Hesc' & Hpath').
        exists r', fuel'. rewrite Hs, Hs', Hpub', Hpub, Hli, Hai, <- app_assoc.
        unfold carried, carrySet.
        split; [lia|]. split; [reflexivity|].
        split; [|split; [assumption|split; [assumption|split; congruence]]].
        destruct (truthy (lastInsertId (now r)) || truthy (autoIncrement (now r)));
          reflexivity.
    + pose proof (encode_hint_length ts body) as Hl.
      replace (len pre + 19 + len body) with (len (pre ++ encode (HintEvent ts body)))
        by (rewrite len_app; lia).
      destruct (hint_event_served limit content pre _ ts body r
                  (2 * length events + fuel) He Hc Ho Haw)
        as (r1 & Hs & Haw1 & Ho1 & Hli & Hai & Hpub & Hesc & Hpath).
      destruct (IH _ post r1 fuel Hrest Hc' Ho1 Haw1)
        as (r' & fuel' & Hle & Hs' & Hpub' & Hoff' & Haw' & Hesc' & Hpath').
      exists r', fuel'. rewrite Hs, Hs', Hpub', Hpub, Hli, Hai.
      split; [lia|]. split; [reflexivity|].
      split; [|split; [assumption|split; [assumption|split; congruence]]].
      destruct (at_ body 0 =? 1); [|destruct (at_ body 0 =? 2)]; reflexivity.
Qed.

Lemma onEvent_rotate_read (header : Buffer) (s : Session) :
  at_ header 4 = 4 ->
  onEvent header s = read (readInt header 9 - len header) cbRotateBody s.
Proof.
  intros Hc. unfold onEvent, parseRotateEvent. rewrite Hc. reflexivity.
Qed.

Lemma onRotateBody_turn (body : Buffer) (s : Session) :
  onRotateBody body s =
    {| outcome := Returned tt;
       after := set_waitingFor
                  (Some (path_join (that_path s) (slice_from body (Some 8))))
                  (set_ready false (set_closed true (set_watching false s)));
       effects := [FsUnwatch (file s); FsClose;
                   Emit (Rotate (path_join (that_path s) (slice_from body (Some 8))));
                   FsWatch (path_join (that_path s) (slice_from body (Some 8)))] |}.
Proof. reflexivity. Qed.

Lemma rotate_name (name : Buffer) :
  slice_from (Wire.rotateBody name) (Some 8) = name /\
  len (Wire.rotateBody name) = 8 + len name.
Proof.
  split.
  - unfold slice_from, Wire.rotateBody, Wire.le32, Wire.bytes.
    rewrite clamp_inside.
    + reflexivity.
    + cbn [map app length]. lia.
  - unfold Wire.rotateBody. rewrite !len_app.
    change (len (Wire.le32 4)) with 4. change (len (Wire.le32 0)) with 4. lia.
Qed.

(** A rotate event: the session stops and waits for the next file. *)
Lemma rotate_event_served (limit : option Z) (content pre post : Buffer) (ts : Z)
    (name : Buffer) (r : Run) (fuel : nat) :
  word ts -> word (19 + len (Wire.rotateBody name)) ->
  content = pre ++ Wire.event ts 4 (Wire.rotateBody name) ++ post ->
  fileOffset (now r) = len pre ->
  awaiting limit (len content) (now r) ->
  published (serve (S (S fuel)) content r) =
    published r ++ [Rotate (path_join (that_path (now r)) name)] /\
  waitingFor (now (serve (S (S fuel)) content r)) =
    Some (path_join (that_path (now r)) name) /\
  that_path (now (serve (S (S fuel)) content r)) = that_path (now r) /\
  escaped (serve (S (S fuel)) content r) = escaped r.
Proof.
  intros Hts Hlen Hc Ho (Hcb & Hbw & Hst & Hffu & Hw & Hpend).
  destruct (rotate_name name) as [Hname Hbody].
  remember (Wire.rotateBody name) as body eqn:Eb.
  destruct (header_fields ts 4 (19 + len body) [] Hts Hlen ltac:(lia))
    as (Hf0 & Hf4 & Hf9 & Hf19).
  rewrite app_nil_r in Hf0, Hf4, Hf9.
  unfold Wire.event in *.
  remember (Wire.header ts 4 (19 + len body)) as header eqn:Hh.
  pose proof (len_nonneg post) as Hpost. pose proof (len_nonneg name) as Hn0.
  assert (Hsize : len content = len pre + 19 + len body + len post)
    by (rewrite Hc, !len_app, Hf19; lia).
  destruct Hpend as [[_ Hp]|[Hlt _]]; [|lia].
  rewrite <- app_assoc in Hc.
  assert (Hst0 : stat (completed (now r)) = Some (len content)) by exact Hst.
  destruct (read_turn (readInt header 9 - len header) cbRotateBody (completed (now r))
              (len content) eq_refl ltac:(lia) Hst0)
    as (s1 & E1 & Hq1 & Hst1 & Hw1 & Hp1).
  pose proof (parser_file _ _ _ _ _ _ _ _ _ _ _ Hq1) as (Hpath1 & _).
  apply parser_fields in Hq1.
  destruct Hq1 as (Hli1 & Hai1 & Hcb1 & Hbw1 & Ho1 & Hffu1).
  assert (Hoff0 : fileOffset (completed (now r)) = len pre + 19) by (cbn; lia).
  rewrite Hoff0, Hf9, Hf19 in *.
  replace (19 + len body - 19) with (len body) in * by lia.
  destruct Hp1 as [[_ Hp1]|[Hlt _]]; [|lia].
  cbn in Hpath1.
  rewrite (served_read content pre header (body ++ post) (S fuel) r)
    by (try assumption; congruence).
  rewrite Hcb. cbn [call].
  rewrite (onEvent_rotate_read header _ Hf4), Hf9, Hf19.
  replace (19 + len body - 19) with (len body) by lia.
  rewrite E1. cbn [after effects outcome].
  rewrite (served_read content (pre ++ header) body post fuel)
    by (cbn [now]; rewrite ?len_app, ?Hf19; try assumption;
        rewrite Hc, <- app_assoc; reflexivity).
  cbn [now]. rewrite Hcb1. cbn [call].
  rewrite onRotateBody_turn. cbn [after effects outcome].
  rewrite serve_quiet by reflexivity.
  unfold published. cbn [done escaped now].
  rewrite !notifications_app, notifications_request. cbn.
  rewrite Hname, Hpath1, !app_nil_r. auto.
Qed.

Lemma stream_turn (dir file : Path) (fastForward : bool) :
  stream dir file fastForward =
    {| outcome := Returned tt;
       after := now (start dir file fastForward);
       effects := [FsStat file] |}.
Proof. destruct fastForward; vm_compute; reflexivity. Qed.

(** The listener on the next file: a new call of [stream]. *)
Lemma deliver_next (r : Run) (next : Path) :
  waitingFor (now r) = Some next ->
  exists r',
    deliver NextFileChanged r = Some r' /\
    now r' = now (start (that_path (now r)) next false) /\
    published r' = published r /\
    escaped r' = escaped r.
Proof.
  intros Hw. unfold deliver, step. rewrite Hw.
  unfold onNextFile, bind, perform. cbv beta iota.
  rewrite stream_turn. cbn.
  eexists. split; [reflexivity|]. unfold published. cbn.
  rewrite notifications_app, ?app_nil_r. cbn. rewrite ?app_nil_r. auto.
Qed.

(** What a session goes through depends on its state alone. *)
Lemma serve_extends (content : Buffer) (fuel : nat) :
  forall r r0,
    now r = now r0 ->
    now (serve fuel content r) = now (serve fuel content r0) /\
    exists ns es,
      published (serve fuel content r) = published r ++ ns /\
      published (serve fuel content r0) = published r0 ++ ns /\
      escaped (serve fuel content r) = escaped r ++ es /\
      escaped (serve fuel content r0) = escaped r0 ++ es.
Proof.
  induction fuel as [|fuel IH]; intros r r0 Hn.
  - cbn [serve]. split; [exact Hn|]. exists [], []. rewrite !app_nil_r. auto.
  - destruct (answer content (now r)) as [i|] eqn:Hans.
    2:{ cbn [serve]. rewrite <- Hn, Hans. split; [exact Hn|].
        exists [], []. rewrite !app_nil_r. auto. }
    destruct (deliver i r) as [r1|] eqn:Hd.
    + assert (Hd0 : exists r01, deliver i r0 = Some r01 /\ now r1 = now r01 /\
                (exists n1 e1, published r1 = published r ++ n1 /\
                               published r01 = published r0 ++ n1 /\
                               escaped r1 = escaped r ++ e1 /\
                               escaped r01 = escaped r0 ++ e1)).
      { unfold deliver in Hd |- *. rewrite <- Hn.
        destruct (step i (now r)) as [t|]; [|discriminate].
        apply Some_inj in Hd. subst r1. eexists. split; [reflexivity|].
        split; [reflexivity|]. unfold published. cbn.
        rewrite !notifications_app.
        exists (notifications (effects t)),
               (match outcome t with Thrown e => [e] | Returned _ => [] end).
        auto. }
      destruct Hd0 as (r01 & Hd0 & Hn1 & n1 & e1 & Hp1 & Hp01 & He1 & He01).
      rewrite (serve_answered fuel content r r1 i Hans Hd).
      rewrite (serve_answered fuel content r0 r01 i) by (rewrite <- ?Hn; assumption).
      destruct (IH r1 r01 Hn1) as (Hnow & ns & es & Hp & Hp0 & He & He0).
      split; [exact Hnow|]. exists (n1 ++ ns), (e1 ++ es).
      rewrite Hp, Hp0, He, He0, Hp1, Hp01, He1, He01, <- !app_assoc. auto.
    + assert (Hd0 : deliver i r0 = None).
      { unfold deliver in Hd |- *. rewrite <- Hn.
        destruct (step i (now r)); [discriminate | reflexivity]. }
      rewrite (serve_stuck fuel content r i Hans Hd).
      rewrite (serve_stuck fuel content r0 i) by (rewrite <- ?Hn; assumption).
      split; [exact Hn|]. exists [], []. rewrite !app_nil_r. auto.
Qed.

(** A complete log that ends with a rotate event. *)
Lemma decode_rotating (dir file : Path) (fastForward : bool) (ts : Z)
    (description : Buffer) (events : list Event) (tsR : Z) (name : Buffer)
    (content : Buffer) :
  word ts -> word (19 + len description) ->
  Forall well_formed events ->
  word tsR -> word (19 + len (Wire.rotateBody name)) ->
  content = binlog ts description events ++ Wire.event tsR 4 (Wire.rotateBody name) ->
  published (decode dir file fastForward content) =
    (Log (ts * 1000) file ::
     decoded (if fastForward then Some (len content) else None)
       (23 + len description) None None events) ++
    [Rotate (path_join dir name)] /\
  waitingFor (now (decode dir file fastForward content)) = Some (path_join dir name) /\
  that_path (now (decode dir file fastForward content)) = dir /\
  escaped (decode dir file fastForward content) = [].
Proof.
  intros Hts Hlen Hwf HtsR HlenR Hc.
  destruct (binlog_length ts description events) as [Hl Hh].
  destruct (rotate_name name) as [_ Hbody].
  pose proof (encoded_length events) as He.
  pose proof (len_nonneg description) as Hd0. pose proof (len_nonneg name) as Hn0.
  assert (Hsize : len content = len (binlog ts description events) + 19 +
                                len (Wire.rotateBody name)).
  { rewrite Hc, len_app. unfold Wire.event. rewrite len_app.
    change (len (Wire.header tsR 4 _)) with 19. lia. }
  assert (Hfuel : exists fuel,
             enough content = S (S (S (S (2 * length events + S (S fuel)))))).
  { unfold enough. exists (length content - 3 - 2 * length events)%nat.
    unfold len in *. lia. }
  destruct Hfuel as (fuel & Hfuel).
  rewrite <- decode_unfold, Hfuel.
  assert (Hc0 : content = Wire.magic ++ Wire.event ts 15 description ++
                          concat (map encode events) ++
                          Wire.event tsR 4 (Wire.rotateBody name))
    by (rewrite Hc; unfold binlog; rewrite <- !app_assoc; reflexivity).
  destruct (opening_served dir file fastForward ts description _ content
              (2 * length events + S (S fuel)) Hts Hlen Hc0)
    as (r1 & Hs1 & Haw1 & Ho1 & Hli1 & Hai1 & Hpub1 & Hesc1 & Hpath1).
  rewrite Hs1.
  assert (Hc1 : content = (Wire.magic ++ Wire.event ts 15 description) ++
                          concat (map encode events) ++
                          Wire.event tsR 4 (Wire.rotateBody name))
    by (rewrite Hc0, <- !app_assoc; reflexivity).
  destruct (serve_events_then _ content events _ _ r1 (S (S fuel)) Hwf Hc1 Ho1 Haw1)
    as (r2 & fuel2 & Hle & Hs2 & Hpub2 & Ho2 & Haw2 & Hesc2 & Hpath2).
  rewrite Hs2.
  destruct fuel2 as [|[|fuel2]]; try lia.
  assert (Hc2 : content = ((Wire.magic ++ Wire.event ts 15 description) ++
                           concat (map encode events)) ++
                          Wire.event tsR 4 (Wire.rotateBody name) ++ [])
    by (rewrite Hc1, app_nil_r, <- !app_assoc; reflexivity).
  destruct (rotate_event_served _ content _ [] tsR name r2 fuel2
              HtsR HlenR Hc2 Ho2 Haw2)
    as (Hpub3 & Hwait3 & Hpath3 & Hesc3).
  rewrite Hpub3, Hwait3, Hpath3, Hesc3, Hpub2, Hpub1, Hli1, Hai1, Hpath2, Hpath1,
    Hesc2, Hesc1, Hh.
  auto.
Qed.

(** X18.  From one file to the next: a log that ends with a rotate event
    is decoded to its end, ['rotate'] is published with the path that
    [path.join] makes of the tailer's directory and the name in the event,
    and when the listener on that file fires the next file is decoded from
    its start: its ['log'], under the same path, and every query in it are
    published, also when the first file was opened with [fastForward], and
    with no carry taken over from the first file.  The name is taken to be
    ASCII, so that [toString('utf-8')] gives back its bytes. *)
Theorem rotation_decoded
    (dir file : Path) (fastForward : bool)
    (ts : Z) (description : Buffer) (events : list Event)
    (tsR : Z) (name : Buffer)
    (ts' : Z) (description' : Buffer) (events' : list Event) :
  word ts -> word (19 + len description) -> Forall well_formed events ->
  word tsR -> word (19 + len (Wire.rotateBody name)) -> plain_text name ->
  word ts' -> word (19 + len description') -> Forall well_formed events' ->
  exists r,
    decode_rotated dir file fastForward
      (binlog ts description events ++ Wire.event tsR 4 (Wire.rotateBody name))
      (binlog ts' description' events') = Some r /\
    published r =
      (Log (ts * 1000) file ::
       (if fastForward then [] else expected None None events)) ++
      Rotate (path_join dir name) ::
      Log (ts' * 1000) (path_join dir name) :: expected None None events' /\
    escaped r = [].
Proof.
  intros Hts Hlen Hwf HtsR HlenR _ Hts' Hlen' Hwf'.
  remember (binlog ts description events ++ Wire.event tsR 4 (Wire.rotateBody name))
    as content eqn:Hc.
  destruct (decode_rotating dir file fastForward ts description events tsR name
              content Hts Hlen Hwf HtsR HlenR Hc)
    as (Hpub & Hwait & Hpath & Hesc).
  assert (Hold : decoded (if fastForward then Some (len content) else None)
                   (23 + len description) None None events =
                 if fastForward then [] else expected None None events).
  { destruct fastForward.
    - apply decoded_within; [exact Hwf|].
      destruct (binlog_length ts description events) as [Hl Hh].
      rewrite Hc, len_app. pose proof (len_nonneg (Wire.event tsR 4 (Wire.rotateBody name))).
      lia.
    - apply decoded_plain. }
  rewrite Hold in Hpub. clear Hold.
  unfold decode_rotated.
  remember (decode dir file fastForward content) as q eqn:Eq. clear Eq.
  destruct (deliver_next q _ Hwait) as (r' & Hd & Hnow & Hpub' & Hesc').
  rewrite Hd. eexists. split; [reflexivity|].
  rewrite Hpath in Hnow.
  destruct (serve_extends (binlog ts' description' events')
              (enough (binlog ts' description' events')) r'
              (start dir (path_join dir name) false) Hnow)
    as (_ & ns & es & Hp & Hp0 & He & He0).
  rewrite decode_unfold in Hp0, He0.
  destruct (decode_log dir (path_join dir name) false ts' description' events' None
              Hts' Hlen' Hwf' eq_refl)
    as (Hnext & _ & _ & _ & Hnesc).
  destruct (decoded_plain events' (23 + len description') None None) as [Hd' _].
  rewrite Hd' in Hnext.
  destruct (start_state dir (path_join dir name) false)
    as (_ & _ & _ & _ & Hdone0 & Hesc0).
  unfold published in Hp0 at 2. rewrite Hdone0 in Hp0. rewrite Hesc0 in He0.
  cbn [notifications app] in Hp0, He0.
  rewrite Hp, He, <- Hp0, <- He0, Hnext, Hnesc, Hpub', Hesc', Hpub, Hesc.
  rewrite <- app_assoc. auto.
Qed.

Lemma rotation_decoded_witness :
  exists r,
    decode_rotated Vectors.dir Vectors.log1 true
      (binlog 99 [] hintThenQuery ++
       Wire.event 103 4 (Wire.rotateBody Vectors.name2))
      (binlog 199 [] laterQuery) = Some r /\
    published r =
      (Log (99 * 1000) Vectors.log1 :: []) ++
      Rotate (path_join Vectors.dir Vectors.name2) ::
      Log (199 * 1000) (path_join Vectors.dir Vectors.name2) ::
      expected None None laterQuery /\
    escaped r = [].
Proof.
  apply (rotation_decoded Vectors.dir Vectors.log1 true 99 [] hintThenQuery
           103 Vectors.name2 199 [] laterQuery).
  - unfold word; lia.
  - unfold word, len; simpl; lia.
  - well_formed_events.
  - unfold word; lia.
  - unfold word, len; simpl; lia.
  - plain_text_close.
  - unfold word; lia.
  - unfold word, len; simpl; lia.
  - well_formed_events.
Defined.

(* ------------------------------------------------------------------ *)
(** ** A header that declares no length *)

Lemma session_ext (s s' : Session) :
  that_path s = that_path s' -> file s = file s' ->
  fastForward s = fastForward s' -> fastForwardUntil s = fastForwardUntil s' ->
  lastInsertId s = lastInsertId s' -> autoIncrement s = autoIncrement s' ->
  stat s = stat s' -> handle s = handle s' ->
  didReadCallback s = didReadCallback s' -> bytesWanted s = bytesWanted s' ->
  fileOffset s = fileOffset s' -> ready s = ready s' ->
  watching s = watching s' -> closed s = closed s' ->
  pending s = pending s' -> waitingFor s = waitingFor s' ->
  s = s'.
Proof.
  destruct s, s'. cbn. intros. subst. reflexivity.
Qed.

Lemma skip_back (r : Run) (header : Buffer) (limit size : Z) :
  pending (now r) = PRead -> ready (now r) = false ->
  didReadCallback (now r) = Some cbEvent -> bytesWanted (now r) = 19 ->
  stat (now r) = Some size -> fileOffset (now r) + 19 <= size ->
  fastForwardUntil (now r) = Some limit -> fileOffset (now r) + 19 < limit ->
  len header = 19 -> at_ header 4 = 2 -> readInt header 9 = 0 ->
  exists r',
    deliver (ReadDone (Done header)) r = Some r' /\
    now r' = now r /\
    done r' = done r ++ [FsRead 19 (fileOffset (now r))] /\
    escaped r' = escaped r.
Proof.
  intros Hp Hr Hcb Hbw Hst Hle Hffu Hlt Hl Hc Hz.
  rewrite (deliver_read r header Hp) by congruence.
  eexists. split; [reflexivity|]. cbn [now done escaped].
  rewrite Hcb. cbn [call].
  assert (Hff : fastForwarding (completed (now r)) = true).
  { unfold fastForwarding. cbn. rewrite Hffu, Hbw. apply Z.ltb_lt. exact Hlt. }
  unfold onEvent, parseQueryEvent, expectEvent, skip, read, bind, get, modify.
  rewrite Hc. cbn. rewrite Hff. cbn. rewrite Hz, Hl.
  match goal with
  | |- context [readChunk ?x] =>
      rewrite (readChunk_issues x size)
        by (cbn; first [reflexivity | assumption | lia])
  end.
  cbn. rewrite Hbw.
  replace (fileOffset (now r) + 19 + -19) with (fileOffset (now r)) by lia.
  rewrite app_nil_r.
  split; [|split; reflexivity].
  apply session_ext; cbn; try reflexivity; try congruence; lia.
Qed.

(** X19.  A query header below the fast-forward threshold that declares
    the length 0: the skip takes the cursor back to the start of that very
    header, which is read again, and so on without end; the state after
    any number of completions is the state before the first, nothing is
    published, and every completion issues the same read once more. *)
Theorem zero_length_query_is_read_forever
    (r : Run) (header : Buffer) (limit size : Z) (n : nat) :
  pending (now r) = PRead -> ready (now r) = false ->
  didReadCallback (now r) = Some cbEvent -> bytesWanted (now r) = 19 ->
  stat (now r) = Some size -> fileOffset (now r) + 19 <= size ->
  fastForwardUntil (now r) = Some limit -> fileOffset (now r) + 19 < limit ->
  len header = 19 -> at_ header 4 = 2 -> readInt header 9 = 0 ->
  exists r',
    run (repeat (ReadDone (Done header)) n) r = Some r' /\
    now r' = now r /\
    published r' = published r /\
    reads (done r') = reads (done r) ++ repeat (19, fileOffset (now r)) n /\
    escaped r' = escaped r.
Proof.
  intros Hp Hr Hcb Hbw Hst Hle Hffu Hlt Hl Hc Hz.
  revert r Hp Hr Hcb Hbw Hst Hle Hffu Hlt.
  induction n as [|n IH]; intros r Hp Hr Hcb Hbw Hst Hle Hffu Hlt.
  - exists r. cbn. rewrite app_nil_r. auto.
  - destruct (skip_back r header limit size Hp Hr Hcb Hbw Hst Hle Hffu Hlt Hl Hc Hz)
      as (r1 & Hd & Hnow & Hdone & Hesc).
    cbn [repeat run]. rewrite Hd.
    rewrite <- Hnow in Hp, Hr, Hcb, Hbw, Hst, Hle, Hffu, Hlt.
    destruct (IH r1 Hp Hr Hcb Hbw Hst Hle Hffu Hlt)
      as (r' & Hrun & Hnow' & Hpub' & Hreads' & Hesc').
    exists r'. split; [exact Hrun|]. split; [congruence|].
    unfold published in *. rewrite Hdone in Hpub', Hreads'.
    rewrite notifications_app in Hpub'. rewrite reads_app in Hreads'.
    cbn in Hpub', Hreads'. rewrite app_nil_r in Hpub'.
    rewrite <- app_assoc in Hreads'. cbn in Hreads'.
    rewrite Hnow in Hreads'.
    split; [exact Hpub'|]. split; [exact Hreads'|]. congruence.
Qed.

Lemma zero_length_query_is_read_forever_witness :
  let r := serve 4 zeroLengthLog (start Vectors.dir Vectors.log1 true) in
  exists r',
    run (repeat (ReadDone (Done (Wire.header 100 2 0))) 3) r = Some r' /\
    now r' = now r /\
    published r' = published r /\
    reads (done r') = reads (done r) ++ repeat (19, fileOffset (now r)) 3 /\
    escaped r' = escaped r.
Proof.
  intros r.
  apply (zero_length_query_is_read_forever r (Wire.header 100 2 0)
           (len zeroLengthLog) (len zeroLengthLog) 3).
  - vm_compute. reflexivity.
  - vm_compute. reflexivity.
  - vm_compute. reflexivity.
  - vm_compute. reflexivity.
  - vm_compute. reflexivity.
  - vm_compute. discriminate.
  - vm_compute. reflexivity.
  - vm_compute. reflexivity.
  - vm_compute. reflexivity.
  - vm_compute. reflexivity.
  - vm_compute. reflexivity.
Defined.

(* ------------------------------------------------------------------ *)
(** ** A header that declares less than its own length *)

Lemma read_refused (n : Z) (cb : Callback) (s : Session) (size : Z) :
  ready s = true -> n < 0 -> stat s = Some size -> fileOffset s + n <= size ->
  read n cb s =
    throw RangeError
      (set_ready false (set_didReadCallback (Some cb) (set_bytesWanted n s))).
Proof.
  intros Hr Hn Hs Hle. unfold read, bind, modify. cbn.
  rewrite (readChunk_refuses _ size) by (cbn; assumption). reflexivity.
Qed.

(** A session that is not ready takes note of the sizes it is told and
    does nothing else. *)
Lemma ignored_changes (sizes : list Z) :
  forall r r',
    ready (now r) = false ->
    run (map FileChanged sizes) r = Some r' ->
    done r' = done r /\ escaped r' = escaped r /\
    ready (now r') = false /\ pending (now r') = pending (now r) /\
    fileOffset (now r') = fileOffset (now r).
Proof.
  induction sizes as [|size sizes IH]; intros r r' Hr; cbn [run map].
  - intros H. apply Some_inj in H. subst. auto.
  - destruct (deliver (FileChanged size) r) as [r1|] eqn:Hd; [|discriminate].
    intros H.
    apply deliver_some in Hd. destruct Hd as (t & Hs & Hnow & Hdone & _ & Hesc).
    apply step_changed in Hs. destruct Hs as [_ ->].
    revert Hnow Hdone Hesc. unfold onChange, bind, modify. cbn.
    rewrite (readChunk_idle (set_stat (Some size) (now r))) by exact Hr. cbn.
    rewrite !app_nil_r. intros Hnow Hdone Hesc.
    assert (Hr1 : ready (now r1) = false) by (rewrite Hnow; exact Hr).
    destruct (IH r1 r' Hr1 H) as (Hd' & He' & Hr' & Hp' & Ho').
    rewrite Hd', He', Hp', Ho', Hdone, Hesc, Hnow. auto.
Qed.

(** X22.  The header of a query event past the threshold, or of a rotate
    event, that declares fewer than its own 19 bytes makes [read] ask for
    a count below 0.  [readChunk] sets [ready] to false and
    [new Buffer(bytesWanted)] throws before [fs.read] is called: no read
    is issued, nothing is published, the exception escapes, and the
    session, left not ready with nothing outstanding, ignores every later
    change of the file. *)
Theorem short_event_is_refused
    (dir file : Path) (fastForward : bool) (r r' : Run) (header : Buffer) :
  reachable (after (stream dir file fastForward)) (now r) ->
  didReadCallback (now r) = Some cbEvent ->
  (at_ header 4 = 2 /\ fastForwarding (completed (now r)) = false) \/
  at_ header 4 = 4 ->
  readInt header 9 < 19 ->
  deliver (ReadDone (Done header)) r = Some r' ->
  escaped r' = escaped r ++ [RangeError] /\
  done r' = done r /\
  ready (now r') = false /\ pending (now r') = PNone /\
  fileOffset (now r') = fileOffset (now r) + 19 /\
  forall sizes r'',
    run (map FileChanged sizes) r' = Some r'' ->
    done r'' = done r /\ escaped r'' = escaped r ++ [RangeError] /\
    ready (now r'') = false /\ pending (now r'') = PNone /\
    fileOffset (now r'') = fileOffset (now r) + 19.
Proof.
  intros Hreach Hcb Hcode Hshort Hd.
  apply reachable_cursor_ok in Hreach. destruct Hreach as [Hsize Hrd].
  apply deliver_some in Hd. destruct Hd as (t & Hstep & Hnow & Hdone & _ & Hesc).
  apply step_read_done in Hstep. destruct Hstep as (Hp & Hl & ->).
  destruct (Hrd Hp) as (Hnz & size & Hst & Hfit).
  assert (Hbw : bytesWanted (now r) = 19)
    by (destruct (Hsize _ 19 Hcb eq_refl); congruence).
  rewrite Hbw in Hl, Hfit.
  assert (Hturn :
            call (didReadCallback (now r)) header (completed (now r)) =
              throw RangeError
                (set_ready false
                   (set_didReadCallback
                      (Some (match at_ header 4 with
                             | 2 => cbQueryBody (readTimestamp header 0)
                             | _ => cbRotateBody
                             end))
                      (set_bytesWanted (readInt header 9 - len header)
                         (completed (now r)))))).
  { rewrite Hcb. cbn [call].
    destruct Hcode as [[Hc Hff]|Hc]; rewrite Hc.
    - rewrite (onEvent_query_read header _ Hc Hff).
      apply (read_refused _ _ _ size); cbn; try assumption; try reflexivity; lia.
    - rewrite (onEvent_rotate_read header _ Hc).
      apply (read_refused _ _ _ size); cbn; try assumption; try reflexivity; lia. }
  rewrite Hturn in Hnow, Hdone, Hesc. cbn in Hnow, Hdone, Hesc.
  rewrite app_nil_r in Hdone.
  assert (Hr' : ready (now r') = false) by (rewrite Hnow; reflexivity).
  assert (Hp' : pending (now r') = PNone) by (rewrite Hnow; reflexivity).
  assert (Ho' : fileOffset (now r') = fileOffset (now r) + 19)
    by (rewrite Hnow; cbn; rewrite Hbw; reflexivity).
  split; [exact Hesc|]. split; [exact Hdone|]. split; [exact Hr'|].
  split; [exact Hp'|]. split; [exact Ho'|].
  intros sizes r'' Hrun.
  destruct (ignored_changes sizes r' r'' Hr' Hrun) as (Hd2 & He2 & Hr2 & Hp2 & Ho2).
  repeat split; congruence.
Qed.

Lemma short_event_is_refused_witness :
  let r := serve 4 Vectors.tinyLog (start Vectors.dir Vectors.log1 false) in
  let r' := or_else (deliver (ReadDone (Done Vectors.tinyQuery)) r) r in
  escaped r' = [RangeError] /\
  reads (done r') = [(4, 0); (19, 4); (19, 80)] /\
  published r' = [Log 99000 Vectors.log1] /\
  ready (now r') = false /\ pending (now r') = PNone.
Proof.
  intros r r'.
  destruct (short_event_is_refused Vectors.dir Vectors.log1 false r r'
              Vectors.tinyQuery)
    as (Hesc & Hdone & Hr & Hp & _).
  - apply (run_reachable _
             [StatDone (Done (len Vectors.tinyLog)); OpenDone (Done tt);
              ReadDone (Done Wire.magic);
              ReadDone (Done (Vectors.headerOf Vectors.fde))]
             (start Vectors.dir Vectors.log1 false)).
    + apply reach_start.
    + vm_compute. intuition discriminate.
    + vm_compute. reflexivity.
  - vm_compute. reflexivity.
  - left. vm_compute. split; reflexivity.
  - vm_compute. reflexivity.
  - vm_compute. reflexivity.
  - split; [rewrite Hesc; vm_compute; reflexivity|].
    split; [unfold published; rewrite Hdone; vm_compute; reflexivity|].
    split; [unfold published; rewrite Hdone; vm_compute; reflexivity|].
    split; assumption.
Defined.

(* ------------------------------------------------------------------ *)
(** ** Buffers handed to the callbacks *)

Lemma index_inside (buffer : Buffer) (i : Z) :
  0 <= i < len buffer -> index buffer i = Some (at_ buffer i).
Proof.
  intros [H0 H1]. unfold index, at_, len in *.
  assert (E : (i <? 0) = false) by (apply Z.ltb_ge; lia). rewrite E.
  rewrite (nth_error_nth' buffer x00) by lia. reflexivity.
Qed.

Lemma index_defined (buffer : Buffer) (i : Z) :
  0 <= i -> (index buffer i = None <-> len buffer <= i).
Proof.
  intros H0. unfold index, len.
  assert (E : (i <? 0) = false) by (apply Z.ltb_ge; lia). rewrite E.
  destruct (nth_error buffer (Z.to_nat i)) as [b|] eqn:En; cbn [option_map].
  - assert (Hlt : (Z.to_nat i < length buffer)%nat)
      by (apply nth_error_Some; congruence).
    split; [discriminate | lia].
  - apply nth_error_None in En. split; [lia | reflexivity].
Qed.

Lemma readSmallint_defined (buffer : Buffer) (offset : Z) :
  0 <= offset ->
  (readSmallint buffer offset = None <-> len buffer <= offset + 1).
Proof.
  intros H0. unfold readSmallint, jsadd, jsmul.
  pose proof (index_defined buffer offset H0) as Hlo.
  pose proof (index_defined buffer (offset + 1) ltac:(lia)) as Hhi.
  destruct Hlo as [Hlo _]. destruct Hhi as [Hhi Hhi'].
  destruct (index buffer (offset + 1)) as [hi|]; cbn [option_map];
    destruct (index buffer offset) as [lo|]; split; intros H;
    try reflexivity; try discriminate.
  - specialize (Hhi' H). discriminate.
  - specialize (Hlo eq_refl). lia.
  - exact (Hhi eq_refl).
  - exact (Hhi eq_refl).
Qed.

(** A body too short to hold the second byte of its status length: the
    bounds of both slices are [NaN], which [slice] takes for 0. *)
Lemma short_query_body (buffer : Buffer) :
  len buffer <= 12 -> queryDb buffer = [] /\ queryText buffer = buffer.
Proof.
  intros H. unfold queryDb, queryText.
  destruct (readSmallint_defined buffer 11 ltac:(lia)) as [_ Hs].
  rewrite (Hs ltac:(lia)).
  replace (jsadd (Some 13) None) with (@None Z) by reflexivity.
  replace (jsadd (jsadd (Some 14) (index buffer 8)) None) with (@None Z)
    by (unfold jsadd; destruct (index buffer 8); reflexivity).
  unfold slice, slice_from, jsadd, clamp. split; reflexivity.
Qed.

(** X20.  Within a session the callbacks that ask for a fixed count are
    handed a buffer of exactly that many bytes: 4 for the magic number, 19
    for a header, 9 for the body of an auto-increment event.  Every
    position below that count holds a byte: [buffer[i]] is never
    [undefined] there.  The callback that takes the body of a query event
    has no such count: it is handed the bytes the header declares beyond
    its own 19, [buffer[8]] is [undefined] when there are no more than 8
    of them and [readSmallint(buffer, 11)] is [NaN] when there are no more
    than 12, and the query is then published with an empty [db] and the
    whole body as its text. *)
Theorem fixed_positions_are_inside
    (dir file : Path) (fastForward : bool) (s : Session)
    (buffer : Buffer) (t : Turn unit) (cb : Callback) :
  reachable (after (stream dir file fastForward)) s ->
  step (ReadDone (Done buffer)) s = Some t ->
  didReadCallback s = Some cb ->
  len buffer = bytesWanted s /\
  (forall n, chunk_size cb = Some n ->
     len buffer = n /\
     forall i, 0 <= i < n -> index buffer i = Some (at_ buffer i)) /\
  (forall ts, cb = cbQueryBody ts ->
     (index buffer 8 = None <-> len buffer <= 8) /\
     (readSmallint buffer 11 = None <-> len buffer <= 12) /\
     (len buffer <= 12 ->
      notifications (effects t) = [Query ts [] buffer (carried s)])).
Proof.
  intros Hreach Hstep Hcb.
  split; [apply step_read_done in Hstep; tauto|]. split.
  - intros n Hn.
    pose proof (delivered_in_full dir file fastForward s buffer t cb n
                  Hreach Hstep Hcb Hn) as Hl.
    split; [exact Hl|]. intros i Hi. apply index_inside. lia.
  - intros ts ->. split; [apply index_defined; lia|].
    split; [apply readSmallint_defined; lia|].
    intros Hshort.
    apply step_read_done in Hstep. destruct Hstep as (_ & _ & ->).
    rewrite Hcb. cbn [call].
    destruct (onQueryBody_parser ts buffer (completed s)) as [_ Hn].
    destruct (short_query_body buffer Hshort) as [Hdb Htext].
    rewrite Hn, Hdb, Htext. reflexivity.
Qed.

Lemma fixed_positions_are_inside_witness :
  let s := now (serve 5 Vectors.shortQueryLog
                  (start Vectors.dir Vectors.log1 false)) in
  let body := Vectors.bodyOf Vectors.shortQuery in
  let t := turn_of (step (ReadDone (Done body)) s) s in
  len body = 5 /\
  index body 8 = None /\
  notifications (effects t) = [Query 104000 [] body None].
Proof.
  intros s body t.
  destruct (fixed_positions_are_inside Vectors.dir Vectors.log1 false s body t
              (cbQueryBody 104000))
    as (Hl & _ & Hq).
  - apply (run_reachable _
             [StatDone (Done (len Vectors.shortQueryLog)); OpenDone (Done tt);
              ReadDone (Done Wire.magic);
              ReadDone (Done (Vectors.headerOf Vectors.fde));
              ReadDone (Done (Vectors.headerOf Vectors.shortQuery))]
             (start Vectors.dir Vectors.log1 false)).
    + apply reach_start.
    + vm_compute. intuition discriminate.
    + vm_compute. reflexivity.
  - vm_compute. reflexivity.
  - vm_compute. reflexivity.
  - destruct (Hq 104000 eq_refl) as (H8 & _ & Hn).
    split; [reflexivity|]. split.
    + apply H8. vm_compute. discriminate.
    + apply Hn. vm_compute. discriminate.
Defined.

(* ------------------------------------------------------------------ *)
(** ** After [stop] *)

Ltac stopped_close :=
  cbn in *; unfold stopped_ok; cbn; intros; try congruence; auto.

Lemma call_stopped_ok (cb : option Callback) (buffer : Buffer) (s : Session) :
  pending s = PNone -> closed s = false ->
  stopped_ok (after (call cb buffer s)).
Proof.
  intros Hp Hc.
  destruct cb as [[| | |ts| |]|]; run_turn.
  - destruct (_ && _); cbn; [chunk|]; stopped_close.
  - destruct (_ =? 15); cbn; [chunk|]; stopped_close.
  - destruct (_ =? 2); [destruct (fastForwarding s)|]; cbn.
    + chunk; stopped_close.
    + chunk; stopped_close.
    + destruct (_ =? 3); [|destruct (_ =? 4); [|destruct (_ =? 5)]]; cbn;
        try chunk; stopped_close.
  - destruct (truthy (lastInsertId s) || truthy (autoIncrement s)); cbn;
      chunk; stopped_close.
  - destruct (_ =? 1); [|destruct (_ =? 2)]; cbn; chunk; stopped_close.
  - stopped_close.
  - stopped_close.
Qed.

Lemma step_stopped_ok (i : Input) (s : Session) (t : Turn unit) :
  stopped_ok s ->
  step i s = Some t ->
  stopped_ok (after t).
Proof.
  intros Hok Hstep.
  assert (Hopen : pending s <> PNone \/ watching s = true -> closed s = false).
  { destruct (closed s) eqn:Hc; [|reflexivity].
    destruct (Hok Hc) as (Hp & Hw & _). intros [H|H]; congruence. }
  destruct i as [[errno|size]|[errno|[]]|size|[errno|buffer]|].
  - unfold step, is_pending in Hstep.
    destruct (pending s) eqn:Hp; try discriminate.
    assert (Hc : closed s = false) by (apply Hopen; left; discriminate).
    apply Some_inj in Hstep. subst t. run_callback. stopped_close.
  - unfold step, is_pending in Hstep.
    destruct (pending s) eqn:Hp; try discriminate.
    assert (Hc : closed s = false) by (apply Hopen; left; discriminate).
    apply Some_inj in Hstep. subst t. run_callback.
    destruct (fastForward s); stopped_close.
  - unfold step, is_pending in Hstep.
    destruct (pending s) eqn:Hp; try discriminate.
    assert (Hc : closed s = false) by (apply Hopen; left; discriminate).
    apply Some_inj in Hstep. subst t. run_callback. stopped_close.
  - unfold step, is_pending in Hstep.
    destruct (pending s) eqn:Hp; try discriminate.
    assert (Hc : closed s = false) by (apply Hopen; left; discriminate).
    apply Some_inj in Hstep. subst t. run_callback. chunk; stopped_close.
  - apply step_changed in Hstep. destruct Hstep as [Hw ->].
    assert (Hc : closed s = false) by (apply Hopen; right; exact Hw).
    destruct (onChange_parser size s) as (_ & _ & _ & Hclosed).
    unfold stopped_ok. rewrite Hclosed. congruence.
  - unfold step, is_pending in Hstep.
    destruct (pending s) eqn:Hp; try discriminate.
    apply Some_inj in Hstep. subst t. run_callback. stopped_close.
  - apply step_read_done in Hstep. destruct Hstep as (Hp & _ & ->).
    assert (Hc : closed s = false) by (apply Hopen; left; congruence).
    apply call_stopped_ok; [reflexivity | exact Hc].
  - unfold step in Hstep. destruct (waitingFor s) as [next|]; [|discriminate].
    apply Some_inj in Hstep. subst t. run_callback. unfold readChunk. run_turn.
    stopped_close.
Qed.

Lemma reachable_stopped_ok (dir file : Path) (fastForward : bool) (s : Session) :
  reachable (after (stream dir file fastForward)) s -> stopped_ok s.
Proof.
  induction 1 as [|s i t _ IH Hi Hg Hstep].
  - destruct fastForward; vm_compute; discriminate.
  - exact (step_stopped_ok i s t IH Hstep).
Qed.

(** X21.  [stop] is final: in a session that has closed its file (after
    'Invalid binlog', 'Invalid binlog version', a rotate event or a failed
    read) no request is outstanding, the listener on the file is removed
    and the ready flag is down, so no callback of the session runs again;
    the only thing that can still happen is the listener on the next file
    of a rotation. *)
Theorem stop_is_final
    (dir file : Path) (fastForward : bool) (s : Session) :
  reachable (after (stream dir file fastForward)) s ->
  closed s = true ->
  pending s = PNone /\ watching s = false /\ ready s = false /\
  forall i, i <> NextFileChanged -> step i s = None.
Proof.
  intros Hreach Hc.
  destruct (reachable_stopped_ok dir file fastForward s Hreach Hc) as (Hp & Hw & Hr).
  repeat split; try assumption.
  intros i Hi. unfold step, is_pending.
  destruct i as [x|x|size|x|]; rewrite ?Hp, ?Hw; try reflexivity. congruence.
Qed.

Lemma stop_is_final_witness :
  let s := now (serve 3 Vectors.notALog (start Vectors.dir Vectors.log1 true)) in
  pending s = PNone /\ watching s = false /\ ready s = false /\
  forall i, i <> NextFileChanged -> step i s = None.
Proof.
  intros s.
  apply (stop_is_final Vectors.dir Vectors.log1 true s).
  - apply (run_reachable _
             [StatDone (Done (len Vectors.notALog)); OpenDone (Done tt);
              ReadDone (Done (firstn 4 Vectors.notALog))]
             (start Vectors.dir Vectors.log1 true)).
    + apply reach_start.
    + vm_compute. intuition discriminate.
    + vm_compute. reflexivity.
  - vm_compute. reflexivity.
Defined.
